(** * engram-mcp: the request-proxying core

    A shallow embedding of the TypeScript sources of the Engram MCP server
    (validator, sliding-window rate limiter, HTTP client with bounded retries,
    tool handlers with their error rendering) together with the properties
    the specification states about them.

    Conventions of the embedding.
    - A JavaScript string that comes from the caller is a list of UTF-16 code
      units ([list N]): [String.prototype.trim] removes code units well above
      the 8-bit range (U+1680, U+2000..U+200A, U+FEFF, ...), so an 8-bit
      character type cannot carry the inputs of the validator.
    - Text that the program itself produces (error messages, operation labels,
      paths) is a Rocq [string] that holds the UTF-8 bytes of the JavaScript
      string; it is concatenated and compared, and in one place (the body
      quoted in an error message) cut at a number of UTF-16 code units.
    - A JavaScript [throw] is the left injection of a sum; a function that also
      mutates module state returns the state next to that sum, on both paths.
    - [Date.now()] and [new Date().toISOString()] are inputs of the model. *)

From Stdlib Require Import ZArith QArith Qminmax.
From stdpp Require Import base gmap strings list pretty sorting.

Open Scope Z_scope.

Set Warnings "-register-all".

(** ** Exceptions *)

(** [EngramError] (engram-api.ts, bottom) extends [Error] with a status
    code and an [offline] flag that defaults to [false]; every other throw in
    the sources is a plain [Error]. *)
Inductive exn : Type :=
| EngramError (message : string) (statusCode : Z) (offline : bool)
| Error (message : string).

(** A computation that may throw. *)
Abbreviation throws A := (exn + A)%type.

Definition bindE {A B : Type} (m : throws A) (k : A -> throws B) : throws B :=
  match m with
  | inl e => inl e
  | inr a => k a
  end.

Fixpoint mapE {A B : Type} (f : A -> throws B) (l : list A) : throws (list B) :=
  match l with
  | [] => inr []
  | x :: rest =>
      bindE (f x) (fun y => bindE (mapE f rest) (fun ys => inr (y :: ys)))
  end.

(** ** JavaScript strings and values *)

Module Js.

Abbreviation jsstring := (list N).

(** The bytes of a Rocq string. For an ASCII literal of the source they are
    its code units. *)
Definition lit (s : string) : jsstring :=
  List.map Ascii.N_of_ascii (String.list_ascii_of_string s).

(** The inverse direction, for bytes, or for code units below 256. *)
Definition text (s : jsstring) : string :=
  String.string_of_list_ascii (List.map Ascii.ascii_of_N s).

(** The values an [unknown] argument can hold. Numbers are the finite ones. *)
Inductive jsval : Type :=
| JUndefined
| JNull
| JBoolean (b : bool)
| JNumber (n : Q)
| JString (s : jsstring)
| JArray (items : list jsval)
| JObject.

(** The character class [[\x00-\x08\x0B\x0C\x0E-\x1F\x7F]]. *)
Definition isControl (c : N) : bool :=
  ((c <=? 8) || (c =? 11) || (c =? 12) || ((14 <=? c) && (c <=? 31)) || (c =? 127))%N.

(** ECMAScript WhiteSpace and LineTerminator code points, the ones
    [String.prototype.trim] removes at both ends. *)
Definition isWhiteSpace (c : N) : bool :=
  ((c =? 9) || (c =? 10) || (c =? 11) || (c =? 12) || (c =? 13) || (c =? 32)
   || (c =? 160) || (c =? 5760) || ((8192 <=? c) && (c <=? 8202))
   || (c =? 8232) || (c =? 8233) || (c =? 8239) || (c =? 8287)
   || (c =? 12288) || (c =? 65279))%N.

Fixpoint dropWhile {A : Type} (p : A -> bool) (l : list A) : list A :=
  match l with
  | [] => []
  | x :: rest => if p x then dropWhile p rest else l
  end.

Definition trimStart (s : jsstring) : jsstring := dropWhile isWhiteSpace s.

Definition trimEnd (s : jsstring) : jsstring := rev (dropWhile isWhiteSpace (rev s)).

Definition trim (s : jsstring) : jsstring := trimEnd (trimStart s).

(** [s.replace(/[...]/g, '')]: every match of the class is deleted. *)
Definition stripControl (s : jsstring) : jsstring :=
  List.filter (fun c => negb (isControl c)) s.

(** [s.length] *)
Definition len (s : jsstring) : Z := Z.of_nat (length s).

Definition eqb (a b : jsstring) : bool := bool_decide (a = b).

(** [arr.includes(x)] on an array of strings. *)
Definition includes (arr : list jsstring) (x : jsstring) : bool :=
  existsb (eqb x) arr.

(** *** Text held as UTF-8

    [String.prototype.slice] and [length] count UTF-16 code units. In UTF-8 a
    character of one, two or three bytes is one code unit; a character of
    four bytes lies outside the Basic Multilingual Plane and is a surrogate
    pair, two code units. *)

(** A byte [10xxxxxx], which continues the character begun before it. *)
Definition isContinuation (b : N) : bool := ((128 <=? b) && (b <? 192))%N.

(** The code units of the character whose first byte is [b]. *)
Definition unitsOf (b : N) : nat := if (240 <=? b)%N then 2%nat else 1%nat.

(** [s.length] of text given by its bytes. *)
Fixpoint length16 (bytes : list N) : nat :=
  match bytes with
  | [] => 0%nat
  | b :: rest => ((if isContinuation b then 0 else unitsOf b) + length16 rest)%nat
  end.

(** The high surrogate of the character that the four bytes [b0 b1 b2 _]
    encode: [0xD800 + ((cp - 0x10000) >> 10)], where [top = cp >> 10] needs
    the payload bits of the first three bytes only. UTF-8 proper has no form
    for half a pair; it is written in the three-byte form of its value. *)
Definition highSurrogate (b0 b1 b2 : N) : list N :=
  let top := ((b0 mod 8) * 256 + (b1 mod 64) * 4 + (b2 mod 64) / 16)%N in
  let high := (55296 + (top - 64))%N in
  [237; 128 + (high / 64) mod 64; 128 + high mod 64]%N.

(** The bytes of the first [n] code units. A continuation byte belongs to
    the character being copied; a first byte starts a character, which is
    copied if its code units still fit. When one code unit is left and the
    next character is a pair, the cut falls inside the pair and its first
    half alone is kept, as [slice] does. *)
Fixpoint sliceBytes (n : nat) (bytes : list N) : list N :=
  match bytes with
  | [] => []
  | b :: rest =>
      if isContinuation b then b :: sliceBytes n rest
      else if (unitsOf b <=? n)%nat then b :: sliceBytes (n - unitsOf b) rest
      else
        match n, rest with
        | 1%nat, b1 :: b2 :: _ => highSurrogate b b1 b2
        | _, _ => []
        end
  end.

(** [s.slice(0, n)] *)
Definition slice (n : nat) (s : string) : string := text (sliceBytes n (lit s)).

(** The property names that every object literal inherits from
    [Object.prototype] (ECMAScript 20.1.3 and B.2.2). Read through an object
    that has no own property of the name, each yields a function, and
    [__proto__] yields [Object.prototype] itself: a truthy value with none of
    the properties of the table's entries. *)
Definition Object_prototype : list string :=
  ["constructor"; "__defineGetter__"; "__defineSetter__"; "hasOwnProperty";
   "__lookupGetter__"; "__lookupSetter__"; "isPrototypeOf"; "propertyIsEnumerable";
   "toString"; "valueOf"; "__proto__"; "toLocaleString"].

Definition inherited (name : string) : bool :=
  existsb (String.eqb name) Object_prototype.

End Js.

Import Js.

(** The parts of the JavaScript runtime the sources call and this development
    does not define: Unicode upper-casing, [parseInt(String(x), 10)] ([None]
    is [NaN]), the JSON parser ([JSON_parse] returns the message of the
    [SyntaxError] on the left), and, per tool, the construction of the reply
    object from the decoded response with its [JSON.stringify] ([reply] throws
    the [TypeError] of a property access on an unexpected shape). *)
Class Runtime : Type := {
  toUpperCase : jsstring -> jsstring;
  parseIntOfString : jsval -> option Z;
  json : Type;
  JSON_parse : string -> string + json;
  reply : string -> option json -> throws string
}.

(** ** The validator (security/validator.ts, here src/unnamed/part_004) *)

Module Validator.

Definition MAX_CONTENT_LENGTH : Z := 50000.
Definition MAX_QUERY_LENGTH : Z := 2000.
Definition MAX_TAG_LENGTH : Z := 100.
Definition MAX_TAGS : Z := 20.
Definition VALID_LAYERS : list jsstring :=
  [lit "SESSION"; lit "SEMANTIC"; lit "CORE"; lit "META"].
Definition VALID_IMPORTANCE : list jsstring :=
  [lit "LOW"; lit "MEDIUM"; lit "HIGH"; lit "CRITICAL"].

(** [/^[a-zA-Z0-9_-]{1,128}$/] *)
Definition isIdChar (c : N) : bool :=
  (((97 <=? c) && (c <=? 122)) || ((65 <=? c) && (c <=? 90))
   || ((48 <=? c) && (c <=? 57)) || (c =? 95) || (c =? 45))%N.

Definition ID_PATTERN_test (s : jsstring) : bool :=
  forallb isIdChar s && (1 <=? len s) && (len s <=? 128).

(** Strip control characters (keep newlines, tabs). *)
Definition sanitizeString (s : jsstring) : jsstring :=
  trim (stripControl s).

Definition validateContent (content : jsval) : throws jsstring :=
  match content with
  | JString s =>
      if len (trim s) =? 0 then inl (Error "content must be a non-empty string")
      else
        let cleaned := sanitizeString s in
        if len cleaned >? MAX_CONTENT_LENGTH then
          inl (Error ("content exceeds maximum length of "
                      +:+ pretty MAX_CONTENT_LENGTH +:+ " characters"))
        else inr cleaned
  | _ => inl (Error "content must be a non-empty string")
  end.

Definition validateQuery (query : jsval) : throws jsstring :=
  match query with
  | JString s =>
      if len (trim s) =? 0 then inl (Error "query must be a non-empty string")
      else
        let cleaned := sanitizeString s in
        if len cleaned >? MAX_QUERY_LENGTH then
          inl (Error ("query exceeds maximum length of "
                      +:+ pretty MAX_QUERY_LENGTH +:+ " characters"))
        else inr cleaned
  | _ => inl (Error "query must be a non-empty string")
  end.

Definition validateId (id : jsval) : throws jsstring :=
  match id with
  | JString s =>
      if ID_PATTERN_test s then inr s
      else inl (Error "Invalid ID format. Must be 1-128 alphanumeric characters, hyphens, or underscores.")
  | _ => inl (Error "Invalid ID format. Must be 1-128 alphanumeric characters, hyphens, or underscores.")
  end.

Definition join (sep : string) (l : list jsstring) : string :=
  String.concat sep (List.map text l).

Definition validateLayer {rt : Runtime} (layer : jsval) : throws (option jsstring) :=
  match layer with
  | JUndefined | JNull => inr None
  | JString s =>
      let upper := toUpperCase s in
      if negb (includes VALID_LAYERS upper) then
        inl (Error ("Invalid layer. Must be one of: " +:+ join ", " VALID_LAYERS))
      else inr (Some upper)
  | _ => inl (Error "layer must be a string")
  end.

Definition validateLayers {rt : Runtime} (layers : jsval) : throws (option (list jsstring)) :=
  match layers with
  | JUndefined | JNull => inr None
  | JArray items =>
      bindE (mapE (fun l =>
                     bindE (validateLayer l) (fun v =>
                       match v with
                       | Some u => if len u =? 0 then inl (Error "Invalid layer in array") else inr u
                       | None => inl (Error "Invalid layer in array")
                       end)) items)
            (fun vs => inr (Some vs))
  | _ => inl (Error "layers must be an array")
  end.

Definition validateImportance {rt : Runtime} (importance : jsval) : throws (option jsstring) :=
  match importance with
  | JUndefined | JNull => inr None
  | JString s =>
      let upper := toUpperCase s in
      if negb (includes VALID_IMPORTANCE upper) then
        inl (Error ("Invalid importance. Must be one of: " +:+ join ", " VALID_IMPORTANCE))
      else inr (Some upper)
  | _ => inl (Error "importance must be a string")
  end.

Definition validateTag (t : jsval) : throws jsstring :=
  match t with
  | JString s =>
      let cleaned := sanitizeString s in
      if len cleaned >? MAX_TAG_LENGTH then
        inl (Error ("Tag exceeds " +:+ pretty MAX_TAG_LENGTH +:+ " characters"))
      else if len cleaned =? 0 then inl (Error "Empty tags not allowed")
      else inr cleaned
  | _ => inl (Error "Each tag must be a string")
  end.

Definition validateTags (tags : jsval) : throws (option (list jsstring)) :=
  match tags with
  | JUndefined | JNull => inr None
  | JArray items =>
      if Z.of_nat (length items) >? MAX_TAGS then
        inl (Error ("Maximum " +:+ pretty MAX_TAGS +:+ " tags allowed"))
      else bindE (mapE validateTag items) (fun vs => inr (Some vs))
  | _ => inl (Error "tags must be an array")
  end.

(** [typeof x === 'number' ? x : parseInt(String(x), 10)], [None] for [NaN]. *)
Definition toNumber {rt : Runtime} (x : jsval) : option Q :=
  match x with
  | JNumber n => Some n
  | _ => inject_Z <$> parseIntOfString x
  end.

Definition validateLimit {rt : Runtime} (limit : jsval) : Q :=
  match limit with
  | JUndefined | JNull => 10
  | _ =>
      match toNumber limit with
      | None => 10
      | Some n => if negb (Qle_bool 1 n) then 10 else Qmin n 50
      end
  end%Q.

Definition validateMaxTokens {rt : Runtime} (maxTokens : jsval) : Q :=
  match maxTokens with
  | JUndefined | JNull => 4000
  | _ =>
      match toNumber maxTokens with
      | None => 4000
      | Some n => if negb (Qle_bool 100 n) then 4000 else Qmin n 32000
      end
  end%Q.

End Validator.

Import Validator.

(** ** The sliding-window rate limiter (security/rate-limiter.ts, here
    src/unnamed/part_003) *)

Module RateLimiter.

Record RateLimit : Type := { maxRequests : Z; windowMs : Z }.

(** The own properties of the object literal. [RATE_LIMITS[operation]] reads
    an own property when there is one; for the other names see
    [checkRateLimit]. *)
Definition RATE_LIMITS : gmap string RateLimit :=
  list_to_map [
    ("remember", {| maxRequests := 30; windowMs := 60000 |});
    ("recall", {| maxRequests := 60; windowMs := 60000 |});
    ("search", {| maxRequests := 60; windowMs := 60000 |});
    ("forget", {| maxRequests := 10; windowMs := 60000 |});
    ("context", {| maxRequests := 20; windowMs := 60000 |});
    ("health", {| maxRequests := 60; windowMs := 60000 |});
    ("observe", {| maxRequests := 30; windowMs := 60000 |})
  ].

(** The module-level [windows] map: operation key to recorded timestamps. *)
Abbreviation Windows := (gmap string (list Z)).

(** [Math.ceil(x / d)] on integers, for a positive [d]. *)
Definition ceilDiv (x d : Z) : Z := - ((- x) / d).

(** The entries that survive [timestamps.filter(t => now - t < limit.windowMs)]. *)
Definition retained (limit : RateLimit) (now : Z) (timestamps : list Z) : list Z :=
  List.filter (fun t => now - t <? windowMs limit) timestamps.

(** [Math.ceil(retryAfterMs / 1000)] with
    [retryAfterMs = limit.windowMs - (now - oldestValid)]. *)
Definition retryAfterSeconds (limit : RateLimit) (now oldestValid : Z) : Z :=
  let retryAfterMs := windowMs limit - (now - oldestValid) in
  ceilDiv retryAfterMs 1000.

(** The message of the thrown [Error]. [retryAfter] is the printed value of the
    last template hole; the window widths of the table are whole seconds, so
    [limit.windowMs / 1000] prints as an integer. *)
Definition rateLimitMessage (operation : string) (limit : RateLimit) (retryAfter : string) : string :=
  "Rate limit exceeded for " +:+ operation +:+ ". Max " +:+ pretty (maxRequests limit)
  +:+ " requests per " +:+ pretty (windowMs limit / 1000) +:+ "s. Retry after "
  +:+ retryAfter +:+ "s.".

(** [checkRateLimit(operation)] at clock reading [now]. Returns the outcome
    and the [windows] map as the call leaves it. [timestamps[0]] of an empty
    array is [undefined], which the arithmetic turns into [NaN].

    [RATE_LIMITS] is a plain object, so for a name it inherits from
    [Object.prototype] the value of [limit] is truthy and the guard
    [if (!limit) return] lets the call through; [limit.windowMs] and
    [limit.maxRequests] are then [undefined]. Every comparison with
    [undefined] is false: the filter keeps no timestamp, the length test
    does not throw, and the call stores the one timestamp [now]. For any
    other name [limit] is [undefined] and the call returns at the guard. *)
Definition checkRateLimit (operation : string) (now : Z) (windows : Windows)
  : throws unit * Windows :=
  match RATE_LIMITS !! operation with
  | None =>
      if inherited operation then (inr tt, <[operation := [now]]> windows)
      else (inr tt, windows)
  | Some limit =>
      let key := operation in
      let timestamps := default [] (windows !! key) in
      let timestamps := retained limit now timestamps in
      if Z.of_nat (length timestamps) >=? maxRequests limit then
        let retryAfter :=
          match head timestamps with
          | Some oldestValid => pretty (retryAfterSeconds limit now oldestValid)
          | None => "NaN"
          end in
        (inl (Error (rateLimitMessage operation limit retryAfter)), windows)
      else
        let timestamps := timestamps ++ [now] in
        (inr tt, <[key := timestamps]> windows)
  end.

(** Reset all rate limit windows (for testing). *)
Definition resetRateLimits (windows : Windows) : Windows := ∅.

(** A sequence of calls, each with the clock reading it observes, threaded
    through the [windows] map; the result lists the calls that did not throw. *)
Fixpoint admitted (calls : list (string * Z)) (windows : Windows) : list (string * Z) :=
  match calls with
  | [] => []
  | (operation, now) :: rest =>
      match checkRateLimit operation now windows with
      | (inr _, windows') => (operation, now) :: admitted rest windows'
      | (inl _, windows') => admitted rest windows'
      end
  end.

(** The [windows] map after a sequence of calls. *)
Fixpoint windowsAfter (calls : list (string * Z)) (windows : Windows) : Windows :=
  match calls with
  | [] => windows
  | (operation, now) :: rest => windowsAfter rest (snd (checkRateLimit operation now windows))
  end.

(** The timestamps of the admitted calls of one operation. *)
Definition timestampsOf (operation : string) (calls : list (string * Z)) : list Z :=
  List.map snd (List.filter (fun c => String.eqb (fst c) operation) calls).

(** How many of the timestamps lie in the window [[from, from + width)]. *)
Definition countIn (from width : Z) (timestamps : list Z) : Z :=
  Z.of_nat (length (List.filter (fun t => (from <=? t) && (t <? from + width)) timestamps)).

(** The clock readings of consecutive calls never decrease. *)
Fixpoint nondecreasing (last : Z) (calls : list (string * Z)) : bool :=
  match calls with
  | [] => true
  | (_, now) :: rest => (last <=? now) && nondecreasing now rest
  end.

(** The window stored for [operation]. *)
Definition stored (operation : string) (windows : Windows) : list Z :=
  default [] (windows !! operation).

(** The invariant of the limiter under a clock that does not step back: what
    it keeps for [operation] agrees, from the time [last] of the latest call
    on, with the full [history] of admitted timestamps once both are pruned,
    and that history respects the budget in every window. *)
Definition agrees (operation : string) (limit : RateLimit) (last : Z) (windows : Windows)
  (history : list Z) : Prop :=
  (forall now, last <= now ->
     retained limit now (stored operation windows) = retained limit now history)
  /\ (forall from, countIn from (windowMs limit) history <= maxRequests limit).

End RateLimiter.

Import RateLimiter.

(** ** The HTTP client (src/src/engram-api.ts) *)

Module Api.

(** What reading the body of a response ([resp.text()]) yields. *)
Inductive BodyRead : Type :=
| BodyText (text : string)
| BodyAborted
| BodyFailed (message : string).

Record Response : Type := {
  status : Z;
  statusText : string;
  retryAfterHeader : option string;
  body : BodyRead
}.

(** What one [fetch] call yields: an HTTP response, a rejection with an
    [AbortError] (the timer of [timeoutMs] fired), or any other rejection
    (connection refused, DNS failure, ...) with its message. *)
Inductive FetchResult : Type :=
| Responded (resp : Response)
| Aborted
| Failed (message : string).

(** The transport as one logical request sees it: the result of its [i]-th
    [fetch] and the reading of [new Date().toISOString()] once that response
    has arrived. *)
Record Network : Type := {
  fetch : nat -> FetchResult;
  toISOString : nat -> string
}.

Record Config : Type := {
  baseUrl : string;
  apiKey : string;
  userId : string;
  timeoutMs : Z;
  maxRetries : Z
}.

(** The effects of a request that the properties observe. *)
Inductive event : Type :=
| EvFetch (method url : string)
| EvSleep (ms : Z).

(** An exception raised inside the [try] block that is not an [EngramError]. *)
Inductive caught : Type :=
| AbortError
| OtherError (message : string).

(** [resp.ok] *)
Definition ok (resp : Response) : bool := (200 <=? status resp) && (status resp <=? 299).

(** JavaScript truthiness of a string. *)
Definition truthy (s : string) : bool := negb (String.eqb s "").

Definition rateLimitedByBackend (retryAfter : option string) : string :=
  "Rate limited by Engram backend"
  +:+ match retryAfter with
      | Some r => if truthy r then ". Retry after " +:+ r +:+ "s" else ""
      | None => ""
      end.

Definition apiErrorMessage (resp : Response) (errBody : string) : string :=
  "Engram API error: " +:+ pretty (status resp) +:+ " " +:+ statusText resp
  +:+ (if truthy errBody then " — " +:+ slice 200 errBody else "").

(** [text ? JSON.parse(text) : undefined]; the message of the [SyntaxError]
    on the left. *)
Definition decoded {rt : Runtime} (text : string) : string + option json :=
  if truthy text then
    match JSON_parse text with
    | inr v => inr (Some v)
    | inl syntaxError => inl syntaxError
    end
  else inr None.

(** [request(method, path, body, retries)], with [this.lastHealthy] passed in
    and out. [attempt] numbers the [fetch] calls of the logical request. One
    unit of [fuel] is used per call of [request]; [None] is an exhausted
    fuel, never a result of the program. *)
Fixpoint request_fuel {rt : Runtime} (fuel : nat) (cfg : Config) (net : Network) (attempt : nat)
  (method path : string) (retries : Z) (lastHealthy : option string)
  : option (throws (option json) * option string * list event) :=
  match fuel with
  | O => None
  | S fuel' =>
      let url := baseUrl cfg +:+ path in
      let sent := EvFetch method url in
      let catch (err : caught) (lastHealthy : option string) :=
        match err with
        | AbortError =>
            if 0 <? retries then
              match request_fuel fuel' cfg net (S attempt) method path (retries - 1) lastHealthy with
              | Some (r, lh, evs) => Some (r, lh, sent :: evs)
              | None => None
              end
            else Some (inl (EngramError "Request timed out" 0 true), lastHealthy, [sent])
        | OtherError message =>
            Some (inl (EngramError ("Cannot reach Engram backend: " +:+ message) 0 true),
                  lastHealthy, [sent])
        end in
      match fetch net attempt with
      | Responded resp =>
          if ok resp then
            let lastHealthy := Some (toISOString net attempt) in
            match body resp with
            | BodyText text =>
                match decoded text with
                | inr v => Some (inr v, lastHealthy, [sent])
                | inl syntaxError => catch (OtherError syntaxError) lastHealthy
                end
            | BodyAborted => catch AbortError lastHealthy
            | BodyFailed message => catch (OtherError message) lastHealthy
            end
          else if (status resp =? 401) || (status resp =? 403) then
            Some (inl (EngramError "API key invalid or expired" (status resp) false),
                  lastHealthy, [sent])
          else if status resp =? 404 then
            Some (inl (EngramError "Resource not found" 404 false), lastHealthy, [sent])
          else if status resp =? 429 then
            Some (inl (EngramError (rateLimitedByBackend (retryAfterHeader resp)) 429 false),
                  lastHealthy, [sent])
          else if (status resp >=? 500) && (0 <? retries) then
            match request_fuel fuel' cfg net (S attempt) method path (retries - 1) lastHealthy with
            | Some (r, lh, evs) => Some (r, lh, sent :: EvSleep 1000 :: evs)
            | None => None
            end
          else
            let errBody := match body resp with BodyText t => t | _ => "" end in
            Some (inl (EngramError (apiErrorMessage resp errBody) (status resp) false),
                  lastHealthy, [sent])
      | Aborted => catch AbortError lastHealthy
      | Failed message => catch (OtherError message) lastHealthy
      end
  end.

(** A call with the default [retries = this.maxRetries]. *)
Definition request {rt : Runtime} (cfg : Config) (net : Network) (method path : string)
  (lastHealthy : option string) :=
  request_fuel (S (Z.to_nat (maxRetries cfg))) cfg net 0 method path (maxRetries cfg) lastHealthy.

(** The failures after which [request] calls itself again, retries permitting:
    a 5xx-class status, or an [AbortError] from [fetch] or from reading the
    body of a 2xx response. *)
Definition transient (r : FetchResult) : bool :=
  match r with
  | Responded resp =>
      if ok resp then match body resp with BodyAborted => true | _ => false end
      else status resp >=? 500
  | Aborted => true
  | Failed _ => false
  end.

(** The number of [fetch] calls among the events. *)
Definition attempts (evs : list event) : Z :=
  Z.of_nat (length (List.filter (fun e => match e with EvFetch _ _ => true | _ => false end) evs)).

End Api.

Import Api.

(** ** The tool handlers (index.ts, here src/unnamed/part_001) *)

Module Server.

(** The module state a handler touches: the limiter's [windows] and the
    client's [lastHealthy]. *)
Record State : Type := {
  windows : Windows;
  lastHealthy : option string
}.

(** What one invocation observes of its environment. *)
Record Env : Type := {
  config : Config;
  now : Z;
  net : Network
}.

Record ToolResult : Type := {
  text : string;
  isError : bool
}.

(** A handler body: reads the environment, threads the state, may throw, and
    emits the events of its network activity. *)
Definition M (A : Type) : Type :=
  Env -> State -> option (throws A * State * list event).

Definition ret {A : Type} (a : A) : M A :=
  fun _ st => Some (inr a, st, []).

Definition bind {A B : Type} (k : A -> M B) (m : M A) : M B :=
  fun env st =>
    match m env st with
    | None => None
    | Some (inl e, st', evs) => Some (inl e, st', evs)
    | Some (inr a, st', evs) =>
        match k a env st' with
        | None => None
        | Some (r, st'', evs') => Some (r, st'', evs ++ evs')
        end
    end.

#[global] Instance M_ret : MRet M := @ret.
#[global] Instance M_bind : MBind M := @bind.

(** A validator call. *)
Definition pure {A : Type} (x : throws A) : M A :=
  fun _ st => Some (x, st, []).

(** [checkRateLimit(operation)] on the module's [windows]. *)
Definition rateLimit (operation : string) : M unit :=
  fun env st =>
    let '(r, w) := checkRateLimit operation (now env) (windows st) in
    Some (r, {| windows := w; lastHealthy := lastHealthy st |}, []).

(** [api.request(method, path, body)] on the client's [lastHealthy]. *)
Definition apiRequest {rt : Runtime} (method path : string) : M (option json) :=
  fun env st =>
    match request (config env) (net env) method path (lastHealthy st) with
    | None => None
    | Some (r, lh, evs) => Some (r, {| windows := windows st; lastHealthy := lh |}, evs)
    end.

(** [hay.includes(needle)] on message text. *)
Definition mentions (needle hay : string) : bool :=
  match String.index 0 needle hay with
  | Some _ => true
  | None => false
  end.

Definition success (data : string) : ToolResult :=
  {| text := data; isError := false |}.

Definition error (msg : string) : ToolResult :=
  {| text := msg; isError := true |}.

(** The degraded-mode message of [handleError]; [lastSeen ? ... : ''] tests
    the truthiness of a [string | null]. *)
Definition offlineText (operation : string) (lastSeen : option string) : string :=
  "Memory " +:+ operation +:+ " unavailable — cannot reach Engram backend."
  +:+ match lastSeen with
      | Some seen => if truthy seen then " Last seen: " +:+ seen else ""
      | None => ""
      end.

(** [handleError(err, operation)]; [lastSeen] is [api.getLastHealthy()].
    Everything the modelled code throws is an [Error], so the last line of
    the source ([Unexpected error during ...]) has no counterpart here. *)
Definition handleError (err : exn) (operation : string) (lastSeen : option string) : ToolResult :=
  match err with
  | EngramError message _ offline =>
      if offline then error (offlineText operation lastSeen)
      else error message
  | Error message =>
      if String.prefix "Rate limit" message then error message
      else error ("Validation error: " +:+ message)
  end.

(** [try { body } catch (err) { return handleError(err, operation) }] *)
Definition handled (body : M ToolResult) (operation : string)
  : Env -> State -> option (ToolResult * State * list event) :=
  fun env st =>
    match body env st with
    | None => None
    | Some (inr r, st', evs) => Some (r, st', evs)
    | Some (inl e, st', evs) => Some (handleError e operation (lastHealthy st'), st', evs)
    end.

(** The arguments object of a tool call; a missing property is [undefined]. *)
Abbreviation Args := (gmap string jsval).

Definition prop (args : Args) (name : string) : jsval :=
  default JUndefined (args !! name).

Definition engram_remember {rt : Runtime} (args : Args) :=
  handled (
    rateLimit "remember";;
    content ← pure (validateContent (prop args "content"));
    layer ← pure (validateLayer (prop args "layer"));
    tags ← pure (validateTags (prop args "tags"));
    result ← apiRequest "POST" "/v1/memories";
    data ← pure (reply "engram_remember" result);
    mret (success data)
  ) "storage".

Definition engram_recall {rt : Runtime} (args : Args) :=
  handled (
    rateLimit "recall";;
    query ← pure (validateQuery (prop args "query"));
    layers ← pure (validateLayers (prop args "layers"));
    limit ← mret (validateLimit (prop args "limit"));
    tags ← pure (validateTags (prop args "tags"));
    results ← apiRequest "POST" "/v1/memories/query";
    data ← pure (reply "engram_recall" results);
    mret (success data)
  ) "recall".

Definition engram_search {rt : Runtime} (args : Args) :=
  handled (
    rateLimit "search";;
    query ← pure (validateQuery (prop args "query"));
    results ← apiRequest "POST" "/v1/hierarchy/search";
    data ← pure (reply "engram_search" results);
    mret (success data)
  ) "search".

(** [JSON.stringify({ deleted: true, memoryId: id }, null, 2)]; the validated
    id holds only characters that neither JSON nor [encodeURIComponent]
    escapes. *)
Definition forgetReply (id : jsstring) : string :=
  let q := String (Ascii.ascii_of_N 34) EmptyString in
  let nl := String (Ascii.ascii_of_N 10) EmptyString in
  "{" +:+ nl +:+ "  " +:+ q +:+ "deleted" +:+ q +:+ ": true," +:+ nl
  +:+ "  " +:+ q +:+ "memoryId" +:+ q +:+ ": " +:+ q +:+ Js.text id +:+ q +:+ nl +:+ "}".

Definition engram_forget {rt : Runtime} (args : Args) :=
  handled (
    rateLimit "forget";;
    id ← pure (validateId (prop args "memoryId"));
    apiRequest "DELETE" ("/v1/memories/" +:+ Js.text id);;
    mret (success (forgetReply id))
  ) "deletion".

Definition engram_context {rt : Runtime} (args : Args) :=
  handled (
    rateLimit "context";;
    maxTokens ← mret (validateMaxTokens (prop args "maxTokens"));
    result ← apiRequest "POST" "/v1/context";
    data ← pure (reply "engram_context" result);
    mret (success data)
  ) "context generation".

Definition engram_observe {rt : Runtime} (args : Args) :=
  handled (
    rateLimit "observe";;
    content ← pure (validateContent (prop args "content"));
    result ← apiRequest "POST" "/v1/auto/observe";
    data ← pure (reply "engram_observe" result);
    mret (success data)
  ) "observation".

(** The six tools: name, rate-limit key and label passed to [handleError]. *)
Inductive tool : Type :=
| Remember | Recall | Search | Forget | Context | Observe.

Definition handler {rt : Runtime} (t : tool) (args : Args) :=
  match t with
  | Remember => engram_remember args
  | Recall => engram_recall args
  | Search => engram_search args
  | Forget => engram_forget args
  | Context => engram_context args
  | Observe => engram_observe args
  end.

Definition operationKey (t : tool) : string :=
  match t with
  | Remember => "remember"
  | Recall => "recall"
  | Search => "search"
  | Forget => "forget"
  | Context => "context"
  | Observe => "observe"
  end.

Definition label (t : tool) : string :=
  match t with
  | Remember => "storage"
  | Recall => "recall"
  | Search => "search"
  | Forget => "deletion"
  | Context => "context generation"
  | Observe => "observation"
  end.

(** The validation phase of each handler, in the order of the source. *)
Definition validation {rt : Runtime} (t : tool) (args : Args) : throws unit :=
  match t with
  | Remember =>
      bindE (validateContent (prop args "content")) (fun _ =>
      bindE (validateLayer (prop args "layer")) (fun _ =>
      bindE (validateTags (prop args "tags")) (fun _ => inr tt)))
  | Recall =>
      bindE (validateQuery (prop args "query")) (fun _ =>
      bindE (validateLayers (prop args "layers")) (fun _ =>
      bindE (validateTags (prop args "tags")) (fun _ => inr tt)))
  | Search => bindE (validateQuery (prop args "query")) (fun _ => inr tt)
  | Forget => bindE (validateId (prop args "memoryId")) (fun _ => inr tt)
  | Context => inr tt
  | Observe => bindE (validateContent (prop args "content")) (fun _ => inr tt)
  end.

(** The request each handler sends once validation has passed. *)
Definition route (t : tool) (args : Args) : string * string :=
  match t with
  | Remember => ("POST", "/v1/memories")
  | Recall => ("POST", "/v1/memories/query")
  | Search => ("POST", "/v1/hierarchy/search")
  | Forget =>
      ("DELETE",
       "/v1/memories/" +:+ match prop args "memoryId" with
                           | JString id => Js.text id
                           | _ => ""
                           end)
  | Context => ("POST", "/v1/context")
  | Observe => ("POST", "/v1/auto/observe")
  end.

(** The reply each handler builds from the decoded response. *)
Definition finish {rt : Runtime} (t : tool) (args : Args) (result : option json)
  : throws string :=
  match t with
  | Remember => reply "engram_remember" result
  | Recall => reply "engram_recall" result
  | Search => reply "engram_search" result
  | Forget =>
      inr (forgetReply match prop args "memoryId" with
                       | JString id => id
                       | _ => []
                       end)
  | Context => reply "engram_context" result
  | Observe => reply "engram_observe" result
  end.

(** The stages the six handlers have in common, in the order in which the
    source runs them: rate limit, validation, request, reply, with
    [handleError] on whichever throws first. [handler_staged] below proves
    every handler equal to it. *)
Definition staged {rt : Runtime} (t : tool) (args : Args) (env : Env) (st : State)
  : option (ToolResult * State * list event) :=
  let '(limited, w) := checkRateLimit (operationKey t) (now env) (windows st) in
  let st1 := {| windows := w; lastHealthy := lastHealthy st |} in
  match limited with
  | inl e => Some (handleError e (label t) (lastHealthy st), st1, [])
  | inr _ =>
      match validation t args with
      | inl e => Some (handleError e (label t) (lastHealthy st), st1, [])
      | inr _ =>
          match request (config env) (net env) (route t args).1 (route t args).2
                  (lastHealthy st) with
          | None => None
          | Some (inl e, lh, evs) =>
              Some (handleError e (label t) lh, {| windows := w; lastHealthy := lh |}, evs)
          | Some (inr v, lh, evs) =>
              Some (match finish t args v with
                    | inl e => handleError e (label t) lh
                    | inr data => success data
                    end, {| windows := w; lastHealthy := lh |}, evs)
          end
      end
  end.

End Server.

Import Server.

(** A runtime for examples: ASCII upper-casing, no integer parsing, a JSON
    value is its text, and the reply is the text of the decoded value. *)
Module Demo.

Definition upperAscii (c : N) : N :=
  if ((97 <=? c) && (c <=? 122))%N then (c - 32)%N else c.

#[local] Instance runtime : Runtime := {|
  toUpperCase := List.map upperAscii;
  parseIntOfString := fun _ => None;
  json := string;
  JSON_parse := fun s => inr s;
  reply := fun _ r => inr (default "undefined" r)
|}.

Definition cfg : Config :=
  {| baseUrl := "http://localhost:3001"; apiKey := "k"; userId := "u";
     timeoutMs := 10000; maxRetries := 2 |}.

Definition respond (st : Z) (b : string) : FetchResult :=
  Responded {| status := st; statusText := "";
               retryAfterHeader := None; body := BodyText b |}.

(** A transport scripted by a list of results; past its end every [fetch]
    is a connection failure. *)
Definition scripted (l : list FetchResult) : Network :=
  {| fetch := fun i => nth i l (Failed "ECONNREFUSED");
     toISOString := fun i => "2026-01-01T00:00:0" +:+ pretty i +:+ ".000Z" |}.

Definition fresh : State := {| windows := ∅; lastHealthy := None |}.

(** A transport on which every [fetch] times out. *)
Definition aborting : Network :=
  {| fetch := fun _ => Aborted; toISOString := fun _ => "2026-01-01T00:00:00.000Z" |}.

Definition env (n : Network) : Env := {| config := cfg; now := 5; net := n |}.

Definition forgetArgs (id : string) : Args := {[ "memoryId" := JString (lit id) ]}.

(** The state after an earlier successful call. *)
Definition seen : State :=
  {| windows := ∅; lastHealthy := Some "2026-01-01T00:00:00.000Z" |}.

(** The [windows] map once a [forget] call at time 5 has been admitted. *)
Definition recorded : Windows := <["forget" := [5]]> ∅.

(** The reply of a handler run, without the state and the events. *)
Definition resultOf (run : option (ToolResult * State * list event)) : option ToolResult :=
  (fun x => fst (fst x)) <$> run.

(** The [windows] map a handler run leaves. *)
Definition windowsOf (run : option (ToolResult * State * list event)) : option Windows :=
  (fun x => windows (snd (fst x))) <$> run.

End Demo.


(** ** The client's methods and the resources and prompt of the server *)

Module Client.

(** How many waits the events hold, and how long they last together. *)
Definition sleeps (evs : list event) : Z :=
  Z.of_nat (length (List.filter (fun e => match e with EvSleep _ => true | _ => false end) evs)).

Fixpoint waited (evs : list event) : Z :=
  match evs with
  | [] => 0
  | EvSleep ms :: rest => ms + waited rest
  | EvFetch _ _ :: rest => waited rest
  end.

(** What one attempt of [request] leads to: the request is settled with a
    result, or it calls itself again, after a one-second wait or at once. *)
Inductive step {rt : Runtime} : Type :=
| Done (r : throws (option json)) (lastHealthy : option string)
| Again (wait : bool) (lastHealthy : option string).

(** One pass through the body of [request], up to the recursive call: [res]
    is what [fetch] yielded and [iso] the reading of the clock on a 2xx
    response. [request_fuel_unfold] below proves that [request] is this pass,
    repeated. *)
Definition attemptOnce {rt : Runtime} (res : FetchResult) (iso : string) (retries : Z)
  (lastHealthy : option string) : step :=
  let catch (err : caught) (lastHealthy : option string) :=
    match err with
    | AbortError =>
        if 0 <? retries then Again false lastHealthy
        else Done (inl (EngramError "Request timed out" 0 true)) lastHealthy
    | OtherError message =>
        Done (inl (EngramError ("Cannot reach Engram backend: " +:+ message) 0 true))
             lastHealthy
    end in
  match res with
  | Responded resp =>
      if ok resp then
        let lastHealthy := Some iso in
        match body resp with
        | BodyText text =>
            match decoded text with
            | inr v => Done (inr v) lastHealthy
            | inl syntaxError => catch (OtherError syntaxError) lastHealthy
            end
        | BodyAborted => catch AbortError lastHealthy
        | BodyFailed message => catch (OtherError message) lastHealthy
        end
      else if (status resp =? 401) || (status resp =? 403) then
        Done (inl (EngramError "API key invalid or expired" (status resp) false)) lastHealthy
      else if status resp =? 404 then
        Done (inl (EngramError "Resource not found" 404 false)) lastHealthy
      else if status resp =? 429 then
        Done (inl (EngramError (rateLimitedByBackend (retryAfterHeader resp)) 429 false))
             lastHealthy
      else if (status resp >=? 500) && (0 <? retries) then Again true lastHealthy
      else
        let errBody := match body resp with BodyText t => t | _ => "" end in
        Done (inl (EngramError (apiErrorMessage resp errBody) (status resp) false)) lastHealthy
  | Aborted => catch AbortError lastHealthy
  | Failed message => catch (OtherError message) lastHealthy
  end.

(** The characters [encodeURIComponent] leaves as they are: letters, digits
    and [- _ . ! ~ * ' ( )]. *)
Definition uriUnreserved (c : N) : bool :=
  (((97 <=? c) && (c <=? 122)) || ((65 <=? c) && (c <=? 90)) || ((48 <=? c) && (c <=? 57))
   || (c =? 45) || (c =? 95) || (c =? 46) || (c =? 33) || (c =? 126) || (c =? 42)
   || (c =? 39) || (c =? 40) || (c =? 41))%N.

(** An upper-case hexadecimal digit. *)
Definition hexDigit (d : N) : N := (if d <? 10 then 48 + d else 55 + d)%N.

(** [%XX] for one octet. *)
Definition percent (octet : N) : jsstring :=
  [37%N; hexDigit (octet / 16); hexDigit (octet mod 16)].

(** The UTF-8 octets of a code point. *)
Definition utf8 (cp : N) : list N :=
  (if cp <? 128 then [cp]
   else if cp <? 2048 then [192 + cp / 64; 128 + cp mod 64]
   else if cp <? 65536 then [224 + cp / 4096; 128 + (cp / 64) mod 64; 128 + cp mod 64]
   else [240 + cp / 262144; 128 + (cp / 4096) mod 64; 128 + (cp / 64) mod 64;
         128 + cp mod 64])%N.

Definition escaped (cp : N) : jsstring := flat_map percent (utf8 cp).

(** The [URIError] of a surrogate without its partner (message as V8 words it). *)
Definition URIError : exn := Error "URI malformed".

(** [encodeURIComponent(s)]: unreserved code units are copied, every other
    code point is replaced by the escapes of its UTF-8 octets, and a lone
    surrogate throws. *)
Fixpoint encodeURIComponent (s : jsstring) : throws jsstring :=
  match s with
  | [] => inr []
  | c :: rest =>
      if uriUnreserved c then
        bindE (encodeURIComponent rest) (fun out => inr (c :: out))
      else if ((c <? 55296) || (57343 <? c))%N then
        bindE (encodeURIComponent rest) (fun out => inr (escaped c ++ out))
      else if (c <=? 56319)%N then
        match rest with
        | d :: rest' =>
            if ((56320 <=? d) && (d <=? 57343))%N then
              bindE (encodeURIComponent rest')
                (fun out => inr (escaped (65536 + (c - 55296) * 1024 + (d - 56320))%N ++ out))
            else inl URIError
        | [] => inl URIError
        end
      else inl URIError
  end.

(** The path of [forget(id)]: [`/v1/memories/${encodeURIComponent(id)}`]. *)
Definition forgetPath (id : jsstring) : throws string :=
  bindE (encodeURIComponent id) (fun enc => inr ("/v1/memories/" +:+ Js.text enc)).

(** The methods of [EngramAPI]: method and path of the request each sends
    (the body is not part of this development). *)
Inductive method : Type :=
| remember | recall | search | forget (id : jsstring) | context | observe | health | stats.

Definition endpoint (m : method) : throws (string * string) :=
  match m with
  | remember => inr ("POST", "/v1/memories")
  | recall => inr ("POST", "/v1/memories/query")
  | search => inr ("POST", "/v1/hierarchy/search")
  | forget id => bindE (forgetPath id) (fun path => inr ("DELETE", path))
  | context => inr ("POST", "/v1/context")
  | observe => inr ("POST", "/v1/auto/observe")
  | health => inr ("GET", "/v1/health")
  | stats => inr ("GET", "/v1/memories/stats")
  end.

(** A call of a method: the [URIError] of the path, if any, is thrown before
    anything is sent. *)
Definition call {rt : Runtime} (cfg : Config) (net : Network) (m : method)
  (lastHealthy : option string)
  : option (throws (option json) * option string * list event) :=
  match endpoint m with
  | inl e => Some (inl e, lastHealthy, [])
  | inr (verb, path) => request cfg net verb path lastHealthy
  end.

End Client.

Module Resources.

Record Content : Type := {
  uri : string;
  mimeType : string;
  content : string
}.

Definition quote : string := String (Ascii.ascii_of_N 34) EmptyString.

(** [{"error": "..."}] around a message, which is pasted in as it is. *)
Definition errorObject (message : string) : string :=
  "{" +:+ quote +:+ "error" +:+ quote +:+ ": " +:+ quote +:+ message +:+ quote +:+ "}".

Definition isOffline (e : exn) : bool :=
  match e with
  | EngramError _ _ offline => offline
  | Error _ => false
  end.

(** An error that [handleError] words as a validation error: a plain [Error]
    whose message does not start with [Rate limit]. *)
Definition plainError (e : exn) : Prop :=
  exists m, e = Error m /\ String.prefix "Rate limit" m = false.

Definition messageOf (e : exn) : string :=
  match e with
  | EngramError m _ _ => m
  | Error m => m
  end.

(** The [engram://stats] resource: [api.stats()], serialised, with its own
    [catch]. It does not call [checkRateLimit]. *)
Definition memory_stats {rt : Runtime} (env : Env) (st : State)
  : option (Content * State * list event) :=
  match Client.call (config env) (net env) Client.stats (lastHealthy st) with
  | None => None
  | Some (r, lh, evs) =>
      let outcome := bindE r (fun stats => reply "memory-stats" stats) in
      let msg :=
        match outcome with
        | inr data => data
        | inl err =>
            if isOffline err then errorObject "Engram backend offline"
            else errorObject (messageOf err)
        end in
      Some ({| uri := "engram://stats"; mimeType := "application/json"; content := msg |},
            {| windows := windows st; lastHealthy := lh |}, evs)
  end.

(** The [engram://context] resource: [api.context({ maxTokens: 4000 })]. *)
Definition memory_context {rt : Runtime} (env : Env) (st : State)
  : option (Content * State * list event) :=
  match Client.call (config env) (net env) Client.context (lastHealthy st) with
  | None => None
  | Some (r, lh, evs) =>
      let outcome := bindE r (fun result => reply "memory-context" result) in
      let msg :=
        match outcome with
        | inr data => data
        | inl err =>
            if isOffline err then "Engram backend offline — context unavailable"
            else "Error: " +:+ messageOf err
        end in
      Some ({| uri := "engram://context"; mimeType := "text/plain"; content := msg |},
            {| windows := windows st; lastHealthy := lh |}, evs)
  end.

Definition newline : string := String (Ascii.ascii_of_N 10) EmptyString.

(** The text of the one message the [memory-aware-chat] prompt returns:
    seven lines joined by newlines. *)
Definition promptText (contextText : string) (topic : option string) : string :=
  String.concat newline
    ["## Memory Context"; ""; contextText; ""; "---"; "";
     match topic with
     | Some t =>
         if truthy t then "Let's discuss: " +:+ t
         else "How can I help you today? I have your memory context loaded above."
     | None => "How can I help you today? I have your memory context loaded above."
     end].

(** The [memory-aware-chat] prompt: whatever the [try] block throws is
    swallowed and replaced by a note. *)
Definition memory_aware_chat {rt : Runtime} (topic : option string) (env : Env) (st : State)
  : option (string * State * list event) :=
  match Client.call (config env) (net env) Client.context (lastHealthy st) with
  | None => None
  | Some (r, lh, evs) =>
      let outcome := bindE r (fun result => reply "memory-aware-chat" result) in
      let contextText :=
        match outcome with
        | inr data => data
        | inl _ => "Note: Memory context could not be loaded (Engram may be offline)."
        end in
      Some (promptText contextText topic, {| windows := windows st; lastHealthy := lh |}, evs)
  end.

End Resources.

(** ** The logger (logger.ts, here src/unnamed/part_002) *)

Module Logger.

Inductive level : Type := debug | info | warn | error.

Definition LEVELS (l : level) : Z :=
  match l with
  | debug => 0
  | info => 1
  | warn => 2
  | error => 3
  end.

Definition levelName (l : level) : string :=
  match l with
  | debug => "debug"
  | info => "info"
  | warn => "warn"
  | error => "error"
  end.

(** [let currentLevel = LEVELS.warn] *)
Definition initialLevel : Z := LEVELS warn.

Definition setLogLevel (l : level) (currentLevel : Z) : Z := LEVELS l.

(** The values [JSON.stringify] walks through: a number is kept as its text
    and other primitives as they are. Values with a [toJSON] method,
    functions and [undefined] are outside this type. *)
Inductive jvalue : Type :=
| VNull
| VBool (b : bool)
| VNumber (digits : string)
| VString (s : string)
| VArray (items : list jvalue)
| VObject (fields : list (string * jvalue)).

Definition lowerAscii (a : Ascii.ascii) : Ascii.ascii :=
  let n := Ascii.N_of_ascii a in
  if ((65 <=? n) && (n <=? 90))%N then Ascii.ascii_of_N (n + 32) else a.

Fixpoint lower (s : string) : string :=
  match s with
  | EmptyString => EmptyString
  | String a rest => String (lowerAscii a) (lower rest)
  end.

(** [/apikey|api_key|secret|password|token/i.test(key)]. Without the [u]
    flag a character outside ASCII never matches an ASCII letter of the
    pattern, so folding the ASCII letters of the key is all the [i] flag
    does here. *)
Definition sensitive (key : string) : bool :=
  existsb (fun word => mentions word (lower key))
    ["apikey"; "api_key"; "secret"; "password"; "token"].

(** What [JSON.stringify(value, replacer)] serialises in place of [value]:
    the replacer sees each property before its value is walked, and answers
    [[REDACTED]] for a sensitive key. The keys of array elements are their
    indices, which never match. *)
Fixpoint redact (v : jvalue) : jvalue :=
  match v with
  | VArray items => VArray (List.map redact items)
  | VObject fields =>
      VObject (List.map (fun '(key, value) =>
                           (key, if sensitive key then VString "[REDACTED]" else redact value))
                 fields)
  | _ => v
  end.

(** [{ ts, level, msg, ...(data ? { data } : {}) }] *)
Definition entry (ts : string) (l : level) (msg : string)
  (data : option (list (string * jvalue))) : jvalue :=
  VObject ([("ts", VString ts); ("level", VString (levelName l)); ("msg", VString msg)]
           ++ match data with
              | Some fields => [("data", VObject fields)]
              | None => []
              end).

(** [log(level, msg, data)] at clock reading [ts]: the value whose JSON text,
    followed by a newline, is written to stderr, or [None] when the level is
    below the current one. The text itself is not part of this development. *)
Definition log (currentLevel : Z) (ts : string) (l : level) (msg : string)
  (data : option (list (string * jvalue))) : option jvalue :=
  if LEVELS l <? currentLevel then None
  else Some (redact (entry ts l msg data)).

(** No property with a sensitive key, at any depth, holds anything but the
    placeholder. *)
Fixpoint redacted (v : jvalue) : bool :=
  match v with
  | VArray items => forallb redacted items
  | VObject fields =>
      forallb (fun '(key, value) =>
                 if sensitive key then
                   match value with VString "[REDACTED]" => true | _ => false end
                 else redacted value)
        fields
  | _ => true
  end.

(** No property, at any depth, has a sensitive key. *)
Fixpoint harmless (v : jvalue) : bool :=
  match v with
  | VArray items => forallb harmless items
  | VObject fields =>
      forallb (fun '(key, value) => negb (sensitive key) && harmless value) fields
  | _ => true
  end.

End Logger.

(** ** The configuration (config.ts, here src/unnamed/part_000) *)

(** What [loadConfig] takes from the platform: the [URL] parser, which gives
    host name and protocol or throws a [TypeError], and [parseInt(s, 10)]
    ([None] is [NaN]). *)
Class Platform : Type := {
  parseURL : string -> option (string * string);
  parseInt10 : string -> option Z
}.

Module Settings.

Record Config : Type := {
  apiKey : string;
  userId : string;
  baseUrl : string;
  timeoutMs : option Z;
  logLevel : string;
  tlsSkipVerify : bool;
  maxRetries : option Z;
  defaultLayer : option string;
  defaultProjectId : option string
}.

(** How [loadConfig] ends: with a configuration, with [process.exit(code)]
    after a message on stderr, or with the [TypeError] of [new URL]. *)
Inductive outcome : Type :=
| Loaded (c : Config)
| Exited (code : Z) (message : string)
| Threw.

(** [process.env]: a variable is a string or is not set. *)
Abbreviation Environment := (gmap string string).

(** [process.env.NAME || fallback]: an empty value counts as not set. *)
Definition orElse (value : option string) (fallback : string) : string :=
  match value with
  | Some v => if truthy v then v else fallback
  | None => fallback
  end.

(** [!!process.env.NAME] *)
Definition isSet (value : option string) : bool :=
  match value with
  | Some v => truthy v
  | None => false
  end.

(** [s.replace(/\/$/, '')]: one slash at the very end is removed. *)
Fixpoint stripSlash (s : string) : string :=
  match s with
  | EmptyString => EmptyString
  | String a rest =>
      match rest with
      | EmptyString => if Ascii.eqb a (Ascii.ascii_of_N 47) then EmptyString else s
      | _ => String a (stripSlash rest)
      end
  end.

Definition LOG_LEVELS : list string := ["debug"; "info"; "warn"; "error"].

Definition isLocalhost (hostname : string) : bool :=
  String.eqb hostname "localhost" || String.eqb hostname "127.0.0.1"
  || String.eqb hostname "::1".

Definition loadConfig {pf : Platform} (env : Environment) : outcome :=
  let apiKey := orElse (env !! "ENGRAM_API_KEY") "" in
  let userId := orElse (env !! "ENGRAM_USER_ID") "Beaux" in
  let baseUrl :=
    stripSlash (orElse (env !! "ENGRAM_API_URL")
                  (orElse (env !! "ENGRAM_BASE_URL") "https://api.openengram.ai")) in
  match parseURL baseUrl with
  | None => Threw
  | Some (hostname, protocol) =>
      let tlsSkipVerify :=
        match env !! "ENGRAM_TLS_SKIP_VERIFY" with
        | Some v => String.eqb v "true"
        | None => false
        end in
      if negb (isLocalhost hostname) && negb (String.eqb protocol "https:")
         && negb (isSet (env !! "ENGRAM_ALLOW_HTTP")) then
        Exited 1 ("HTTPS required for non-localhost URLs. Got: " +:+ baseUrl
                  +:+ ". Set ENGRAM_ALLOW_HTTP=true to override.")
      else
        let logLevel := orElse (env !! "ENGRAM_LOG_LEVEL") "warn" in
        if negb (existsb (String.eqb logLevel) LOG_LEVELS) then
          Exited 1 ("Invalid ENGRAM_LOG_LEVEL: " +:+ logLevel)
        else
          Loaded {|
            apiKey := apiKey;
            userId := userId;
            baseUrl := baseUrl;
            timeoutMs := parseInt10 (orElse (env !! "ENGRAM_TIMEOUT_MS") "10000");
            logLevel := logLevel;
            tlsSkipVerify := tlsSkipVerify;
            maxRetries := parseInt10 (orElse (env !! "ENGRAM_MAX_RETRIES") "2");
            defaultLayer := env !! "ENGRAM_DEFAULT_LAYER";
            defaultProjectId := env !! "ENGRAM_PROJECT_ID"
          |}
  end.

End Settings.

(** More inputs for the examples. *)
Module Samples.

(** A runtime whose JSON parser accepts the text [{}] only. *)
#[local] Instance strict : Runtime := {|
  toUpperCase := List.map Demo.upperAscii;
  parseIntOfString := fun _ => None;
  json := string;
  JSON_parse := fun s => if String.eqb s "{}" then inr s else inl "Unexpected token";
  reply := fun _ r => inr (default "undefined" r)
|}.

Definition html : FetchResult :=
  Responded {| status := 200; statusText := "OK"; retryAfterHeader := None;
               body := BodyText "<html>" |}.

Definition limited : FetchResult :=
  Responded {| status := 429; statusText := "Too Many Requests";
               retryAfterHeader := Some "30"; body := BodyText "" |}.

(** A transport that answers every send with the same 503. *)
Definition down : Network :=
  {| fetch := fun _ => Demo.respond 503 "busy";
     toISOString := fun _ => "2026-01-01T00:00:00.000Z" |}.

Definition busy : Response :=
  {| status := 503; statusText := ""; retryAfterHeader := None; body := BodyText "busy" |}.

(** A [windows] map in which the budget of [forget] is used up at time 0. *)
Definition full : State :=
  {| windows := <["forget" := [0; 0; 0; 0; 0; 0; 0; 0; 0; 0]]> ∅; lastHealthy := None |}.

(** A platform whose URL parser knows two shapes of address only. *)
#[local] Instance platform : Platform := {|
  parseURL := fun s =>
    if String.prefix "https://" s then Some ("api.openengram.ai", "https:")
    else if String.prefix "http://localhost" s then Some ("localhost", "http:")
    else if String.prefix "http://" s then Some ("example.com", "http:")
    else None;
  parseInt10 := fun s =>
    if String.eqb s "10000" then Some 10000 else if String.eqb s "2" then Some 2 else None
|}.

(** A plain-HTTP address of another host, allowed by a flag set to [false]. *)
Definition httpEnv : Settings.Environment :=
  {[ "ENGRAM_BASE_URL" := "http://example.com/"; "ENGRAM_ALLOW_HTTP" := "false" ]}.

Definition httpConfig : Settings.Config :=
  {| Settings.apiKey := ""; Settings.userId := "Beaux";
     Settings.baseUrl := "http://example.com";
     Settings.timeoutMs := Some 10000; Settings.logLevel := "warn";
     Settings.tlsSkipVerify := false; Settings.maxRetries := Some 2;
     Settings.defaultLayer := None; Settings.defaultProjectId := None |}.

(** A body of 150 two-byte characters: 300 bytes, 150 code units. *)
Definition accents : string := String.concat "" (List.repeat "é" 150).

Definition badRequest : Response :=
  {| status := 400; statusText := "Bad Request"; retryAfterHeader := None;
     body := BodyText accents |}.

Definition rejected : FetchResult := Responded badRequest.

(** A body of 199 letters and one character outside the Basic Multilingual
    Plane, whose pair the cut at 200 code units splits. *)
Definition astral : string := String.concat "" (List.repeat "a" 199) +:+ "𝄞".

End Samples.

(** * Properties *)

(** ** Validator *)

Section DropWhile.

Context {A : Type} (p : A -> bool).

Lemma dropWhile_idem (l : list A) : dropWhile p (dropWhile p l) = dropWhile p l.
Proof.
  induction l as [|x l IH]; simpl; [reflexivity|].
  destruct (p x) eqn:Hx; [exact IH|].
  simpl. rewrite Hx. reflexivity.
Qed.

Lemma dropWhile_suffix (l : list A) : exists pre, l = pre ++ dropWhile p l.
Proof.
  induction l as [|x l [pre IH]]; simpl.
  - exists []. reflexivity.
  - destruct (p x).
    + exists (x :: pre). simpl. congruence.
    + exists []. reflexivity.
Qed.

Lemma dropWhile_head (l : list A) x rest :
  dropWhile p l = x :: rest -> p x = false.
Proof.
  induction l as [|y l IH]; simpl; [discriminate|].
  destruct (p y) eqn:Hy; [exact IH|].
  intros [= <- _]. exact Hy.
Qed.

Lemma dropWhile_fixed (l : list A) :
  (forall x rest, l = x :: rest -> p x = false) -> dropWhile p l = l.
Proof.
  destruct l as [|x l]; simpl; [reflexivity|].
  intros Hhd. rewrite (Hhd x l eq_refl). reflexivity.
Qed.

Lemma dropWhile_Forall (P : A -> Prop) (l : list A) :
  Forall P l -> Forall P (dropWhile p l).
Proof.
  induction 1 as [|x l Hx Hl IH]; simpl; [constructor|].
  destruct (p x); [exact IH|]. constructor; assumption.
Qed.

End DropWhile.

Lemma trimEnd_prefix (s : jsstring) : exists suf, s = trimEnd s ++ suf.
Proof.
  unfold trimEnd.
  destruct (dropWhile_suffix isWhiteSpace (rev s)) as [pre Hpre].
  exists (rev pre).
  rewrite <- rev_app_distr, <- Hpre, rev_involutive. reflexivity.
Qed.

Lemma trimEnd_idem (s : jsstring) : trimEnd (trimEnd s) = trimEnd s.
Proof.
  unfold trimEnd. rewrite rev_involutive, dropWhile_idem. reflexivity.
Qed.

Lemma trimStart_trim (s : jsstring) : trimStart (trim s) = trim s.
Proof.
  unfold trim, trimStart.
  apply dropWhile_fixed. intros x rest Hx.
  destruct (trimEnd_prefix (dropWhile isWhiteSpace s)) as [suf Hsuf].
  rewrite Hx in Hsuf. simpl in Hsuf.
  exact (dropWhile_head _ _ _ _ Hsuf).
Qed.

Lemma trim_idem (s : jsstring) : trim (trim s) = trim s.
Proof.
  unfold trim at 1. rewrite trimStart_trim.
  unfold trim. apply trimEnd_idem.
Qed.

Lemma trim_Forall (P : N -> Prop) (s : jsstring) : Forall P s -> Forall P (trim s).
Proof.
  intros Hs. unfold trim, trimEnd, trimStart.
  apply Forall_rev, dropWhile_Forall, Forall_rev, dropWhile_Forall, Hs.
Qed.

Lemma stripControl_clean (s : jsstring) :
  Forall (fun c => isControl c = false) (stripControl s).
Proof.
  unfold stripControl. induction s as [|c s IH]; simpl; [constructor|].
  destruct (isControl c) eqn:Hc; simpl; [exact IH|].
  constructor; assumption.
Qed.

Lemma stripControl_fixed (s : jsstring) :
  Forall (fun c => isControl c = false) s -> stripControl s = s.
Proof.
  unfold stripControl. induction 1 as [|c s Hc Hs IH]; simpl; [reflexivity|].
  rewrite Hc. simpl. rewrite IH. reflexivity.
Qed.

(** C9. String sanitization (strip the control characters other than newline
    and tab, then trim) is idempotent: sanitizing a sanitized string gives
    the same string, for every string. *)
Theorem sanitizeString_idempotent (x : jsstring) :
  sanitizeString (sanitizeString x) = sanitizeString x.
Proof.
  unfold sanitizeString.
  rewrite (stripControl_fixed (trim (stripControl x))).
  - apply trim_idem.
  - apply trim_Forall, stripControl_clean.
Qed.

(** C4, evaluated at the input that breaks it. A string made of one NUL
    character passes the emptiness test of [validateContent] and of
    [validateQuery], which looks at the input before the control characters
    are stripped, and the value returned is the empty string. *)
Theorem validateContent_returns_empty :
  validateContent (JString [0%N]) = inr [] /\ validateQuery (JString [0%N]) = inr [].
Proof. split; reflexivity. Qed.

(** The tag validator tests emptiness after sanitizing: what it returns is
    never empty. *)
Lemma validateTag_nonempty (t : jsval) (cleaned : jsstring) :
  validateTag t = inr cleaned -> 0 < len cleaned.
Proof.
  unfold validateTag. destruct t; try discriminate.
  destruct (len (sanitizeString s) >? MAX_TAG_LENGTH); [discriminate|].
  destruct (len (sanitizeString s) =? 0) eqn:Hz; [discriminate|].
  intros [= <-]. apply Z.eqb_neq in Hz. unfold len in *. lia.
Qed.

(** What the string validators do guarantee: the value is sanitized, within
    the length bound, and comes from an input that is not blank. *)
Lemma validateContent_inr (content : jsval) (cleaned : jsstring) :
  validateContent content = inr cleaned ->
  exists s, content = JString s /\ cleaned = sanitizeString s
            /\ 0 < len (trim s) /\ len cleaned <= MAX_CONTENT_LENGTH.
Proof.
  unfold validateContent. destruct content; try discriminate.
  destruct (len (trim s) =? 0) eqn:Hz; [discriminate|].
  destruct (len (sanitizeString s) >? MAX_CONTENT_LENGTH) eqn:Hmax; [discriminate|].
  intros [= <-]. exists s. apply Z.eqb_neq in Hz.
  repeat split; unfold len in *; lia.
Qed.

(** ** Rate limiter *)

Lemma RATE_LIMITS_budgets (operation : string) (budget : Z) :
  In (operation, budget)
     [("remember", 30); ("recall", 60); ("search", 60); ("forget", 10);
      ("context", 20); ("observe", 30); ("health", 60)] ->
  RATE_LIMITS !! operation = Some {| maxRequests := budget; windowMs := 60000 |}.
Proof.
  simpl. intros H.
  repeat (destruct H as [[= <- <-]|H]; [vm_compute; reflexivity|]).
  destruct H.
Qed.

Lemma RATE_LIMITS_inv (operation : string) (limit : RateLimit) :
  RATE_LIMITS !! operation = Some limit ->
  10 <= maxRequests limit <= 60 /\ windowMs limit = 60000.
Proof.
  unfold RATE_LIMITS. cbn [list_to_map foldr uncurry fst snd].
  repeat (rewrite lookup_insert_Some; intros [[_ <-]|[_ H]]; [simpl; lia|revert H]).
  rewrite lookup_empty. discriminate.
Qed.

(** A name that the table neither holds nor inherits passes at the guard. *)
Lemma checkRateLimit_unlimited (operation : string) (now : Z) (windows : Windows) :
  RATE_LIMITS !! operation = None -> inherited operation = false ->
  checkRateLimit operation now windows = (inr tt, windows).
Proof. intros H Hown. unfold checkRateLimit. rewrite H, Hown. reflexivity. Qed.

(** A name inherited from [Object.prototype] passes the guard, is never
    rejected and leaves the timestamp of the call as its whole window. *)
Lemma checkRateLimit_inherited (operation : string) (now : Z) (windows : Windows) :
  RATE_LIMITS !! operation = None -> inherited operation = true ->
  checkRateLimit operation now windows = (inr tt, <[operation := [now]]> windows).
Proof. intros H Hinh. unfold checkRateLimit. rewrite H, Hinh. reflexivity. Qed.

(** Outside the table no call is rejected. *)
Lemma checkRateLimit_passes (operation : string) (now : Z) (windows : Windows) :
  RATE_LIMITS !! operation = None ->
  fst (checkRateLimit operation now windows) = inr tt.
Proof.
  intros H. unfold checkRateLimit. rewrite H. destruct (inherited operation); reflexivity.
Qed.

Lemma checkRateLimit_other (operation other : string) (now : Z) (windows : Windows) :
  operation <> other ->
  snd (checkRateLimit operation now windows) !! other = windows !! other.
Proof.
  intros Hne. unfold checkRateLimit.
  destruct (RATE_LIMITS !! operation) as [limit|].
  - destruct (_ >=? _); simpl; [reflexivity|].
    apply lookup_insert_ne, Hne.
  - destruct (inherited operation); simpl; [apply lookup_insert_ne, Hne|reflexivity].
Qed.

(** The two ways out of [checkRateLimit] for an operation with a budget. *)
Lemma checkRateLimit_step (operation : string) (limit : RateLimit) (now : Z)
  (windows : Windows) :
  RATE_LIMITS !! operation = Some limit ->
  let pruned := retained limit now (default [] (windows !! operation)) in
  match checkRateLimit operation now windows with
  | (inl _, windows') =>
      maxRequests limit <= Z.of_nat (length pruned) /\ windows' = windows
  | (inr _, windows') =>
      Z.of_nat (length pruned) < maxRequests limit
      /\ windows' = <[operation := pruned ++ [now]]> windows
  end.
Proof.
  intros Hlim pruned. unfold checkRateLimit. rewrite Hlim. fold pruned.
  destruct (Z.of_nat (length pruned) >=? maxRequests limit) eqn:Hfull.
  - split; [lia | reflexivity].
  - split; [lia | reflexivity].
Qed.

(** C10. For an operation with a budget, [checkRateLimit] changes the stored
    window in step with its outcome: a call that throws leaves the whole map
    as it was, with no timestamp recorded and the pruned list not written
    back; a call that returns stores, for that operation, the pruned list
    followed by the current time, exactly once, and leaves the windows of the
    other operations alone. *)
Theorem checkRateLimit_atomic (operation : string) (limit : RateLimit) (now : Z)
  (windows : Windows) :
  RATE_LIMITS !! operation = Some limit ->
  let pruned := retained limit now (default [] (windows !! operation)) in
  match checkRateLimit operation now windows with
  | (inl _, windows') => windows' = windows
  | (inr _, windows') =>
      windows' !! operation = Some (pruned ++ [now])
      /\ length (default [] (windows' !! operation)) = S (length pruned)
      /\ (forall other, other <> operation -> windows' !! other = windows !! other)
      /\ windows' = <[operation := pruned ++ [now]]> windows
  end.
Proof.
  intros Hlim pruned. unfold checkRateLimit. rewrite Hlim. fold pruned.
  destruct (Z.of_nat (length pruned) >=? maxRequests limit); [reflexivity|].
  repeat split.
  - apply lookup_insert_eq.
  - rewrite lookup_insert_eq. simpl. rewrite length_app. simpl. lia.
  - intros other Hother. apply lookup_insert_ne. congruence.
Qed.

Lemma checkRateLimit_atomic_witness :
  match checkRateLimit "forget" 7 (<["forget" := [1; 2]]> ∅) with
  | (inl _, windows') => windows' = <["forget" := [1; 2]]> ∅
  | (inr _, windows') => windows' !! "forget" = Some [1; 2; 7]
  end.
Proof.
  pose proof (checkRateLimit_atomic "forget" {| maxRequests := 10; windowMs := 60000 |} 7
                (<["forget" := [1; 2]]> ∅) ltac:(vm_compute; reflexivity)) as H.
  cbv zeta in H.
  destruct (checkRateLimit "forget" 7 (<["forget" := [1; 2]]> ∅)) as [[e|u] w].
  - exact H.
  - destruct H as [H _]. rewrite H. vm_compute. reflexivity.
Defined.

(** [ceilDiv x d] is the least integer whose multiple of [d] reaches [x]. *)
Lemma ceilDiv_spec (x d : Z) :
  0 < d -> (ceilDiv x d - 1) * d < x <= ceilDiv x d * d.
Proof.
  intros Hd. unfold ceilDiv.
  pose proof (Z.div_mod (- x) d ltac:(lia)).
  pose proof (Z.mod_pos_bound (- x) d Hd).
  nia.
Qed.

Lemma ceilDiv_bounds (x : Z) : 0 < x <= 60000 -> 0 < ceilDiv x 1000 <= 60.
Proof.
  intros Hx. unfold ceilDiv.
  assert (- 60 <= (- x) / 1000) by (apply Z.div_le_lower_bound; lia).
  assert ((- x) / 1000 < 0) by (apply Z.div_lt_upper_bound; lia).
  lia.
Qed.

Lemma retained_all (limit : RateLimit) (now : Z) (l : list Z) :
  Forall (fun t => now - t < windowMs limit) l -> retained limit now l = l.
Proof.
  unfold retained. induction 1 as [|t l Ht Hl IH]; simpl; [reflexivity|].
  destruct (Z.ltb_spec (now - t) (windowMs limit)); [|lia].
  rewrite IH. reflexivity.
Qed.

(** Calls of one operation that all fall inside the window ending at [hi] and
    stay under the budget are all recorded, in order. *)
Lemma windowsAfter_fill (operation : string) (limit : RateLimit) (hi : Z) (ts : list Z) :
  RATE_LIMITS !! operation = Some limit ->
  forall (windows : Windows),
  let acc := default [] (windows !! operation) in
  Forall (fun t => t <= hi /\ hi - t < windowMs limit) (acc ++ ts) ->
  Z.of_nat (length (acc ++ ts)) <= maxRequests limit ->
  default [] (windowsAfter (List.map (pair operation) ts) windows !! operation) = acc ++ ts.
Proof.
  intros Hlim. induction ts as [|t ts IH]; intros windows acc Hin Hlen.
  - simpl. rewrite app_nil_r. reflexivity.
  - simpl. unfold checkRateLimit. rewrite Hlim. fold acc.
    assert (Hacc : Forall (fun x => t <= hi /\ hi - x < windowMs limit) acc /\ t <= hi).
    { apply Forall_app in Hin as [Ha Ht]. apply Forall_cons in Ht as [[Ht _] _].
      split; [|exact Ht]. eapply Forall_impl; [exact Ha|]. simpl. intros x [_ Hx]. lia. }
    destruct Hacc as [Hacc Ht].
    rewrite retained_all by (eapply Forall_impl; [exact Hacc|]; simpl; intros; lia).
    rewrite length_app in Hlen. simpl in Hlen.
    destruct (Z.of_nat (length acc) >=? maxRequests limit) eqn:Hfull; [lia|].
    simpl. rewrite IH; rewrite lookup_insert_eq; simpl.
    + rewrite <- app_assoc. reflexivity.
    + rewrite <- app_assoc. exact Hin.
    + rewrite <- app_assoc, length_app. simpl. lia.
Qed.

Lemma retained_In (limit : RateLimit) (now t : Z) (l : list Z) :
  In t (retained limit now l) <-> In t l /\ now - t < windowMs limit.
Proof. unfold retained. rewrite filter_In, Z.ltb_lt. reflexivity. Qed.

(** Dropping at least one element makes the retained list strictly shorter. *)
Lemma retained_length_lt (limit : RateLimit) (now t : Z) (l : list Z) :
  In t l -> windowMs limit <= now - t ->
  (length (retained limit now l) < length l)%nat.
Proof.
  intros Hin Hold. unfold retained. induction l as [|x l IH]; [destruct Hin|].
  simpl. destruct Hin as [->|Hin].
  - destruct (Z.ltb_spec (now - t) (windowMs limit)); [lia|].
    pose proof (List.filter_length_le (fun t0 => now - t0 <? windowMs limit) l). lia.
  - specialize (IH Hin). destruct (now - x <? windowMs limit); simpl; lia.
Qed.

Lemma checkRateLimit_stored_other (op operation : string) (now : Z) (w : Windows) :
  op <> operation ->
  stored operation (snd (checkRateLimit op now w)) = stored operation w.
Proof. intros Hne. unfold stored. rewrite checkRateLimit_other by exact Hne. reflexivity. Qed.

(** No stored window ever grows past its budget. *)
Lemma stored_bounded_step (op : string) (now : Z) (w : Windows) :
  (forall operation limit, RATE_LIMITS !! operation = Some limit ->
     Z.of_nat (length (stored operation w)) <= maxRequests limit) ->
  forall operation limit, RATE_LIMITS !! operation = Some limit ->
    Z.of_nat (length (stored operation (snd (checkRateLimit op now w)))) <= maxRequests limit.
Proof.
  intros Hinv operation limit Hlim.
  destruct (String.eqb_spec op operation) as [->|Hne].
  - pose proof (checkRateLimit_step operation limit now w Hlim) as Hstep. cbv zeta in Hstep.
    destruct (checkRateLimit operation now w) as [[e|u] w']; simpl.
    + destruct Hstep as [_ ->]. apply Hinv, Hlim.
    + destruct Hstep as [Hroom ->]. unfold stored. rewrite lookup_insert_eq. simpl.
      rewrite length_app. simpl. lia.
  - rewrite checkRateLimit_stored_other by exact Hne. apply Hinv, Hlim.
Qed.

Lemma retained_Forall (P : Z -> Prop) (limit : RateLimit) (now : Z) (l : list Z) :
  Forall P l -> Forall P (retained limit now l).
Proof.
  unfold retained. induction 1 as [|t l Ht _ IH]; simpl; [constructor|].
  destruct (now - t <? windowMs limit); [constructor; assumption|exact IH].
Qed.

Lemma retained_sorted (limit : RateLimit) (now : Z) (l : list Z) :
  StronglySorted Z.le l -> StronglySorted Z.le (retained limit now l).
Proof.
  induction 1 as [|t l _ IH Hle]; [constructor|].
  change (retained limit now (t :: l))
    with (if now - t <? windowMs limit then t :: retained limit now l
          else retained limit now l).
  destruct (now - t <? windowMs limit); [|exact IH].
  constructor; [exact IH|apply retained_Forall, Hle].
Qed.

Lemma ascending_step (op : string) (last now : Z) (w : Windows) :
  last <= now ->
  (forall operation, StronglySorted Z.le (stored operation w)
                     /\ Forall (fun t => t <= last) (stored operation w)) ->
  forall operation,
    StronglySorted Z.le (stored operation (snd (checkRateLimit op now w)))
    /\ Forall (fun t => t <= now) (stored operation (snd (checkRateLimit op now w))).
Proof.
  intros Hle Hinv operation. destruct (Hinv operation) as [Hsorted Hbelow].
  assert (Hbelow' : Forall (fun t => t <= now) (stored operation w)).
  { eapply Forall_impl; [exact Hbelow|]. simpl. intros. lia. }
  destruct (String.eqb_spec op operation) as [->|Hne].
  - unfold checkRateLimit.
    destruct (RATE_LIMITS !! operation) as [limit|];
      [|destruct (inherited operation); [|split; assumption];
        unfold stored; simpl; rewrite lookup_insert_eq; simpl;
        split; repeat constructor; lia].
    fold (stored operation w).
    destruct (_ >=? _); simpl; [split; assumption|].
    unfold stored at 1 3. rewrite lookup_insert_eq. simpl. split.
    + apply StronglySorted_app_2.
      * intros x1 x2 Hx1 Hx2. apply list_elem_of_singleton in Hx2 as ->.
        apply list_elem_of_In, retained_In in Hx1 as [Hx1 _].
        rewrite Forall_forall in Hbelow'. apply Hbelow', list_elem_of_In, Hx1.
      * apply retained_sorted, Hsorted.
      * repeat constructor.
    + apply Forall_app. split; [apply retained_Forall, Hbelow'|].
      constructor; [lia|constructor].
  - rewrite checkRateLimit_stored_other by exact Hne. split; assumption.
Qed.

Lemma ascending_run (calls : list (string * Z)) :
  forall (last : Z) (w : Windows),
  nondecreasing last calls = true ->
  (forall operation, StronglySorted Z.le (stored operation w)
                     /\ Forall (fun t => t <= last) (stored operation w)) ->
  forall operation, StronglySorted Z.le (stored operation (windowsAfter calls w)).
Proof.
  induction calls as [|[op now] calls IH]; intros last w Hmono Hinv operation.
  - apply Hinv.
  - simpl in Hmono. apply andb_prop in Hmono as [Hle Hmono]. apply Z.leb_le in Hle.
    simpl. apply (IH now); [exact Hmono|]. apply (ascending_step op last now w Hle Hinv).
Qed.

(** A rejection reports the first entry of the pruned window. *)
Lemma checkRateLimit_rejects (operation : string) (limit : RateLimit) (now : Z)
  (windows : Windows) (e : exn) :
  RATE_LIMITS !! operation = Some limit ->
  fst (checkRateLimit operation now windows) = inl e ->
  exists oldestValid rest,
    retained limit now (stored operation windows) = oldestValid :: rest
    /\ e = Error (rateLimitMessage operation limit
                    (pretty (retryAfterSeconds limit now oldestValid))).
Proof.
  intros Hlim. destruct (RATE_LIMITS_inv _ _ Hlim) as [Hpos _].
  unfold checkRateLimit, stored. rewrite Hlim.
  destruct (Z.of_nat (length _) >=? maxRequests limit) eqn:Hfull; [|discriminate].
  destruct (retained limit now _) as [|oldest rest] eqn:Hret;
    [exfalso; rewrite Z.geb_leb in Hfull; apply Z.leb_le in Hfull; simpl in Hfull; lia|].
  simpl. intros [= <-]. exists oldest, rest. split; reflexivity.
Qed.

(** Under a clock that does not step back, when the next call comes every
    window is in ascending order and holds no timestamp of the future. *)
Lemma ascending_until (calls : list (string * Z)) :
  forall (last : Z) (w : Windows) (op : string) (now : Z),
  nondecreasing last (calls ++ [(op, now)]) = true ->
  (forall operation, StronglySorted Z.le (stored operation w)
                     /\ Forall (fun t => t <= last) (stored operation w)) ->
  forall operation,
    StronglySorted Z.le (stored operation (windowsAfter calls w))
    /\ Forall (fun t => t <= now) (stored operation (windowsAfter calls w)).
Proof.
  induction calls as [|[op' now'] calls IH]; intros last w op now Hmono Hinv operation.
  - simpl in Hmono. rewrite andb_true_r in Hmono. apply Z.leb_le in Hmono.
    destruct (Hinv operation) as [Hsorted Hbelow]. split; [exact Hsorted|].
    eapply Forall_impl; [exact Hbelow|]. simpl. intros. lia.
  - simpl in Hmono. apply andb_prop in Hmono as [Hle Hmono]. apply Z.leb_le in Hle.
    simpl. apply (IH now' _ op now Hmono). apply (ascending_step op' last now' w Hle Hinv).
Qed.

Lemma nondecreasing_bounds (operation : string) (ts : list Z) :
  forall (last now : Z),
  nondecreasing last (List.map (pair operation) ts ++ [(operation, now)]) = true ->
  last <= now /\ Forall (fun t => last <= t /\ t <= now) ts.
Proof.
  induction ts as [|t ts IH]; intros last now Hmono; simpl in Hmono.
  - rewrite andb_true_r in Hmono. apply Z.leb_le in Hmono. split; [exact Hmono|constructor].
  - apply andb_prop in Hmono as [Hle Hmono]. apply Z.leb_le in Hle.
    destruct (IH t now Hmono) as [Hnow Hall]. split; [lia|].
    constructor; [lia|]. eapply Forall_impl; [exact Hall|]. simpl. intros. lia.
Qed.

(** C8, as it holds. Under a clock that never steps back, a rejected call
    throws the rate-limit error whose retry-after is the window width minus
    the age of the oldest retained timestamp, rounded up to whole seconds, and
    lies between 1 and 60: the code computes it from the first entry of the
    pruned window, which is then the oldest one. In particular, after ten
    [forget] calls recorded from an empty map at times that never decrease,
    an eleventh at a time [now] less than 60 seconds after the first is
    rejected with the retry-after computed from the first call, which is the
    oldest, and that value is positive and at most 60. *)
Theorem checkRateLimit_retry_after :
  (forall (calls : list (string * Z)) (first : Z) (operation : string) (limit : RateLimit)
          (now : Z) (e : exn),
     RATE_LIMITS !! operation = Some limit ->
     nondecreasing first (calls ++ [(operation, now)]) = true ->
     fst (checkRateLimit operation now (windowsAfter calls ∅)) = inl e ->
     exists oldest retryAfter,
       In oldest (retained limit now (stored operation (windowsAfter calls ∅)))
       /\ Forall (fun t => oldest <= t)
            (retained limit now (stored operation (windowsAfter calls ∅)))
       /\ e = Error (rateLimitMessage operation limit (pretty retryAfter))
       /\ 1000 * (retryAfter - 1) < windowMs limit - (now - oldest) <= 1000 * retryAfter
       /\ 0 < retryAfter <= 60)
  /\ (forall (first : Z) (others : list Z) (now : Z),
        length others = 9%nat ->
        nondecreasing first (List.map (pair "forget") others ++ [("forget", now)]) = true ->
        now - first < 60000 ->
        exists retryAfter,
          fst (checkRateLimit "forget" now
                 (windowsAfter (List.map (pair "forget") (first :: others)) ∅))
          = inl (Error (rateLimitMessage "forget" {| maxRequests := 10; windowMs := 60000 |}
                          (pretty retryAfter)))
          /\ Forall (fun t => first <= t) others
          /\ 1000 * (retryAfter - 1) < 60000 - (now - first) <= 1000 * retryAfter
          /\ 0 < retryAfter <= 60).
Proof.
  split.
  - intros calls first operation limit now e Hlim Hmono Hrej.
    destruct (RATE_LIMITS_inv _ _ Hlim) as [_ Hwidth].
    destruct (checkRateLimit_rejects _ _ _ _ _ Hlim Hrej) as (oldest & rest & Hret & ->).
    assert (Hinv : StronglySorted Z.le (stored operation (windowsAfter calls ∅))
                   /\ Forall (fun t => t <= now) (stored operation (windowsAfter calls ∅))).
    { apply (ascending_until calls first ∅ operation now Hmono). intros op. unfold stored.
      rewrite lookup_empty. simpl. split; constructor. }
    destruct Hinv as [Hsorted Hpast].
    pose proof (retained_sorted limit now _ Hsorted) as Hasc. rewrite Hret in Hasc.
    apply StronglySorted_cons in Hasc as [Hle _].
    assert (Hin : In oldest (retained limit now (stored operation (windowsAfter calls ∅))))
      by (rewrite Hret; left; reflexivity).
    pose proof Hin as Hage. apply retained_In in Hage as [Hstored Hage].
    assert (Hnow : oldest <= now).
    { rewrite Forall_forall in Hpast. apply Hpast, list_elem_of_In, Hstored. }
    exists oldest, (retryAfterSeconds limit now oldest).
    split; [exact Hin|]. rewrite Hret.
    split; [constructor; [lia|exact Hle]|].
    split; [reflexivity|]. unfold retryAfterSeconds. cbv zeta.
    pose proof (ceilDiv_spec (windowMs limit - (now - oldest)) 1000 ltac:(lia)).
    split; [lia|]. apply ceilDiv_bounds. lia.
  - intros first others now Hlen Hmono Hage.
    assert (Hlim : RATE_LIMITS !! "forget" = Some {| maxRequests := 10; windowMs := 60000 |})
      by (vm_compute; reflexivity).
    destruct (nondecreasing_bounds "forget" others first now Hmono) as [Hnow Hbetween].
    assert (Hin : Forall (fun t => t <= now /\ now - t < 60000) (first :: others)).
    { constructor; [lia|]. eapply Forall_impl; [exact Hbetween|]. simpl. intros. lia. }
    pose proof (windowsAfter_fill "forget" _ now (first :: others) Hlim ∅) as Hfill.
    cbv zeta in Hfill. rewrite lookup_empty in Hfill. cbn [from_option app] in Hfill.
    specialize (Hfill Hin ltac:(simpl; lia)).
    exists (ceilDiv (60000 - (now - first)) 1000).
    split; [|split; [|split]].
    + unfold checkRateLimit. rewrite Hlim, Hfill.
      rewrite retained_all by (eapply Forall_impl; [exact Hin|]; simpl; intros; lia).
      simpl length. rewrite Hlen. reflexivity.
    + eapply Forall_impl; [exact Hbetween|]. simpl. intros. lia.
    + pose proof (ceilDiv_spec (60000 - (now - first)) 1000 ltac:(lia)). lia.
    + apply ceilDiv_bounds. lia.
Qed.

Lemma checkRateLimit_retry_after_witness :
  (exists oldest retryAfter,
     In oldest (retained {| maxRequests := 10; windowMs := 60000 |} 1500
                  (stored "forget"
                     (windowsAfter (List.map (pair "forget") [0; 1; 2; 3; 4; 5; 6; 7; 8; 9]) ∅)))
     /\ Forall (fun t => oldest <= t)
          (retained {| maxRequests := 10; windowMs := 60000 |} 1500
             (stored "forget"
                (windowsAfter (List.map (pair "forget") [0; 1; 2; 3; 4; 5; 6; 7; 8; 9]) ∅)))
     /\ Error "Rate limit exceeded for forget. Max 10 requests per 60s. Retry after 59s."
        = Error (rateLimitMessage "forget" {| maxRequests := 10; windowMs := 60000 |}
                   (pretty retryAfter))
     /\ 1000 * (retryAfter - 1) < 60000 - (1500 - oldest) <= 1000 * retryAfter
     /\ 0 < retryAfter <= 60)
  /\ (exists retryAfter,
        fst (checkRateLimit "forget" 1500
               (windowsAfter (List.map (pair "forget") [0; 1; 2; 3; 4; 5; 6; 7; 8; 9]) ∅))
        = inl (Error (rateLimitMessage "forget" {| maxRequests := 10; windowMs := 60000 |}
                        (pretty retryAfter)))
        /\ Forall (fun t => 0 <= t) [1; 2; 3; 4; 5; 6; 7; 8; 9]
        /\ 1000 * (retryAfter - 1) < 60000 - (1500 - 0) <= 1000 * retryAfter
        /\ 0 < retryAfter <= 60).
Proof.
  split.
  - apply (proj1 checkRateLimit_retry_after
             (List.map (pair "forget") [0; 1; 2; 3; 4; 5; 6; 7; 8; 9]) 0 "forget"
             {| maxRequests := 10; windowMs := 60000 |} 1500).
    + vm_compute. reflexivity.
    + vm_compute. reflexivity.
    + vm_compute. reflexivity.
  - apply (proj2 checkRateLimit_retry_after 0 [1; 2; 3; 4; 5; 6; 7; 8; 9] 1500).
    + reflexivity.
    + vm_compute. reflexivity.
    + lia.
Defined.

(** C8 as stated, for arbitrary timestamps, fails: the first entry of the
    pruned window need not be the oldest one. After a [forget] call at 100 and
    nine at 50, a call at 60 finds all ten retained and is rejected with the
    retry-after of the entry 100, which is 61 seconds, where the oldest
    retained timestamp, 50, gives 60; all eleven calls lie within 60
    seconds. *)
Lemma retry_after_not_from_oldest_after_clock_step_back :
  ~ (forall (calls : list (string * Z)) (operation : string) (limit : RateLimit)
            (now : Z) (e : exn),
       RATE_LIMITS !! operation = Some limit ->
       fst (checkRateLimit operation now (windowsAfter calls ∅)) = inl e ->
       exists oldest retryAfter,
         In oldest (retained limit now (stored operation (windowsAfter calls ∅)))
         /\ Forall (fun t => oldest <= t)
              (retained limit now (stored operation (windowsAfter calls ∅)))
         /\ e = Error (rateLimitMessage operation limit (pretty retryAfter))
         /\ 1000 * (retryAfter - 1) < windowMs limit - (now - oldest) <= 1000 * retryAfter)
  /\ fst (checkRateLimit "forget" 60
            (windowsAfter (List.map (pair "forget") [100; 50; 50; 50; 50; 50; 50; 50; 50; 50]) ∅))
     = inl (Error "Rate limit exceeded for forget. Max 10 requests per 60s. Retry after 61s.").
Proof.
  split; [|vm_compute; reflexivity].
  intros H.
  destruct (H (List.map (pair "forget") [100; 50; 50; 50; 50; 50; 50; 50; 50; 50]) "forget"
              {| maxRequests := 10; windowMs := 60000 |} 60
              (Error "Rate limit exceeded for forget. Max 10 requests per 60s. Retry after 61s.")
              ltac:(vm_compute; reflexivity) ltac:(vm_compute; reflexivity))
    as (oldest & retryAfter & Hin & Hmin & Hmsg & Hceil).
  assert (Hret : retained {| maxRequests := 10; windowMs := 60000 |} 60
                   (stored "forget"
                      (windowsAfter
                         (List.map (pair "forget") [100; 50; 50; 50; 50; 50; 50; 50; 50; 50]) ∅))
                 = [100; 50; 50; 50; 50; 50; 50; 50; 50; 50]) by (vm_compute; reflexivity).
  rewrite Hret in Hin, Hmin.
  assert (Hold : oldest = 50).
  { apply Forall_cons in Hmin as [_ Hmin]. apply Forall_cons in Hmin as [H50 _].
    simpl in Hin. lia. }
  subst oldest. simpl in Hceil.
  assert (retryAfter = 60) as -> by lia.
  vm_compute in Hmsg. discriminate.
Qed.

(** *** The sliding-window bound *)

Lemma retained_retained (limit : RateLimit) (now now' : Z) (l : list Z) :
  now <= now' -> retained limit now' (retained limit now l) = retained limit now' l.
Proof.
  intros Hle. unfold retained. induction l as [|t l IH]; simpl; [reflexivity|].
  destruct (Z.ltb_spec (now - t) (windowMs limit)) as [Hin|Hout]; simpl.
  - rewrite IH. reflexivity.
  - destruct (Z.ltb_spec (now' - t) (windowMs limit)); [lia|]. exact IH.
Qed.

Lemma retained_app (limit : RateLimit) (now : Z) (l1 l2 : list Z) :
  retained limit now (l1 ++ l2) = retained limit now l1 ++ retained limit now l2.
Proof. apply List.filter_app. Qed.

Lemma countIn_app (from width : Z) (l1 l2 : list Z) :
  countIn from width (l1 ++ l2) = countIn from width l1 + countIn from width l2.
Proof. unfold countIn. rewrite List.filter_app, length_app. lia. Qed.

Lemma countIn_nonneg (from width : Z) (l : list Z) : 0 <= countIn from width l.
Proof. unfold countIn. lia. Qed.

(** Every timestamp of a window that contains [now] is retained at [now]. *)
Lemma countIn_retained (limit : RateLimit) (from now : Z) (l : list Z) :
  from <= now < from + windowMs limit ->
  countIn from (windowMs limit) l <= Z.of_nat (length (retained limit now l)).
Proof.
  intros Hnow. unfold countIn, retained. induction l as [|t l IH]; simpl; [lia|].
  destruct (Z.leb_spec from t); destruct (Z.ltb_spec t (from + windowMs limit));
    destruct (Z.ltb_spec (now - t) (windowMs limit)); simpl in *; lia.
Qed.

Lemma timestampsOf_cons (operation op : string) (now : Z) (calls : list (string * Z)) :
  timestampsOf operation ((op, now) :: calls)
  = (if String.eqb op operation then [now] else []) ++ timestampsOf operation calls.
Proof. unfold timestampsOf. simpl. destruct (String.eqb op operation); reflexivity. Qed.

Section SlidingWindow.

Variable operation : string.
Variable limit : RateLimit.
Hypothesis Hlimit : RATE_LIMITS !! operation = Some limit.

Lemma agrees_later (last now : Z) (windows : Windows) (history : list Z) :
  last <= now ->
  agrees operation limit last windows history ->
  agrees operation limit now windows history.
Proof.
  intros Hle [Hsame Hbound]. split; [|exact Hbound].
  intros now' Hnow'. apply Hsame. lia.
Qed.

Lemma agrees_other (op : string) (last now : Z) (windows : Windows) (history : list Z) :
  op <> operation -> last <= now ->
  agrees operation limit last windows history ->
  agrees operation limit now (snd (checkRateLimit op now windows)) history.
Proof.
  intros Hne Hle Hag. apply (agrees_later last now) in Hag; [|exact Hle].
  destruct Hag as [Hsame Hbound]. split; [|exact Hbound].
  intros now' Hnow'. unfold stored.
  rewrite checkRateLimit_other by exact Hne. apply Hsame, Hnow'.
Qed.

Lemma agrees_same (last now : Z) (windows : Windows) (history : list Z) :
  last <= now ->
  agrees operation limit last windows history ->
  match checkRateLimit operation now windows with
  | (inl _, windows') => agrees operation limit now windows' history
  | (inr _, windows') => agrees operation limit now windows' (history ++ [now])
  end.
Proof.
  intros Hle Hag.
  pose proof (checkRateLimit_step operation limit now windows Hlimit) as Hstep.
  cbv zeta in Hstep.
  destruct (checkRateLimit operation now windows) as [[e|[]] windows'].
  - destruct Hstep as [_ ->]. exact (agrees_later last now _ _ Hle Hag).
  - destruct Hstep as [Hroom ->]. destruct Hag as [Hsame Hbound].
    fold (stored operation windows) in Hroom. rewrite (Hsame now Hle) in Hroom.
    split.
    + intros now' Hnow'. unfold stored. rewrite lookup_insert_eq. simpl.
      rewrite !retained_app, retained_retained by exact Hnow'.
      fold (stored operation windows). rewrite Hsame by lia. reflexivity.
    + intros from. rewrite countIn_app.
      destruct (Z.leb_spec from now) as [Hlo|Hlo];
        [destruct (Z.ltb_spec now (from + windowMs limit)) as [Hhi|Hhi]|].
      * pose proof (countIn_retained limit from now history (conj Hlo Hhi)).
        assert (countIn from (windowMs limit) [now] <= 1) by (unfold countIn; simpl;
          destruct (_ && _); simpl; lia).
        lia.
      * specialize (Hbound from). unfold countIn at 2. simpl.
        destruct (Z.leb_spec from now); destruct (Z.ltb_spec now (from + windowMs limit));
          simpl; lia.
      * specialize (Hbound from). unfold countIn at 2. simpl.
        destruct (Z.leb_spec from now); simpl; lia.
Qed.

Lemma admitted_bounded (calls : list (string * Z)) :
  forall (last : Z) (windows : Windows) (history : list Z),
  agrees operation limit last windows history ->
  nondecreasing last calls = true ->
  forall from,
    countIn from (windowMs limit) (history ++ timestampsOf operation (admitted calls windows))
    <= maxRequests limit.
Proof.
  induction calls as [|[op now] calls IH]; intros last windows history Hag Hmono from.
  - simpl. unfold timestampsOf. simpl. rewrite app_nil_r. apply Hag.
  - simpl in Hmono. apply andb_prop in Hmono as [Hle Hmono]. apply Z.leb_le in Hle.
    simpl. destruct (String.eqb_spec op operation) as [->|Hne].
    + pose proof (agrees_same last now windows history Hle Hag) as Hstep.
      destruct (checkRateLimit operation now windows) as [[e|u] windows'].
      * eapply IH; eassumption.
      * rewrite timestampsOf_cons, String.eqb_refl, app_assoc.
        eapply IH; eassumption.
    + pose proof (agrees_other op last now windows history Hne Hle Hag) as Hstep.
      destruct (checkRateLimit op now windows) as [[e|u] windows']; simpl in Hstep.
      * eapply IH; eassumption.
      * rewrite timestampsOf_cons.
        destruct (String.eqb_spec op operation) as [Heq|_]; [contradiction|].
        simpl. eapply IH; eassumption.
Qed.

End SlidingWindow.

(** C3, as it holds. For every sequence of [checkRateLimit] calls whose clock
    readings never decrease, started on the empty map, and for every
    operation of the budget table, the admitted calls of that operation whose
    timestamps lie in any one window [[from, from + 60000)] number at most the
    budget (remember 30, recall 60, search 60, forget 10, context 20,
    observe 30, health 60). *)
Theorem admitted_within_budget (calls : list (string * Z)) (first : Z)
  (operation : string) (budget from : Z) :
  nondecreasing first calls = true ->
  In (operation, budget)
     [("remember", 30); ("recall", 60); ("search", 60); ("forget", 10);
      ("context", 20); ("observe", 30); ("health", 60)] ->
  countIn from 60000 (timestampsOf operation (admitted calls ∅)) <= budget.
Proof.
  intros Hmono Hin.
  pose proof (RATE_LIMITS_budgets operation budget Hin) as Hlim.
  apply (admitted_bounded operation _ Hlim calls first ∅ [] ); [|exact Hmono].
  split; [reflexivity|].
  intros from'. unfold countIn. simpl.
  destruct (RATE_LIMITS_inv _ _ Hlim) as [Hpos _]. simpl in Hpos. lia.
Qed.

Lemma admitted_within_budget_witness :
  countIn 0 60000
    (timestampsOf "forget"
       (admitted (List.map (pair "forget") [0; 0; 0; 0; 0; 0; 0; 0; 0; 0; 1; 2; 60000]) ∅))
  <= 10.
Proof.
  apply (admitted_within_budget _ 0 "forget" 10 0).
  - vm_compute. reflexivity.
  - simpl. tauto.
Defined.

(** C3 as stated, for arbitrary timestamps, fails: when the clock steps back
    (ten calls at 0, one at 60000 that prunes them, then nine at 1), nineteen
    [forget] calls are admitted with timestamps in [[0, 60000)]. *)
Lemma admitted_over_budget_on_clock_step_back :
  ~ (forall (calls : list (string * Z)) (operation : string) (budget from : Z),
       In (operation, budget)
          [("remember", 30); ("recall", 60); ("search", 60); ("forget", 10);
           ("context", 20); ("observe", 30); ("health", 60)] ->
       countIn from 60000 (timestampsOf operation (admitted calls ∅)) <= budget).
Proof.
  intros H.
  specialize (H (List.map (pair "forget")
                   [0; 0; 0; 0; 0; 0; 0; 0; 0; 0; 60000; 1; 1; 1; 1; 1; 1; 1; 1; 1])
                "forget" 10 0 ltac:(simpl; tauto)).
  vm_compute in H. apply H. reflexivity.
Qed.

(** ** The HTTP client *)

Lemma attempts_fetch (method url : string) (evs : list event) :
  attempts (EvFetch method url :: evs) = 1 + attempts evs.
Proof. unfold attempts. simpl. lia. Qed.

Lemma attempts_sleep (ms : Z) (evs : list event) :
  attempts (EvSleep ms :: evs) = attempts evs.
Proof. reflexivity. Qed.

Lemma attempts_nil : attempts [] = 0.
Proof. reflexivity. Qed.

Create Rewrite HintDb attempts.
#[global] Hint Rewrite attempts_fetch attempts_sleep attempts_nil : attempts.

Section Request.

Context {rt : Runtime}.
Variables (cfg : Config) (net : Network) (method path : string).

(** With more fuel than retries left, [request] returns, and it has called
    [fetch] at least once and at most once more than the retries left. *)
Lemma request_fuel_returns (fuel : nat) :
  forall (attempt : nat) (retries : Z) (lastHealthy : option string),
  (Z.to_nat retries < fuel)%nat ->
  exists r lh evs,
    request_fuel fuel cfg net attempt method path retries lastHealthy = Some (r, lh, evs)
    /\ 1 <= attempts evs <= Z.max 0 retries + 1.
Proof.
  induction fuel as [|fuel IH]; intros attempt retries lastHealthy Hfuel; [lia|].
  assert (Hrec : forall lh', 0 < retries ->
            exists r lh evs,
              request_fuel fuel cfg net (S attempt) method path (retries - 1) lh'
              = Some (r, lh, evs)
              /\ 1 <= attempts evs <= retries).
  { intros lh' Hpos. destruct (IH (S attempt) (retries - 1) lh' ltac:(lia))
      as (r & lh & evs & Heq & Hb). exists r, lh, evs. split; [exact Heq|lia]. }
  cbn [request_fuel].
  destruct (fetch net attempt) as [resp| |message];
  destruct (Z.ltb_spec 0 retries) as [Hpos|Hnone];
  rewrite ?andb_true_r, ?andb_false_r; cbv iota;
  repeat match goal with
  | |- context [request_fuel fuel cfg net (S attempt) method path (retries - 1) ?lh'] =>
      let r := fresh "r" in let lh := fresh "lh" in let evs := fresh "evs" in
      let Heq := fresh "Heq" in let Hb := fresh "Hb" in
      destruct (Hrec lh' Hpos) as (r & lh & evs & Heq & Hb); rewrite Heq
  | |- context [match ?x with _ => _ end] => destruct x
  | |- context [if ?b then _ else _] => destruct b
  end;
  (do 3 eexists; split; [reflexivity|]; autorewrite with attempts; lia).
Qed.

(** A connection-level failure ends the request at once, whatever retries
    are left, with the error flagged offline. *)
Lemma request_fuel_failed (fuel attempt : nat) (retries : Z) (lastHealthy : option string)
  (message : string) :
  fetch net attempt = Failed message ->
  request_fuel (S fuel) cfg net attempt method path retries lastHealthy
  = Some (inl (EngramError ("Cannot reach Engram backend: " +:+ message) 0 true),
          lastHealthy, [EvFetch method (baseUrl cfg +:+ path)]).
Proof. intros Hfetch. cbn [request_fuel]. rewrite Hfetch. reflexivity. Qed.

(** A response with a 5xx status and retries left: sleep one second, resend. *)
Lemma request_fuel_5xx (fuel attempt : nat) (retries : Z) (lastHealthy : option string)
  (resp : Response) :
  fetch net attempt = Responded resp ->
  500 <= status resp -> 0 < retries ->
  request_fuel (S fuel) cfg net attempt method path retries lastHealthy
  = match request_fuel fuel cfg net (S attempt) method path (retries - 1) lastHealthy with
    | Some (r, lh, evs) =>
        Some (r, lh, EvFetch method (baseUrl cfg +:+ path) :: EvSleep 1000 :: evs)
    | None => None
    end.
Proof.
  intros Hfetch Hstatus Hretries. cbn [request_fuel]. rewrite Hfetch.
  unfold ok.
  destruct (Z.leb_spec (status resp) 299); [lia|]. rewrite andb_false_r.
  destruct (Z.eqb_spec (status resp) 401); [lia|].
  destruct (Z.eqb_spec (status resp) 403); [lia|].
  destruct (Z.eqb_spec (status resp) 404); [lia|].
  destruct (Z.eqb_spec (status resp) 429); [lia|].
  simpl.
  destruct (Z.geb_spec (status resp) 500); [|lia].
  destruct (Z.ltb_spec 0 retries); [|lia].
  reflexivity.
Qed.

(** A timeout with retries left: resend, with nothing in between. *)
Lemma request_fuel_aborted (fuel attempt : nat) (retries : Z) (lastHealthy : option string) :
  fetch net attempt = Aborted ->
  request_fuel (S fuel) cfg net attempt method path retries lastHealthy
  = if 0 <? retries then
      match request_fuel fuel cfg net (S attempt) method path (retries - 1) lastHealthy with
      | Some (r, lh, evs) => Some (r, lh, EvFetch method (baseUrl cfg +:+ path) :: evs)
      | None => None
      end
    else Some (inl (EngramError "Request timed out" 0 true), lastHealthy,
               [EvFetch method (baseUrl cfg +:+ path)]).
Proof. intros Hfetch. cbn [request_fuel]. rewrite Hfetch. reflexivity. Qed.

(** A 2xx response whose body decodes: the value is returned and the time of
    the response becomes [lastHealthy]. *)
Lemma request_fuel_ok (fuel attempt : nat) (retries : Z) (lastHealthy : option string)
  (resp : Response) (text : string) (v : option json) :
  fetch net attempt = Responded resp ->
  ok resp = true -> body resp = BodyText text -> decoded text = inr v ->
  request_fuel (S fuel) cfg net attempt method path retries lastHealthy
  = Some (inr v, Some (toISOString net attempt), [EvFetch method (baseUrl cfg +:+ path)]).
Proof.
  intros Hfetch Hok Hbody Hdec. cbn [request_fuel].
  rewrite Hfetch, Hok, Hbody, Hdec. reflexivity.
Qed.

(** When every attempt times out, the request uses all its retries and ends
    with the timeout error, which carries the offline flag. *)
Lemma request_fuel_all_aborted (fuel : nat) :
  (forall i, fetch net i = Aborted) ->
  forall (attempt : nat) (retries : Z) (lastHealthy : option string),
  (Z.to_nat retries < fuel)%nat ->
  exists evs,
    request_fuel fuel cfg net attempt method path retries lastHealthy
    = Some (inl (EngramError "Request timed out" 0 true), lastHealthy, evs)
    /\ attempts evs = Z.max 0 retries + 1
    /\ Forall (fun e => e = EvFetch method (baseUrl cfg +:+ path)) evs.
Proof.
  intros Hall. induction fuel as [|fuel IH]; intros attempt retries lastHealthy Hfuel; [lia|].
  rewrite request_fuel_aborted by apply Hall.
  destruct (Z.ltb_spec 0 retries) as [Hpos|Hnone].
  - destruct (IH (S attempt) (retries - 1) lastHealthy ltac:(lia)) as (evs & -> & Hn & Hevs).
    eexists. split; [reflexivity|]. split.
    + autorewrite with attempts. lia.
    + constructor; [reflexivity|exact Hevs].
  - eexists. split; [reflexivity|]. split.
    + autorewrite with attempts. lia.
    + repeat constructor.
Qed.

End Request.

Section RequestOnce.

Context {rt : Runtime}.
Variables (cfg : Config) (net : Network) (method path : string).

(** Retries apply to transient failures only: after any other outcome the
    request ends with the one [fetch] it made. *)
Lemma request_fuel_single (fuel attempt : nat) (retries : Z) (lastHealthy : option string) :
  transient (fetch net attempt) = false ->
  exists r lh,
    request_fuel (S fuel) cfg net attempt method path retries lastHealthy
    = Some (r, lh, [EvFetch method (baseUrl cfg +:+ path)]).
Proof.
  intros Hnot. cbn [request_fuel]. unfold transient in Hnot.
  destruct (fetch net attempt) as [resp| |message]; [|discriminate|].
  - destruct (ok resp).
    + destruct (body resp) as [text| |message]; [|discriminate|].
      * destruct (decoded text); do 2 eexists; reflexivity.
      * do 2 eexists; reflexivity.
    + rewrite Hnot. cbn [andb].
      repeat match goal with
      | |- context [if ?b then _ else _] => destruct b
      end; do 2 eexists; reflexivity.
  - do 2 eexists; reflexivity.
Qed.

End RequestOnce.

(** ** The handlers *)

Ltac unfold_handler :=
  unfold handler, staged, engram_remember, engram_recall, engram_search, engram_forget,
    engram_context, engram_observe, handled, validation, route, finish, operationKey, label;
  unfold mbind, M_bind, bind, mret, M_ret, ret, pure, rateLimit, apiRequest.

Lemma handler_staged {rt : Runtime} (t : tool) (args : Args) (env : Env) (st : State) :
  handler t args env st = staged t args env st.
Proof.
  destruct t; unfold_handler; simpl;
  match goal with
  | |- context [checkRateLimit ?op ?n ?w] => destruct (checkRateLimit op n w) as [[e|[]] w']
  end; simpl; try reflexivity;
  repeat match goal with
  | |- context [validateContent ?x] => destruct (validateContent x); simpl; try reflexivity
  | |- context [validateQuery ?x] => destruct (validateQuery x); simpl; try reflexivity
  | |- context [validateLayer ?x] => destruct (validateLayer x); simpl; try reflexivity
  | |- context [validateLayers ?x] => destruct (validateLayers x); simpl; try reflexivity
  | |- context [validateTags ?x] => destruct (validateTags x); simpl; try reflexivity
  end;
  try (unfold validateId; destruct (prop args "memoryId"); simpl; try reflexivity;
       match goal with |- context [ID_PATTERN_test ?s] => destruct (ID_PATTERN_test s) end;
       simpl; try reflexivity);
  match goal with
  | |- context [request ?c ?n ?m ?p ?l] => destruct (request c n m p l) as [[[[e|v] lh] evs]|]
  end; simpl; try reflexivity;
  try (match goal with
       | |- context [reply ?n ?v] => destruct (reply n v)
       end; simpl);
  rewrite ?app_nil_r; reflexivity.
Qed.

(** Every handler returns: the fuel of its request never runs out. *)
Lemma handler_returns {rt : Runtime} (t : tool) (args : Args) (env : Env) (st : State) :
  exists r st' evs, handler t args env st = Some (r, st', evs).
Proof.
  rewrite handler_staged. unfold staged.
  destruct (checkRateLimit _ _ _) as [[e|u] w]; [eauto|].
  destruct (validation t args); [eauto|].
  unfold request.
  destruct (request_fuel_returns (config env) (net env) (route t args).1 (route t args).2
              (S (Z.to_nat (maxRetries (config env)))) 0 (maxRetries (config env))
              (lastHealthy st) ltac:(lia)) as (r & lh & evs & -> & _).
  destruct r; eauto.
Qed.

Lemma operationKey_limited (t : tool) : is_Some (RATE_LIMITS !! operationKey t).
Proof. destruct t; vm_compute; eauto. Qed.

Lemma state_eta (st : State) :
  {| windows := windows st; lastHealthy := lastHealthy st |} = st.
Proof. destruct st. reflexivity. Qed.

(** C6. With a retry budget that is not negative, a request returns after at
    least one and at most [maxRetries + 1] sends. With a budget of 2 and a
    transport that answers the first two sends with a 5xx status and the
    third with a 2xx response whose body decodes, the request returns the
    decoded value after exactly 3 sends. *)
Theorem request_attempts {rt : Runtime} (cfg : Config) (net : Network)
  (method path : string) (lastHealthy : option string) :
  0 <= maxRetries cfg ->
  (exists r lh evs,
     request cfg net method path lastHealthy = Some (r, lh, evs)
     /\ 1 <= attempts evs <= maxRetries cfg + 1)
  /\ (forall (r1 r2 r3 : Response) (text : string) (v : option json),
        maxRetries cfg = 2 ->
        fetch net 0 = Responded r1 -> 500 <= status r1 ->
        fetch net 1 = Responded r2 -> 500 <= status r2 ->
        fetch net 2 = Responded r3 -> ok r3 = true ->
        body r3 = BodyText text -> decoded text = inr v ->
        exists evs,
          request cfg net method path lastHealthy
          = Some (inr v, Some (toISOString net 2), evs)
          /\ attempts evs = 3).
Proof.
  intros Hbudget. split.
  - destruct (request_fuel_returns cfg net method path (S (Z.to_nat (maxRetries cfg)))
                0 (maxRetries cfg) lastHealthy ltac:(lia)) as (r & lh & evs & Heq & Hb).
    exists r, lh, evs. split; [exact Heq|lia].
  - intros r1 r2 r3 text v Hmax H1 Hs1 H2 Hs2 H3 Hok Hbody Hdec.
    unfold request. rewrite Hmax. change (S (Z.to_nat 2)) with 3%nat.
    rewrite (request_fuel_5xx _ _ _ _ _ _ _ _ r1) by (assumption || lia).
    rewrite (request_fuel_5xx _ _ _ _ _ _ _ _ r2) by (assumption || lia).
    rewrite (request_fuel_ok _ _ _ _ _ _ _ _ r3 text v) by assumption.
    eexists. split; [reflexivity|]. reflexivity.
Qed.

Lemma request_attempts_witness :
  exists evs,
    request (rt := Demo.runtime) Demo.cfg
      (Demo.scripted [Demo.respond 503 "busy"; Demo.respond 500 "busy";
                         Demo.respond 200 "{}"])
      "GET" "/v1/health" None
    = Some (inr (Some "{}"), Some "2026-01-01T00:00:02.000Z", evs)
    /\ attempts evs = 3.
Proof.
  apply (proj2 (request_attempts (rt := Demo.runtime) Demo.cfg
                  (Demo.scripted [Demo.respond 503 "busy"; Demo.respond 500 "busy";
                                     Demo.respond 200 "{}"])
                  "GET" "/v1/health" None ltac:(simpl; lia))
           {| status := 503; statusText := ""; retryAfterHeader := None;
              body := BodyText "busy" |}
           {| status := 500; statusText := ""; retryAfterHeader := None;
              body := BodyText "busy" |}
           {| status := 200; statusText := ""; retryAfterHeader := None;
              body := BodyText "{}" |}
           "{}" (Some "{}"));
    first [reflexivity | simpl; lia].
Defined.

(** C5, evaluated at the input that breaks it. With one retry left, a
    timeout followed by a success yields two sends with no wait between
    them, whereas a 5xx response followed by a success yields the two sends
    with the one-second wait between them. *)
Theorem retry_after_timeout_does_not_wait :
  request (rt := Demo.runtime) Demo.cfg
    (Demo.scripted [Aborted; Demo.respond 200 "{}"]) "GET" "/v1/health" None
  = Some (inr (Some "{}"), Some "2026-01-01T00:00:01.000Z",
          [EvFetch "GET" "http://localhost:3001/v1/health";
           EvFetch "GET" "http://localhost:3001/v1/health"])
  /\ request (rt := Demo.runtime) Demo.cfg
       (Demo.scripted [Demo.respond 503 "busy"; Demo.respond 200 "{}"])
       "GET" "/v1/health" None
     = Some (inr (Some "{}"), Some "2026-01-01T00:00:01.000Z",
             [EvFetch "GET" "http://localhost:3001/v1/health";
              EvSleep 1000;
              EvFetch "GET" "http://localhost:3001/v1/health"]).
Proof. split; vm_compute; reflexivity. Qed.

Section Handlers.

Context {rt : Runtime}.

(** A handler whose limiter and validators pass, on a transport where every
    attempt times out. *)
Lemma handler_all_aborted (t : tool) (args : Args) (env : Env) (st : State) (w : Windows) :
  checkRateLimit (operationKey t) (now env) (windows st) = (inr tt, w) ->
  validation t args = inr tt ->
  (forall i, fetch (net env) i = Aborted) ->
  exists evs,
    handler t args env st
    = Some (error (offlineText (label t) (lastHealthy st)),
            {| windows := w; lastHealthy := lastHealthy st |}, evs)
    /\ attempts evs = Z.max 0 (maxRetries (config env)) + 1.
Proof.
  intros Hlimit Hvalid Hall. rewrite handler_staged. unfold staged.
  rewrite Hlimit, Hvalid. unfold request.
  destruct (request_fuel_all_aborted (config env) (net env) (route t args).1 (route t args).2
              (S (Z.to_nat (maxRetries (config env)))) Hall 0 (maxRetries (config env))
              (lastHealthy st) ltac:(lia)) as (evs & -> & Hn & _).
  exists evs. split; [reflexivity|exact Hn].
Qed.

(** The same handler on a transport whose first [fetch] is a connection
    failure. *)
Lemma handler_failed (t : tool) (args : Args) (env : Env) (st : State) (w : Windows)
  (message : string) :
  checkRateLimit (operationKey t) (now env) (windows st) = (inr tt, w) ->
  validation t args = inr tt ->
  fetch (net env) 0 = Failed message ->
  handler t args env st
  = Some (error (offlineText (label t) (lastHealthy st)),
          {| windows := w; lastHealthy := lastHealthy st |},
          [EvFetch (route t args).1 (baseUrl (config env) +:+ (route t args).2)]).
Proof.
  intros Hlimit Hvalid Hfail. rewrite handler_staged. unfold staged.
  rewrite Hlimit, Hvalid. unfold request.
  rewrite (request_fuel_failed _ _ _ _ _ _ _ _ message Hfail). reflexivity.
Qed.

(** C1, as it holds. Once the retries are used up, a request whose attempts
    all timed out throws the error [Request timed out] with status 0 and the
    offline flag set, after [maxRetries + 1] sends (one send when the budget
    is not positive). The handler renders it with the degraded-mode message
    and the last healthy timestamp, which is the very result it gives for a
    connection-level failure. *)
Theorem timeout_reported_as_offline (t : tool) (args : Args) (env : Env) (st : State)
  (w : Windows) :
  checkRateLimit (operationKey t) (now env) (windows st) = (inr tt, w) ->
  validation t args = inr tt ->
  (forall i, fetch (net env) i = Aborted) ->
  (exists evs,
     request (config env) (net env) (route t args).1 (route t args).2 (lastHealthy st)
     = Some (inl (EngramError "Request timed out" 0 true), lastHealthy st, evs)
     /\ attempts evs = Z.max 0 (maxRetries (config env)) + 1)
  /\ (exists evs,
        handler t args env st
        = Some (error (offlineText (label t) (lastHealthy st)),
                {| windows := w; lastHealthy := lastHealthy st |}, evs))
  /\ (forall (refused : Network) (message : string),
        fetch refused 0 = Failed message ->
        exists evs evs',
          handler t args env st
          = Some (error (offlineText (label t) (lastHealthy st)),
                  {| windows := w; lastHealthy := lastHealthy st |}, evs)
          /\ handler t args {| config := config env; now := now env; net := refused |} st
             = Some (error (offlineText (label t) (lastHealthy st)),
                     {| windows := w; lastHealthy := lastHealthy st |}, evs')).
Proof.
  intros Hlimit Hvalid Hall.
  destruct (handler_all_aborted t args env st w Hlimit Hvalid Hall) as (evs & Hrun & Hn).
  split; [|split].
  - unfold request.
    destruct (request_fuel_all_aborted (config env) (net env) (route t args).1
                (route t args).2 (S (Z.to_nat (maxRetries (config env)))) Hall 0
                (maxRetries (config env)) (lastHealthy st) ltac:(lia)) as (evs0 & Heq & Hn0 & _).
    exists evs0. split; assumption.
  - exists evs. exact Hrun.
  - intros refused message Hfail. exists evs. eexists. split; [exact Hrun|].
    apply (handler_failed t args {| config := config env; now := now env; net := refused |}
             st w message); assumption.
Qed.

(** C7, as it holds. A connection-level failure ends the request at the
    attempt where it occurs, whatever retries are left, with the error flagged
    offline. The handler then answers with the degraded-mode message, which
    ends after [backend.] when no response has succeeded before and continues
    with [Last seen:] and the timestamp of the latest success otherwise. *)
Theorem connection_failure_reported_offline (t : tool) (args : Args) (env : Env)
  (st : State) (w : Windows) (message : string) :
  checkRateLimit (operationKey t) (now env) (windows st) = (inr tt, w) ->
  validation t args = inr tt ->
  fetch (net env) 0 = Failed message ->
  (forall (fuel attempt : nat) (retries : Z) (method path : string) (lh : option string)
          (net' : Network) (message' : string),
     fetch net' attempt = Failed message' ->
     request_fuel (S fuel) (config env) net' attempt method path retries lh
     = Some (inl (EngramError ("Cannot reach Engram backend: " +:+ message') 0 true), lh,
             [EvFetch method (baseUrl (config env) +:+ path)]))
  /\ handler t args env st
     = Some (error (offlineText (label t) (lastHealthy st)),
             {| windows := w; lastHealthy := lastHealthy st |},
             [EvFetch (route t args).1 (baseUrl (config env) +:+ (route t args).2)])
  /\ (lastHealthy st = None ->
      offlineText (label t) (lastHealthy st)
      = "Memory " +:+ label t +:+ " unavailable — cannot reach Engram backend.")
  /\ (forall seen, lastHealthy st = Some seen -> seen <> "" ->
      offlineText (label t) (lastHealthy st)
      = "Memory " +:+ label t +:+ " unavailable — cannot reach Engram backend."
        +:+ " Last seen: " +:+ seen).
Proof.
  intros Hlimit Hvalid Hfail. split; [|split; [|split]].
  - intros fuel attempt retries method path lh net' message' Hfail'.
    apply request_fuel_failed, Hfail'.
  - apply (handler_failed t args env st w message); assumption.
  - intros ->. reflexivity.
  - intros seen -> Hseen. unfold offlineText, truthy.
    destruct (String.eqb_spec seen ""); [contradiction|reflexivity].
Qed.

End Handlers.

Lemma timeout_reported_as_offline_witness :
  exists evs,
    handler (rt := Demo.runtime) Forget (Demo.forgetArgs "abc")
      (Demo.env Demo.aborting) Demo.fresh
    = Some (error (offlineText "deletion" None),
            {| windows := Demo.recorded; lastHealthy := None |}, evs).
Proof.
  exact (proj1 (proj2 (timeout_reported_as_offline (rt := Demo.runtime) Forget
                         (Demo.forgetArgs "abc") (Demo.env Demo.aborting)
                         Demo.fresh (Demo.recorded)
                         ltac:(vm_compute; reflexivity) ltac:(vm_compute; reflexivity)
                         (fun i => eq_refl)))).
Defined.

(** C1 as stated fails: the error of an exhausted timeout carries the offline
    flag, and the handler's reply to it is the reply to a refused connection,
    letter for letter. *)
Lemma timeout_not_told_apart_from_offline :
  request (rt := Demo.runtime) Demo.cfg Demo.aborting "DELETE" "/v1/memories/abc" None
  = Some (inl (EngramError "Request timed out" 0 true), None,
          [EvFetch "DELETE" "http://localhost:3001/v1/memories/abc";
           EvFetch "DELETE" "http://localhost:3001/v1/memories/abc";
           EvFetch "DELETE" "http://localhost:3001/v1/memories/abc"])
  /\ Demo.resultOf (handler (rt := Demo.runtime) Forget (Demo.forgetArgs "abc")
                         (Demo.env Demo.aborting) Demo.fresh)
     = Some {| text := "Memory deletion unavailable — cannot reach Engram backend.";
               isError := true |}
  /\ Demo.resultOf (handler (rt := Demo.runtime) Forget (Demo.forgetArgs "abc")
                         (Demo.env (Demo.scripted [])) Demo.fresh)
     = Some {| text := "Memory deletion unavailable — cannot reach Engram backend.";
               isError := true |}.
Proof. repeat split; vm_compute; reflexivity. Qed.

Lemma connection_failure_reported_offline_witness :
  handler (rt := Demo.runtime) Forget (Demo.forgetArgs "abc")
    (Demo.env (Demo.scripted [])) Demo.seen
  = Some (error (offlineText "deletion" (Some "2026-01-01T00:00:00.000Z")),
          {| windows := Demo.recorded;
             lastHealthy := Some "2026-01-01T00:00:00.000Z" |},
          [EvFetch "DELETE" "http://localhost:3001/v1/memories/abc"])
  /\ offlineText "deletion" (Some "2026-01-01T00:00:00.000Z")
     = "Memory deletion unavailable — cannot reach Engram backend. Last seen: 2026-01-01T00:00:00.000Z".
Proof.
  pose proof (connection_failure_reported_offline (rt := Demo.runtime) Forget
                (Demo.forgetArgs "abc") (Demo.env (Demo.scripted []))
                Demo.seen (Demo.recorded) "ECONNREFUSED"
                ltac:(vm_compute; reflexivity) ltac:(vm_compute; reflexivity)
                ltac:(reflexivity)) as (_ & Hrun & _ & Hseen).
  split.
  - exact Hrun.
  - apply (Hseen "2026-01-01T00:00:00.000Z"); [reflexivity|discriminate].
Defined.

Lemma mentions_finds : mentions "unset" "Last seen: unset" = true.
Proof. reflexivity. Qed.

(** C7 as stated fails: with no success before, the reply to a refused
    connection stops after [backend.] and the word [unset] is not in it. *)
Lemma offline_message_without_unset :
  lastHealthy Demo.fresh = None
  /\ Demo.resultOf (handler (rt := Demo.runtime) Forget (Demo.forgetArgs "abc")
                         (Demo.env (Demo.scripted [])) Demo.fresh)
     = Some {| text := "Memory deletion unavailable — cannot reach Engram backend.";
               isError := true |}
  /\ mentions "unset" "Memory deletion unavailable — cannot reach Engram backend." = false.
Proof. repeat split; vm_compute; reflexivity. Qed.

(** C2, as it holds. In every handler the rate limiter runs first and the
    validators after it. A call the limiter rejects gets the rate-limit error
    whatever its arguments are, and the state is left as it was. A call the
    limiter admits and a validator then rejects gets the validation error
    without any network activity, and its timestamp has by then been
    appended to the window of its operation: it has used a slot. *)
Theorem rate_limit_runs_before_validation {rt : Runtime} (t : tool) (args : Args)
  (env : Env) (st : State) :
  (forall (e : exn) (w : Windows),
     checkRateLimit (operationKey t) (now env) (windows st) = (inl e, w) ->
     forall args', handler t args' env st
                   = Some (handleError e (label t) (lastHealthy st), st, []))
  /\ (forall (e : exn) (w : Windows),
        checkRateLimit (operationKey t) (now env) (windows st) = (inr tt, w) ->
        validation t args = inl e ->
        handler t args env st
        = Some (handleError e (label t) (lastHealthy st),
                {| windows := w; lastHealthy := lastHealthy st |}, [])
        /\ exists limit,
             RATE_LIMITS !! operationKey t = Some limit
             /\ w = <[operationKey t :=
                       retained limit (now env) (default [] (windows st !! operationKey t))
                       ++ [now env]]> (windows st)).
Proof.
  destruct (operationKey_limited t) as [limit Hlim].
  pose proof (checkRateLimit_step (operationKey t) limit (now env) (windows st) Hlim) as Hstep.
  cbv zeta in Hstep.
  split.
  - intros e w Hcheck args'. rewrite handler_staged. unfold staged.
    rewrite Hcheck in *. destruct Hstep as [_ ->]. rewrite state_eta. reflexivity.
  - intros e w Hcheck Hinvalid. rewrite handler_staged. unfold staged.
    rewrite Hcheck in *. rewrite Hinvalid. split; [reflexivity|].
    exists limit. split; [exact Hlim|]. apply Hstep.
Qed.

Lemma rate_limit_runs_before_validation_witness :
  handler (rt := Demo.runtime) Forget (Demo.forgetArgs "../etc")
    (Demo.env (Demo.scripted [])) Demo.fresh
  = Some (error "Validation error: Invalid ID format. Must be 1-128 alphanumeric characters, hyphens, or underscores.",
          {| windows := Demo.recorded; lastHealthy := None |}, []).
Proof.
  apply (proj2 (rate_limit_runs_before_validation (rt := Demo.runtime) Forget
                  (Demo.forgetArgs "../etc") (Demo.env (Demo.scripted []))
                  Demo.fresh)
           (Error "Invalid ID format. Must be 1-128 alphanumeric characters, hyphens, or underscores.")
           (Demo.recorded)).
  - vm_compute. reflexivity.
  - vm_compute. reflexivity.
Defined.

(** C2 as stated fails: a [forget] call with an id that validation rejects
    leaves its timestamp in the window of [forget], which was empty before. *)
Lemma failed_validation_uses_a_slot :
  validation (rt := Demo.runtime) Forget (Demo.forgetArgs "../etc")
  = inl (Error "Invalid ID format. Must be 1-128 alphanumeric characters, hyphens, or underscores.")
  /\ windows Demo.fresh !! "forget" = None
  /\ (Demo.windowsOf (handler (rt := Demo.runtime) Forget (Demo.forgetArgs "../etc")
                           (Demo.env (Demo.scripted [])) Demo.fresh)
       ≫= (fun w => w !! "forget"))
     = Some [5].
Proof. repeat split; vm_compute; reflexivity. Qed.

(** * Further properties of the sources *)

(** ** Validator: what the accepted values look like *)

Lemma stripControl_sublist (s : jsstring) : sublist (stripControl s) s.
Proof.
  unfold stripControl. induction s as [|c s IH]; simpl; [constructor|].
  destruct (isControl c); simpl; [apply sublist_cons|apply sublist_skip]; exact IH.
Qed.

Lemma trim_sublist (s : jsstring) : sublist (trim s) s.
Proof.
  unfold trim, trimStart.
  destruct (trimEnd_prefix (dropWhile isWhiteSpace s)) as [suf Hsuf].
  destruct (dropWhile_suffix isWhiteSpace s) as [pre Hpre].
  transitivity (dropWhile isWhiteSpace s).
  - rewrite Hsuf at 2. apply sublist_inserts_r. reflexivity.
  - rewrite Hpre at 2. apply sublist_inserts_l. reflexivity.
Qed.

Lemma trimEnd_last (s init : jsstring) (c : N) :
  trimEnd s = init ++ [c] -> isWhiteSpace c = false.
Proof.
  unfold trimEnd. intros H.
  apply (f_equal (@rev N)) in H. rewrite rev_involutive, rev_app_distr in H. simpl in H.
  exact (dropWhile_head _ _ _ _ H).
Qed.

Lemma trimStart_head (s rest : jsstring) (c : N) :
  trim s = c :: rest -> isWhiteSpace c = false.
Proof.
  intros H. pose proof (trimStart_trim s) as Hfix. unfold trimStart in Hfix.
  rewrite H in Hfix. simpl in Hfix.
  destruct (isWhiteSpace c) eqn:Hc; [|reflexivity].
  exfalso. destruct (dropWhile_suffix isWhiteSpace rest) as [pre Hpre].
  rewrite Hfix in Hpre. apply (f_equal (@length N)) in Hpre.
  rewrite length_app in Hpre. simpl in Hpre. lia.
Qed.

Lemma sanitizeString_sublist (s : jsstring) : sublist (sanitizeString s) s.
Proof.
  unfold sanitizeString.
  transitivity (stripControl s); [apply trim_sublist|apply stripControl_sublist].
Qed.

Lemma sanitizeString_clean (s : jsstring) :
  Forall (fun c => isControl c = false) (sanitizeString s).
Proof. unfold sanitizeString. apply trim_Forall, stripControl_clean. Qed.

(** X1. What [sanitizeString] returns is the input with characters deleted
    and nothing else (a subsequence of it), holds none of the control
    characters of the class, and neither starts nor ends with white space. *)
Theorem sanitizeString_shape (s : jsstring) :
  sublist (sanitizeString s) s
  /\ Forall (fun c => isControl c = false) (sanitizeString s)
  /\ (forall c rest, sanitizeString s = c :: rest -> isWhiteSpace c = false)
  /\ (forall init c, sanitizeString s = init ++ [c] -> isWhiteSpace c = false).
Proof.
  split; [apply sanitizeString_sublist|]. split; [apply sanitizeString_clean|].
  unfold sanitizeString. split.
  - intros c rest. apply trimStart_head.
  - intros init c. unfold trim. apply trimEnd_last.
Qed.

Lemma trim_fixed (s : jsstring) :
  (forall c, head s = Some c -> isWhiteSpace c = false) ->
  (forall c, last s = Some c -> isWhiteSpace c = false) ->
  trim s = s.
Proof.
  intros Hhead Hlast. unfold trim, trimStart, trimEnd.
  rewrite (dropWhile_fixed isWhiteSpace s).
  - rewrite (dropWhile_fixed isWhiteSpace (rev s)); [apply rev_involutive|].
    intros c rest Hrev. apply Hlast.
    apply (f_equal (@rev N)) in Hrev. rewrite rev_involutive in Hrev. simpl in Hrev.
    rewrite Hrev. apply last_snoc.
  - intros c rest ->. apply Hhead. reflexivity.
Qed.

Lemma sanitizeString_fixed (s : jsstring) :
  Forall (fun c => isControl c = false) s ->
  (forall c, head s = Some c -> isWhiteSpace c = false) ->
  (forall c, last s = Some c -> isWhiteSpace c = false) ->
  sanitizeString s = s.
Proof.
  intros Hclean Hhead Hlast. unfold sanitizeString.
  rewrite stripControl_fixed by exact Hclean. apply trim_fixed; assumption.
Qed.

(** X2. A string that holds no control character of the class and neither
    starts nor ends with white space comes out of [sanitizeString] unchanged;
    tabs, newlines and other white space inside it are kept. *)
Theorem sanitizeString_keeps_clean (s : jsstring) :
  Forall (fun c => isControl c = false) s ->
  (forall c, head s = Some c -> isWhiteSpace c = false) ->
  (forall c, last s = Some c -> isWhiteSpace c = false) ->
  sanitizeString s = s.
Proof.
  apply sanitizeString_fixed.
Qed.

Lemma sanitizeString_keeps_clean_witness :
  sanitizeString (lit "line one" ++ [10%N; 9%N] ++ lit "line two")
  = lit "line one" ++ [10%N; 9%N] ++ lit "line two".
Proof.
  apply sanitizeString_keeps_clean.
  - vm_compute. repeat constructor.
  - vm_compute. intros c [= <-]. reflexivity.
  - vm_compute. intros c [= <-]. reflexivity.
Defined.

Lemma len_sublist (a b : jsstring) : sublist a b -> len a <= len b.
Proof. intros H. unfold len. apply sublist_length in H. lia. Qed.

(** X3. [validateId] accepts a value exactly when it is a string of 1 to 128
    characters, each a letter, a digit, an underscore or a hyphen, and
    returns that string as it is. A string that holds a slash, a dot or a
    space is therefore always rejected. *)
Theorem validateId_accepts_exactly (id : jsval) (out : jsstring) :
  (validateId id = inr out <->
   id = JString out /\ 1 <= len out <= 128
   /\ Forall (fun c => (97 <= c <= 122 \/ 65 <= c <= 90 \/ 48 <= c <= 57
                        \/ c = 95 \/ c = 45)%N) out)
  /\ (forall s, (In 47%N s \/ In 46%N s \/ In 32%N s) ->
        exists e, validateId (JString s) = inl e).
Proof.
  assert (Hchar : forall c, isIdChar c = true <->
            (97 <= c <= 122 \/ 65 <= c <= 90 \/ 48 <= c <= 57 \/ c = 95 \/ c = 45)%N).
  { intros c. unfold isIdChar.
    rewrite !orb_true_iff, !andb_true_iff, !N.leb_le, !N.eqb_eq. tauto. }
  assert (Hall : forall s, forallb isIdChar s = true <->
            Forall (fun c => (97 <= c <= 122 \/ 65 <= c <= 90 \/ 48 <= c <= 57
                              \/ c = 95 \/ c = 45)%N) s).
  { intros s. rewrite forallb_forall, Forall_forall.
    split; intros H c Hc; apply Hchar, H; [apply list_elem_of_In|apply list_elem_of_In in Hc];
      exact Hc. }
  split.
  - unfold validateId, ID_PATTERN_test. split.
    + destruct id; try discriminate.
      destruct (forallb isIdChar s) eqn:Hs; simpl; [|discriminate].
      destruct (Z.leb_spec 1 (len s)); simpl; [|discriminate].
      destruct (Z.leb_spec (len s) 128); simpl; [|discriminate].
      intros [= <-]. split; [reflexivity|]. split; [lia|]. apply Hall, Hs.
    + intros (-> & Hlen & Hchars). apply Hall in Hchars. rewrite Hchars. simpl.
      destruct (Z.leb_spec 1 (len out)); [|lia].
      destruct (Z.leb_spec (len out) 128); [|lia]. reflexivity.
  - intros s Hbad. unfold validateId, ID_PATTERN_test.
    destruct (forallb isIdChar s) eqn:Hs; simpl; [|eauto].
    exfalso. rewrite forallb_forall in Hs.
    destruct Hbad as [H|[H|H]]; apply Hs in H; discriminate.
Qed.

Lemma dropWhile_nil_iff {A : Type} (p : A -> bool) (l : list A) :
  dropWhile p l = [] <-> Forall (fun x => p x = true) l.
Proof.
  induction l as [|x l IH]; simpl.
  - split; [constructor|reflexivity].
  - destruct (p x) eqn:Hx.
    + rewrite IH. split; [intros H; constructor; assumption|].
      intros H. apply Forall_cons in H as [_ H]. exact H.
    + split; [discriminate|]. intros H. apply Forall_cons in H as [H _]. congruence.
Qed.

(** A string trims to nothing exactly when it is all white space. *)
Lemma trim_nil_iff (s : jsstring) :
  trim s = [] <-> Forall (fun c => isWhiteSpace c = true) s.
Proof.
  split.
  - intros H. apply dropWhile_nil_iff.
    destruct (dropWhile isWhiteSpace s) as [|c rest] eqn:Hd; [reflexivity|].
    exfalso. pose proof (dropWhile_head _ _ _ _ Hd) as Hc.
    unfold trim, trimStart, trimEnd in H. rewrite Hd in H.
    assert (Hnil : dropWhile isWhiteSpace (rev (c :: rest)) = []).
    { apply (f_equal (@rev N)) in H. rewrite rev_involutive in H. exact H. }
    apply dropWhile_nil_iff, Forall_rev in Hnil. rewrite rev_involutive in Hnil.
    apply Forall_cons in Hnil as [Hnil _]. congruence.
  - intros H. unfold trim, trimStart. apply dropWhile_nil_iff in H. rewrite H. reflexivity.
Qed.

Lemma Forall_sublist_of {A : Type} (P : A -> Prop) (a b : list A) :
  sublist a b -> Forall P b -> Forall P a.
Proof.
  induction 1 as [|x a b _ IH|x a b _ IH]; intros H; [constructor| |].
  - apply Forall_cons in H as [Hx H]. constructor; [exact Hx|apply IH, H].
  - apply Forall_cons in H as [_ H]. apply IH, H.
Qed.

Lemma len_nil_iff (s : jsstring) : len s = 0 <-> s = [].
Proof. unfold len. destruct s; simpl; split; intros; (reflexivity || discriminate || lia). Qed.

Lemma sanitizeString_nonblank (s : jsstring) :
  0 < len (sanitizeString s) -> (len (trim s) =? 0) = false.
Proof.
  intros Hpos. apply Z.eqb_neq. intros Hz. apply len_nil_iff, trim_nil_iff in Hz.
  assert (Hblank : sanitizeString s = []).
  { unfold sanitizeString. apply trim_nil_iff.
    exact (Forall_sublist_of _ _ _ (stripControl_sublist s) Hz). }
  rewrite Hblank in Hpos. unfold len in Hpos. simpl in Hpos. lia.
Qed.

(** X4. The contract of [validateContent]. An accepted value is the
    sanitized input: no control characters, no white space at either end, at
    most 50000 characters and never longer than the input. A clean string of
    1 to 50000 characters is returned unchanged; a string whose sanitized
    form is longer than 50000 is rejected with the message that names the
    limit; a value that is not a string, or a string of white space only
    (the empty one included), is rejected as empty. *)
Theorem validateContent_contract :
  (forall content out,
     validateContent content = inr out ->
     exists s, content = JString s /\ out = sanitizeString s
               /\ Forall (fun c => isControl c = false) out
               /\ trim out = out /\ len out <= 50000 /\ len out <= len s)
  /\ (forall s,
        Forall (fun c => isControl c = false) s ->
        (forall c, head s = Some c -> isWhiteSpace c = false) ->
        (forall c, last s = Some c -> isWhiteSpace c = false) ->
        1 <= len s <= 50000 ->
        validateContent (JString s) = inr s)
  /\ (forall s,
        50000 < len (sanitizeString s) ->
        validateContent (JString s)
        = inl (Error "content exceeds maximum length of 50000 characters"))
  /\ (forall content,
        (forall s, content = JString s -> Forall (fun c => isWhiteSpace c = true) s) ->
        validateContent content = inl (Error "content must be a non-empty string")).
Proof.
  repeat split.
  - intros content out H. apply validateContent_inr in H as (s & -> & -> & _ & Hmax).
    exists s. repeat split; try assumption.
    + apply sanitizeString_clean.
    + unfold sanitizeString. apply trim_idem.
    + apply len_sublist, sanitizeString_sublist.
  - intros s Hclean Hhead Hlast Hlen. unfold validateContent.
    rewrite (sanitizeString_fixed s Hclean Hhead Hlast).
    rewrite (trim_fixed s Hhead Hlast).
    destruct (Z.eqb_spec (len s) 0); [lia|].
    unfold MAX_CONTENT_LENGTH. destruct (Z.gtb_spec (len s) 50000); [lia|]. reflexivity.
  - intros s Hlong. unfold validateContent.
    rewrite sanitizeString_nonblank by lia.
    unfold MAX_CONTENT_LENGTH. destruct (Z.gtb_spec (len (sanitizeString s)) 50000); [|lia].
    reflexivity.
  - intros content Hblank. unfold validateContent. destruct content; try reflexivity.
    specialize (Hblank s eq_refl). apply trim_nil_iff in Hblank. rewrite Hblank. reflexivity.
Qed.

Lemma validateContent_contract_witness :
  validateContent (JString (lit "remember the milk")) = inr (lit "remember the milk")
  /\ validateContent (JString (lit "  ")) = inl (Error "content must be a non-empty string").
Proof.
  destruct validateContent_contract as (_ & Hclean & _ & Hblank). split.
  - apply Hclean.
    + vm_compute. repeat constructor.
    + vm_compute. intros c [= <-]. reflexivity.
    + vm_compute. intros c [= <-]. reflexivity.
    + vm_compute. split; discriminate.
  - apply Hblank. intros s [= <-]. vm_compute. repeat constructor.
Defined.

(** X5. The contract of [validateQuery], with the bound 2000: an accepted
    value is the sanitized input, free of control characters and of white
    space at the ends, at most 2000 characters; a clean string of 1 to 2000
    characters is returned unchanged; a sanitized form longer than 2000 is
    rejected with the message that names the limit; a blank string or a
    value that is not a string is rejected as empty. *)
Theorem validateQuery_contract :
  (forall query out,
     validateQuery query = inr out ->
     exists s, query = JString s /\ out = sanitizeString s
               /\ Forall (fun c => isControl c = false) out
               /\ trim out = out /\ len out <= 2000 /\ len out <= len s)
  /\ (forall s,
        Forall (fun c => isControl c = false) s ->
        (forall c, head s = Some c -> isWhiteSpace c = false) ->
        (forall c, last s = Some c -> isWhiteSpace c = false) ->
        1 <= len s <= 2000 ->
        validateQuery (JString s) = inr s)
  /\ (forall s,
        2000 < len (sanitizeString s) ->
        validateQuery (JString s)
        = inl (Error "query exceeds maximum length of 2000 characters"))
  /\ (forall query,
        (forall s, query = JString s -> Forall (fun c => isWhiteSpace c = true) s) ->
        validateQuery query = inl (Error "query must be a non-empty string")).
Proof.
  repeat split.
  - intros query out. unfold validateQuery. destruct query; try discriminate.
    destruct (len (trim s) =? 0); [discriminate|].
    unfold MAX_QUERY_LENGTH.
    destruct (Z.gtb_spec (len (sanitizeString s)) 2000); [discriminate|].
    intros [= <-]. exists s. repeat split; try lia.
    + apply sanitizeString_clean.
    + unfold sanitizeString. apply trim_idem.
    + apply len_sublist, sanitizeString_sublist.
  - intros s Hclean Hhead Hlast Hlen. unfold validateQuery.
    rewrite (sanitizeString_fixed s Hclean Hhead Hlast).
    rewrite (trim_fixed s Hhead Hlast).
    destruct (Z.eqb_spec (len s) 0); [lia|].
    unfold MAX_QUERY_LENGTH. destruct (Z.gtb_spec (len s) 2000); [lia|]. reflexivity.
  - intros s Hlong. unfold validateQuery.
    rewrite sanitizeString_nonblank by lia.
    unfold MAX_QUERY_LENGTH. destruct (Z.gtb_spec (len (sanitizeString s)) 2000); [|lia].
    reflexivity.
  - intros query Hblank. unfold validateQuery. destruct query; try reflexivity.
    specialize (Hblank s eq_refl). apply trim_nil_iff in Hblank. rewrite Hblank. reflexivity.
Qed.

Lemma validateQuery_contract_witness :
  validateQuery (JString (lit "what is my name?")) = inr (lit "what is my name?")
  /\ validateQuery (JNumber 3) = inl (Error "query must be a non-empty string").
Proof.
  destruct validateQuery_contract as (_ & Hclean & _ & Hblank). split.
  - apply Hclean.
    + vm_compute. repeat constructor.
    + vm_compute. intros c [= <-]. reflexivity.
    + vm_compute. intros c [= <-]. reflexivity.
    + vm_compute. split; discriminate.
  - apply Hblank. intros s [=].
Defined.

(** ** Validator: collections, enumerations and numbers *)

Lemma mapE_inr {A B : Type} (f : A -> throws B) (l : list A) (out : list B) :
  mapE f l = inr out -> Forall2 (fun x y => f x = inr y) l out.
Proof.
  revert out. induction l as [|x l IH]; simpl; intros out.
  - intros [= <-]. constructor.
  - destruct (f x) as [e|y] eqn:Hx; simpl; [discriminate|].
    destruct (mapE f l) as [e|ys]; simpl; [discriminate|].
    intros [= <-]. constructor; [exact Hx|apply IH; reflexivity].
Qed.

(** The first element that fails decides the outcome of the whole map. *)
Lemma mapE_first_failure {A B : Type} (f : A -> throws B) (good : list A) (bad : A)
  (rest : list A) (e : exn) :
  Forall (fun x => exists y, f x = inr y) good ->
  f bad = inl e ->
  mapE f (good ++ bad :: rest) = inl e.
Proof.
  intros Hgood Hbad. induction Hgood as [|x good [y Hx] _ IH]; simpl.
  - rewrite Hbad. reflexivity.
  - rewrite Hx. simpl. rewrite IH. reflexivity.
Qed.

Lemma validateTag_inr (t : jsval) (cleaned : jsstring) :
  validateTag t = inr cleaned ->
  exists s, t = JString s /\ cleaned = sanitizeString s /\ 1 <= len cleaned <= 100.
Proof.
  unfold validateTag. destruct t; try discriminate.
  unfold MAX_TAG_LENGTH.
  destruct (Z.gtb_spec (len (sanitizeString s)) 100); [discriminate|].
  destruct (Z.eqb_spec (len (sanitizeString s)) 0); [discriminate|].
  intros [= <-]. exists s. unfold len in *. repeat split; lia.
Qed.

(** X6. The contract of [validateTags]. An accepted array has at most 20
    elements and comes back with as many tags in the same order, each the
    sanitized form of a string element, 1 to 100 characters long. An array of
    more than 20 elements is rejected whatever it holds, and in a shorter one
    the first element that is not a valid tag rejects the whole array with
    its own error. Only [undefined] and [null] give the unset result. *)
Theorem validateTags_contract :
  (forall tags out,
     validateTags tags = inr (Some out) ->
     exists items,
       tags = JArray items /\ Z.of_nat (length items) <= 20
       /\ Forall2 (fun item tag =>
                     exists s, item = JString s /\ tag = sanitizeString s
                               /\ 1 <= len tag <= 100) items out)
  /\ (forall items,
        20 < Z.of_nat (length items) ->
        validateTags (JArray items) = inl (Error "Maximum 20 tags allowed"))
  /\ (forall good bad rest e,
        Z.of_nat (length (good ++ bad :: rest)) <= 20 ->
        Forall (fun item => exists tag, validateTag item = inr tag) good ->
        validateTag bad = inl e ->
        validateTags (JArray (good ++ bad :: rest)) = inl e)
  /\ (forall tags, validateTags tags = inr None <-> tags = JUndefined \/ tags = JNull).
Proof.
  repeat split.
  - intros tags out. unfold validateTags. destruct tags; try discriminate.
    unfold MAX_TAGS. destruct (Z.gtb_spec (Z.of_nat (length items)) 20); [discriminate|].
    destruct (mapE validateTag items) as [e|vs] eqn:Hmap; simpl; [discriminate|].
    intros [= <-]. exists items. split; [reflexivity|]. split; [lia|].
    apply mapE_inr in Hmap. eapply Forall2_impl; [exact Hmap|].
    intros item tag. apply validateTag_inr.
  - intros items Hmany. unfold validateTags, MAX_TAGS.
    destruct (Z.gtb_spec (Z.of_nat (length items)) 20); [reflexivity|lia].
  - intros good bad rest e Hlen Hgood Hbad. unfold validateTags, MAX_TAGS.
    destruct (Z.gtb_spec (Z.of_nat (length (good ++ bad :: rest))) 20); [lia|].
    rewrite (mapE_first_failure validateTag good bad rest e Hgood Hbad). reflexivity.
  - unfold validateTags. destruct tags; try discriminate; try (left; reflexivity);
      try (right; reflexivity).
    destruct (_ >? _); [discriminate|].
    destruct (mapE validateTag items); discriminate.
  - intros [->| ->]; reflexivity.
Qed.

Lemma validateTags_contract_witness :
  validateTags (JArray [JString (lit "work"); JString (lit "   "); JNumber 3])
  = inl (Error "Empty tags not allowed")
  /\ exists items,
       JArray [JString (lit " a "); JString (lit "b")] = JArray items
       /\ Z.of_nat (length items) <= 20
       /\ Forall2 (fun item tag =>
                     exists s, item = JString s /\ tag = sanitizeString s
                               /\ 1 <= len tag <= 100) items [lit "a"; lit "b"].
Proof.
  destruct validateTags_contract as (Hout & _ & Hfirst & _). split.
  - apply (Hfirst [JString (lit "work")] (JString (lit "   ")) [JNumber 3]).
    + vm_compute. discriminate.
    + repeat constructor. eexists. vm_compute. reflexivity.
    + vm_compute. reflexivity.
  - apply Hout. vm_compute. reflexivity.
Defined.

Lemma includes_In (arr : list jsstring) (x : jsstring) :
  includes arr x = true <-> In x arr.
Proof.
  unfold includes, Js.eqb. rewrite existsb_exists. split.
  - intros (y & Hy & Heq). apply bool_decide_eq_true in Heq. subst. exact Hy.
  - intros Hin. exists x. split; [exact Hin|]. apply bool_decide_eq_true. reflexivity.
Qed.

Section Enumerations.

Context {rt : Runtime}.

Lemma validateLayer_inr (layer : jsval) (u : jsstring) :
  validateLayer layer = inr (Some u) ->
  exists s, layer = JString s /\ u = toUpperCase s /\ In u VALID_LAYERS.
Proof.
  unfold validateLayer. destruct layer; try discriminate.
  destruct (includes VALID_LAYERS (toUpperCase s)) eqn:Hin; simpl; [|discriminate].
  intros [= <-]. exists s.
  exact (conj eq_refl (conj eq_refl (proj1 (includes_In VALID_LAYERS (toUpperCase s)) Hin))).
Qed.

(** X7. The enumeration validators return canonical names only. What
    [validateLayer] accepts is the upper-cased input and one of SESSION,
    SEMANTIC, CORE, META; what [validateImportance] accepts is the upper-cased
    input and one of LOW, MEDIUM, HIGH, CRITICAL. Both give the unset result
    for [undefined] and [null] and for nothing else, and reject every value
    that is neither a string nor unset. *)
Theorem enumerations_canonical :
  (forall layer u,
     validateLayer layer = inr (Some u) ->
     exists s, layer = JString s /\ u = toUpperCase s
               /\ (u = lit "SESSION" \/ u = lit "SEMANTIC" \/ u = lit "CORE" \/ u = lit "META"))
  /\ (forall importance u,
        validateImportance importance = inr (Some u) ->
        exists s, importance = JString s /\ u = toUpperCase s
                  /\ (u = lit "LOW" \/ u = lit "MEDIUM" \/ u = lit "HIGH"
                      \/ u = lit "CRITICAL"))
  /\ (forall v, validateLayer v = inr None <-> v = JUndefined \/ v = JNull)
  /\ (forall v, validateImportance v = inr None <-> v = JUndefined \/ v = JNull)
  /\ (forall v,
        (forall s, v <> JString s) -> v <> JUndefined -> v <> JNull ->
        validateLayer v = inl (Error "layer must be a string")
        /\ validateImportance v = inl (Error "importance must be a string")).
Proof.
  repeat match goal with |- _ /\ _ => split end;
    [| | | |intros v Hs Hu Hn; destruct v; try congruence; try (split; reflexivity);
           exfalso; exact (Hs _ eq_refl)].
  all: try split.
  - intros layer u H. apply validateLayer_inr in H as (s & -> & -> & Hin).
    exists s. split; [reflexivity|]. split; [reflexivity|]. simpl in Hin.
    intuition congruence.
  - intros importance u. unfold validateImportance. destruct importance; try discriminate.
    destruct (includes VALID_IMPORTANCE (toUpperCase s)) eqn:Hin; simpl; [|discriminate].
    intros [= <-]. exists s. split; [reflexivity|]. split; [reflexivity|].
    apply includes_In in Hin. simpl in Hin. intuition congruence.
  - unfold validateLayer. destruct v; try discriminate; try (left; reflexivity);
      try (right; reflexivity).
    destruct (negb _); discriminate.
  - intros [->| ->]; reflexivity.
  - unfold validateImportance. destruct v; try discriminate; try (left; reflexivity);
      try (right; reflexivity).
    destruct (negb _); discriminate.
  - intros [->| ->]; reflexivity.
Qed.

(** X8. [validateLayers] accepts an array only if every element is a string
    whose upper-cased form is one of the four layer names, and returns those
    names in the order of the input, one per element. An array that holds
    [undefined] or [null] is rejected, and so is a value that is neither an
    array nor unset. *)
Theorem validateLayers_contract :
  (forall layers out,
     validateLayers layers = inr (Some out) ->
     exists items,
       layers = JArray items
       /\ Forall2 (fun item u =>
                     exists s, item = JString s /\ u = toUpperCase s
                               /\ In u VALID_LAYERS) items out)
  /\ (forall items,
        In JUndefined items \/ In JNull items ->
        exists e, validateLayers (JArray items) = inl e)
  /\ (forall s, validateLayers (JString s) = inl (Error "layers must be an array")).
Proof.
  repeat split.
  - intros layers out. unfold validateLayers. destruct layers; try discriminate.
    destruct (mapE _ items) as [e|vs] eqn:Hmap; simpl; [discriminate|].
    intros [= <-]. exists items. split; [reflexivity|].
    apply mapE_inr in Hmap. eapply Forall2_impl; [exact Hmap|].
    intros item u. simpl.
    destruct (validateLayer item) as [e|[v|]] eqn:Hv; simpl; try discriminate.
    destruct (len v =? 0); [discriminate|].
    intros [= <-]. apply validateLayer_inr, Hv.
  - intros items Hin. unfold validateLayers.
    destruct (mapE _ items) as [e|vs] eqn:Hmap; simpl; [eauto|].
    exfalso. apply mapE_inr in Hmap.
    assert (Hno : forall item, In item items ->
              item <> JUndefined /\ item <> JNull).
    { clear Hin. induction Hmap as [|item u items vs Hitem _ IH]; [intros ? []|].
      intros item' [<-|Hin']; [|apply IH, Hin'].
      split; intros ->; simpl in Hitem; discriminate. }
    destruct Hin as [Hin|Hin]; apply Hno in Hin; tauto.
Qed.

(** X9. The numeric validators never fail and always land in range:
    [validateLimit] returns a number between 1 and 50 and
    [validateMaxTokens] one between 100 and 32000, whatever the input; a
    number already in range is returned as it is, and [undefined], [null] or
    a value that does not parse give the defaults 10 and 4000. *)
Theorem numeric_validators_in_range :
  (forall v, (1 <= validateLimit v /\ validateLimit v <= 50)%Q)
  /\ (forall v, (100 <= validateMaxTokens v /\ validateMaxTokens v <= 32000)%Q)
  /\ (forall n, (1 <= n)%Q -> (n <= 50)%Q -> validateLimit (JNumber n) = n)
  /\ (forall n, (100 <= n)%Q -> (n <= 32000)%Q -> validateMaxTokens (JNumber n) = n)
  /\ (forall v, v = JUndefined \/ v = JNull \/ toNumber v = None ->
        validateLimit v = 10%Q /\ validateMaxTokens v = 4000%Q).
Proof.
  assert (Hlim : forall n, (1 <= (if negb (Qle_bool 1 n) then 10 else Qmin n 50)
                            /\ (if negb (Qle_bool 1 n) then 10 else Qmin n 50) <= 50)%Q).
  { intros n. destruct (Qle_bool 1 n) eqn:Hn; simpl.
    - apply Qle_bool_iff in Hn. split; [apply Q.min_glb; [exact Hn|discriminate]|].
      apply Q.le_min_r.
    - split; discriminate. }
  assert (Htok : forall n, (100 <= (if negb (Qle_bool 100 n) then 4000 else Qmin n 32000)
                            /\ (if negb (Qle_bool 100 n) then 4000 else Qmin n 32000)
                               <= 32000)%Q).
  { intros n. destruct (Qle_bool 100 n) eqn:Hn; simpl.
    - apply Qle_bool_iff in Hn. split; [apply Q.min_glb; [exact Hn|discriminate]|].
      apply Q.le_min_r.
    - split; discriminate. }
  assert (Hmin : forall n m : Q, (n <= m)%Q -> Qmin n m = n).
  { intros n m Hle. unfold Qmin, GenericMinMax.gmin.
    destruct (n ?= m)%Q eqn:Hc; try reflexivity.
    apply Qgt_alt in Hc. exfalso. apply (Qlt_not_le _ _ Hc Hle). }
  repeat split.
  - unfold validateLimit. destruct v; try discriminate;
      try (destruct (toNumber _); [apply Hlim|discriminate]).
  - unfold validateLimit. destruct v; try discriminate;
      try (destruct (toNumber _); [apply Hlim|discriminate]).
  - unfold validateMaxTokens. destruct v; try discriminate;
      try (destruct (toNumber _); [apply Htok|discriminate]).
  - unfold validateMaxTokens. destruct v; try discriminate;
      try (destruct (toNumber _); [apply Htok|discriminate]).
  - intros n Hlo Hhi. unfold validateLimit. simpl.
    apply Qle_bool_iff in Hlo. rewrite Hlo. simpl. apply Hmin, Hhi.
  - intros n Hlo Hhi. unfold validateMaxTokens. simpl.
    apply Qle_bool_iff in Hlo. rewrite Hlo. simpl. apply Hmin, Hhi.
  - destruct H as [->|[->|H]]; [reflexivity|reflexivity|].
    unfold validateLimit. rewrite H. destruct v; reflexivity.
  - destruct H as [->|[->|H]]; [reflexivity|reflexivity|].
    unfold validateMaxTokens. rewrite H. destruct v; reflexivity.
Qed.

End Enumerations.

Lemma sanitizeString_shape_witness :
  isWhiteSpace 104 = false /\ isWhiteSpace 105 = false.
Proof.
  destruct (sanitizeString_shape ([32; 0] ++ lit "hi" ++ [9; 10])%N) as (_ & _ & Hhead & Hlast).
  split.
  - apply (Hhead 104%N [105%N]). vm_compute. reflexivity.
  - apply (Hlast [104%N] 105%N). vm_compute. reflexivity.
Defined.

Lemma validateId_accepts_exactly_witness :
  validateId (JString (lit "abc-123_def")) = inr (lit "abc-123_def")
  /\ exists e, validateId (JString (lit "../etc")) = inl e.
Proof.
  destruct (validateId_accepts_exactly (JString (lit "abc-123_def")) (lit "abc-123_def"))
    as [Hiff Hbad].
  split.
  - apply Hiff. split; [reflexivity|]. split; [vm_compute; split; discriminate|].
    cbv [lit String.list_ascii_of_string List.map Ascii.N_of_ascii Ascii.N_of_digits
           N.add N.mul Pos.add Pos.mul Pos.succ].
    repeat (constructor; [lia|]). constructor.
  - apply Hbad. vm_compute. tauto.
Defined.

Lemma enumerations_canonical_witness :
  exists s, JString (lit "semantic") = JString s
            /\ lit "SEMANTIC" = toUpperCase (Runtime := Demo.runtime) s
            /\ (lit "SEMANTIC" = lit "SESSION" \/ lit "SEMANTIC" = lit "SEMANTIC"
                \/ lit "SEMANTIC" = lit "CORE" \/ lit "SEMANTIC" = lit "META").
Proof.
  apply (proj1 (enumerations_canonical (rt := Demo.runtime))).
  vm_compute. reflexivity.
Defined.

Lemma validateLayers_contract_witness :
  exists e,
    validateLayers (rt := Demo.runtime) (JArray [JString (lit "core"); JNull]) = inl e.
Proof.
  apply (proj1 (proj2 (validateLayers_contract (rt := Demo.runtime)))).
  right. simpl. tauto.
Defined.

Lemma numeric_validators_in_range_witness :
  validateLimit (rt := Demo.runtime) (JNumber 25) = 25%Q
  /\ validateLimit (rt := Demo.runtime) (JString (lit "many")) = 10%Q.
Proof.
  destruct (numeric_validators_in_range (rt := Demo.runtime)) as (_ & _ & Hid & _ & Hdef).
  split.
  - apply Hid; discriminate.
  - apply Hdef. right. right. reflexivity.
Defined.

(** ** Rate limiter: bounds, independence and recovery *)

Lemma retained_length (limit : RateLimit) (now : Z) (l : list Z) :
  (length (retained limit now l) <= length l)%nat.
Proof. unfold retained. apply List.filter_length_le. Qed.

(** The outcome of a call and what it stores for its operation depend on the
    window of that operation only. *)
Lemma checkRateLimit_local (operation : string) (now : Z) (w w' : Windows) :
  w !! operation = w' !! operation ->
  fst (checkRateLimit operation now w) = fst (checkRateLimit operation now w')
  /\ snd (checkRateLimit operation now w) !! operation
     = snd (checkRateLimit operation now w') !! operation.
Proof.
  intros Heq. unfold checkRateLimit.
  destruct (RATE_LIMITS !! operation) as [limit|].
  - rewrite <- Heq. destruct (_ >=? _); simpl; [split; [reflexivity|exact Heq]|].
    split; [reflexivity|]. rewrite !lookup_insert_eq. reflexivity.
  - destruct (inherited operation); simpl; [|split; [reflexivity|exact Heq]].
    split; [reflexivity|]. rewrite !lookup_insert_eq. reflexivity.
Qed.

Lemma stored_bounded (calls : list (string * Z)) :
  forall w : Windows,
  (forall operation limit, RATE_LIMITS !! operation = Some limit ->
     Z.of_nat (length (stored operation w)) <= maxRequests limit) ->
  forall operation limit, RATE_LIMITS !! operation = Some limit ->
    Z.of_nat (length (stored operation (windowsAfter calls w))) <= maxRequests limit.
Proof.
  induction calls as [|[op now] calls IH]; intros w Hinv; [exact Hinv|].
  simpl. apply IH. apply stored_bounded_step, Hinv.
Qed.

Lemma stored_empty_bounded (operation : string) (limit : RateLimit) :
  RATE_LIMITS !! operation = Some limit ->
  Z.of_nat (length (stored operation ∅)) <= maxRequests limit.
Proof.
  intros Hlim. unfold stored. rewrite lookup_empty. simpl.
  destruct (RATE_LIMITS_inv _ _ Hlim) as [Hpos _]. lia.
Qed.

Lemma unlimited_untouched (calls : list (string * Z)) :
  forall (w : Windows) (operation : string),
  RATE_LIMITS !! operation = None -> inherited operation = false ->
  windowsAfter calls w !! operation = w !! operation.
Proof.
  induction calls as [|[op now] calls IH]; intros w operation Hnone Hown; [reflexivity|].
  simpl. rewrite IH by assumption.
  destruct (String.eqb_spec op operation) as [->|Hne].
  - rewrite checkRateLimit_unlimited by assumption. reflexivity.
  - apply checkRateLimit_other, Hne.
Qed.

(** What is stored for a name inherited from [Object.prototype] is the
    timestamp of the last call made with it. *)
Lemma inherited_last (calls : list (string * Z)) :
  forall (w : Windows) (operation : string),
  RATE_LIMITS !! operation = None -> inherited operation = true ->
  windowsAfter calls w !! operation
  = match last (timestampsOf operation calls) with
    | Some t => Some [t]
    | None => w !! operation
    end.
Proof.
  induction calls as [|[op now] calls IH]; intros w operation Hnone Hinh; [reflexivity|].
  simpl. rewrite IH by assumption. rewrite timestampsOf_cons.
  destruct (String.eqb_spec op operation) as [->|Hne].
  - simpl. rewrite last_cons.
    destruct (last (timestampsOf operation calls)); [reflexivity|].
    rewrite checkRateLimit_inherited by assumption. simpl. apply lookup_insert_eq.
  - simpl. destruct (last (timestampsOf operation calls)); [reflexivity|].
    apply checkRateLimit_other, Hne.
Qed.

(** X10. The limiter's memory is bounded. After any sequence of calls, at any
    timestamps, started on the empty map, the window stored for an operation
    of the table holds at most as many timestamps as its budget; the window
    stored for any other key holds at most one timestamp, and none at all
    unless the key is a name that objects inherit from [Object.prototype]
    ([constructor], [toString], ...). *)
Theorem windows_stay_bounded (calls : list (string * Z)) (operation : string) :
  (forall limit, RATE_LIMITS !! operation = Some limit ->
     Z.of_nat (length (stored operation (windowsAfter calls ∅))) <= maxRequests limit)
  /\ (RATE_LIMITS !! operation = None ->
      (length (stored operation (windowsAfter calls ∅)) <= 1)%nat)
  /\ (RATE_LIMITS !! operation = None -> inherited operation = false ->
      windowsAfter calls ∅ !! operation = None).
Proof.
  split; [|split].
  - intros limit Hlim. apply (stored_bounded calls ∅); [|exact Hlim].
    intros op lim. apply stored_empty_bounded.
  - intros Hnone. unfold stored. destruct (inherited operation) eqn:Hinh.
    + rewrite inherited_last by assumption.
      destruct (last (timestampsOf operation calls)); [simpl; lia|].
      rewrite lookup_empty. simpl. lia.
    + rewrite unlimited_untouched by assumption. rewrite lookup_empty. simpl. lia.
  - intros Hnone Hown. rewrite unlimited_untouched by assumption. apply lookup_empty.
Qed.

Lemma windows_stay_bounded_witness :
  Z.of_nat (length (stored "forget"
                      (windowsAfter (List.map (pair "forget") [3; 1; 2; 1; 1; 9; 1; 1; 1; 1; 1; 1])
                         ∅))) <= 10
  /\ (length (stored "constructor"
                (windowsAfter (List.map (pair "constructor") [5%Z; 6%Z; 7%Z]) ∅)) <= 1)%nat
  /\ windowsAfter [("stats", 1); ("stats", 2)] ∅ !! "stats" = None.
Proof.
  split; [|split].
  - apply (proj1 (windows_stay_bounded _ "forget") {| maxRequests := 10; windowMs := 60000 |}).
    vm_compute. reflexivity.
  - apply (proj1 (proj2 (windows_stay_bounded _ "constructor"))). vm_compute. reflexivity.
  - apply (proj2 (proj2 (windows_stay_bounded _ "stats"))); vm_compute; reflexivity.
Defined.

Lemma first_calls_admitted_from (operation : string) (limit : RateLimit)
  (calls : list (string * Z)) :
  RATE_LIMITS !! operation = Some limit ->
  forall w : Windows,
  Z.of_nat (length (stored operation w)) + Z.of_nat (length (timestampsOf operation calls))
  <= maxRequests limit ->
  timestampsOf operation (admitted calls w) = timestampsOf operation calls.
Proof.
  intros Hlim. induction calls as [|[op now] calls IH]; intros w Hroom; [reflexivity|].
  rewrite timestampsOf_cons in Hroom. rewrite length_app in Hroom. simpl.
  destruct (String.eqb_spec op operation) as [->|Hne].
  - simpl in Hroom.
    pose proof (checkRateLimit_step operation limit now w Hlim) as Hstep. cbv zeta in Hstep.
    pose proof (retained_length limit now (default [] (w !! operation))) as Hle.
    fold (stored operation w) in Hle, Hstep.
    destruct (checkRateLimit operation now w) as [[e|u] w'].
    + destruct Hstep as [Hfull _]. lia.
    + destruct Hstep as [_ ->]. rewrite !timestampsOf_cons, String.eqb_refl. simpl.
      f_equal. apply IH. unfold stored at 1. rewrite lookup_insert_eq. simpl.
      rewrite length_app. simpl. lia.
  - simpl in Hroom.
    pose proof (checkRateLimit_stored_other op operation now w Hne) as Hsame.
    destruct (checkRateLimit op now w) as [[e|u] w']; simpl in Hsame.
    + rewrite timestampsOf_cons. destruct (String.eqb_spec op operation); [contradiction|].
      simpl. apply IH. rewrite Hsame. lia.
    + rewrite !timestampsOf_cons. destruct (String.eqb_spec op operation); [contradiction|].
      simpl. apply IH. rewrite Hsame. lia.
Qed.

(** X11. Started on the empty map, the first calls of an operation, as many
    as its budget allows, are all admitted whatever their timestamps and
    whatever calls of other operations come in between. *)
Theorem first_calls_admitted (calls : list (string * Z)) (operation : string)
  (limit : RateLimit) :
  RATE_LIMITS !! operation = Some limit ->
  Z.of_nat (length (timestampsOf operation calls)) <= maxRequests limit ->
  timestampsOf operation (admitted calls ∅) = timestampsOf operation calls.
Proof.
  intros Hlim Hfew. apply (first_calls_admitted_from operation limit calls Hlim ∅).
  unfold stored. rewrite lookup_empty. simpl. lia.
Qed.

Lemma first_calls_admitted_witness :
  timestampsOf "forget"
    (admitted [("forget", 5); ("recall", 5); ("forget", 4); ("forget", 70000)] ∅)
  = [5; 4; 70000].
Proof.
  change [5; 4; 70000]
    with (timestampsOf "forget"
            [("forget", 5); ("recall", 5); ("forget", 4); ("forget", 70000)]).
  apply (first_calls_admitted _ "forget" {| maxRequests := 10; windowMs := 60000 |}).
  - vm_compute. reflexivity.
  - vm_compute. discriminate.
Defined.

(** X12. Operations do not interfere: which calls of an operation are
    admitted is the same whether or not calls of other operations are
    interleaved with them, and it depends on the stored window of that
    operation alone. *)
Theorem operations_independent (operation : string) (calls : list (string * Z)) :
  forall w w' : Windows,
  w !! operation = w' !! operation ->
  timestampsOf operation (admitted calls w)
  = timestampsOf operation
      (admitted (List.filter (fun c => String.eqb (fst c) operation) calls) w').
Proof.
  induction calls as [|[op now] calls IH]; intros w w' Heq; [reflexivity|].
  simpl. destruct (String.eqb_spec op operation) as [->|Hne].
  - simpl.
    destruct (checkRateLimit_local operation now w w' Heq) as [Hfst Hsnd].
    destruct (checkRateLimit operation now w) as [r1 w1].
    destruct (checkRateLimit operation now w') as [r2 w2].
    simpl in Hfst, Hsnd. subst r2.
    destruct r1 as [e|u].
    + apply IH, Hsnd.
    + rewrite !timestampsOf_cons. f_equal. apply IH, Hsnd.
  - pose proof (checkRateLimit_other op operation now w Hne) as Hsame.
    destruct (checkRateLimit op now w) as [[e|u] w1]; simpl in Hsame.
    + apply IH. congruence.
    + rewrite timestampsOf_cons. destruct (String.eqb_spec op operation); [contradiction|].
      simpl. apply IH. congruence.
Qed.

Lemma operations_independent_witness :
  timestampsOf "forget"
    (admitted [("forget", 1); ("recall", 2); ("search", 3); ("forget", 4)] ∅)
  = timestampsOf "forget" (admitted [("forget", 1); ("forget", 4)] ∅).
Proof.
  exact (operations_independent "forget"
           [("forget", 1); ("recall", 2); ("search", 3); ("forget", 4)] ∅ ∅ eq_refl).
Defined.

(** X13. The retry-after hint is enough. In any state the limiter can reach
    from the empty map, if the pruned window of an operation starts with
    [oldest] at time [now] (the timestamp the hint of a rejection is
    computed from), then the same call made that many seconds later, with
    no call of the operation in between, is admitted. *)
Theorem retry_after_suffices (calls : list (string * Z)) (operation : string)
  (limit : RateLimit) (now oldest : Z) (rest : list Z) :
  RATE_LIMITS !! operation = Some limit ->
  retained limit now (stored operation (windowsAfter calls ∅)) = oldest :: rest ->
  fst (checkRateLimit operation (now + 1000 * retryAfterSeconds limit now oldest)
         (windowsAfter calls ∅))
  = inr tt.
Proof.
  intros Hlim Hhead.
  set (w := windowsAfter calls ∅) in *.
  set (later := now + 1000 * retryAfterSeconds limit now oldest).
  assert (Hin : In oldest (stored operation w)).
  { apply (retained_In limit now). rewrite Hhead. left. reflexivity. }
  assert (Hexpired : windowMs limit <= later - oldest).
  { unfold later, retryAfterSeconds.
    pose proof (ceilDiv_spec (windowMs limit - (now - oldest)) 1000 ltac:(lia)). lia. }
  pose proof (retained_length_lt limit later oldest _ Hin Hexpired) as Hshorter.
  assert (Hbound : Z.of_nat (length (stored operation w)) <= maxRequests limit).
  { apply (stored_bounded calls ∅); [|exact Hlim]. intros op lim. apply stored_empty_bounded. }
  pose proof (checkRateLimit_step operation limit later w Hlim) as Hstep. cbv zeta in Hstep.
  fold (stored operation w) in Hstep.
  destruct (checkRateLimit operation later w) as [[e|[]] w'']; simpl.
  - destruct Hstep as [Hfull _]. lia.
  - reflexivity.
Qed.

Lemma retry_after_suffices_witness :
  fst (checkRateLimit "forget" (1500 + 1000 * 59)
         (windowsAfter (List.map (pair "forget") [0; 1; 2; 3; 4; 5; 6; 7; 8; 9]) ∅))
  = inr tt.
Proof.
  apply (retry_after_suffices (List.map (pair "forget") [0; 1; 2; 3; 4; 5; 6; 7; 8; 9])
           "forget" {| maxRequests := 10; windowMs := 60000 |} 1500 0
           [1; 2; 3; 4; 5; 6; 7; 8; 9]).
  - vm_compute. reflexivity.
  - vm_compute. reflexivity.
Defined.

(** X14. Old entries are pruned lazily and completely: once every stored
    timestamp of an operation is a full window old, the next call is
    admitted and the stored window becomes the single timestamp of that
    call. *)
Theorem expired_window_restarts (operation : string) (limit : RateLimit) (now : Z)
  (w : Windows) :
  RATE_LIMITS !! operation = Some limit ->
  Forall (fun t => windowMs limit <= now - t) (stored operation w) ->
  checkRateLimit operation now w = (inr tt, <[operation := [now]]> w).
Proof.
  intros Hlim Hold. unfold checkRateLimit. rewrite Hlim. fold (stored operation w).
  assert (Hnone : retained limit now (stored operation w) = []).
  { unfold retained. induction Hold as [|t l Ht _ IH]; simpl; [reflexivity|].
    destruct (Z.ltb_spec (now - t) (windowMs limit)); [lia|exact IH]. }
  rewrite Hnone. simpl.
  destruct (RATE_LIMITS_inv _ _ Hlim) as [Hpos _].
  destruct (Z.geb_spec (Z.of_nat 0) (maxRequests limit)); [simpl in *; lia|]. reflexivity.
Qed.

Lemma expired_window_restarts_witness :
  checkRateLimit "forget" 60000 (<["forget" := [0; 0; 0; 0; 0; 0; 0; 0; 0; 0]]> ∅)
  = (inr tt, <["forget" := [60000]]> (<["forget" := [0; 0; 0; 0; 0; 0; 0; 0; 0; 0]]> ∅)).
Proof.
  apply (expired_window_restarts "forget" {| maxRequests := 10; windowMs := 60000 |}).
  - vm_compute. reflexivity.
  - unfold stored. rewrite lookup_insert_eq. simpl.
    repeat (constructor; [lia|]). constructor.
Defined.

(** X15. Under a clock that never steps back, every stored window is in
    ascending order, so the first entry of the pruned window, the one the
    retry-after of a rejection is computed from, is the oldest of the
    retained timestamps. *)
Theorem stored_windows_ascending (calls : list (string * Z)) (first : Z)
  (operation : string) :
  nondecreasing first calls = true ->
  StronglySorted Z.le (stored operation (windowsAfter calls ∅))
  /\ (forall limit now oldest rest,
        retained limit now (stored operation (windowsAfter calls ∅)) = oldest :: rest ->
        Forall (fun t => oldest <= t) rest).
Proof.
  intros Hmono.
  assert (Hsorted : StronglySorted Z.le (stored operation (windowsAfter calls ∅))).
  { apply (ascending_run calls first ∅ Hmono). intros op. unfold stored.
    rewrite lookup_empty. simpl. split; constructor. }
  split; [exact Hsorted|].
  intros limit now oldest rest Hhead.
  pose proof (retained_sorted limit now _ Hsorted) as Hret. rewrite Hhead in Hret.
  apply StronglySorted_cons in Hret as [Hle _]. exact Hle.
Qed.

Lemma stored_windows_ascending_witness :
  StronglySorted Z.le
    (stored "forget" (windowsAfter [("forget", 1); ("recall", 2); ("forget", 2); ("forget", 7)] ∅)).
Proof.
  apply (proj1 (stored_windows_ascending
                  [("forget", 1); ("recall", 2); ("forget", 2); ("forget", 7)] 0 "forget"
                  ltac:(vm_compute; reflexivity))).
Defined.

(** X16. A key outside the table is never limited: in any sequence of calls,
    from any state, every call with such a key is admitted. For most keys
    nothing is recorded either, and the entry of the key stays as it was. The
    exception are the names that the table inherits from [Object.prototype]
    ([constructor], [toString], [__proto__], ...): a call with one of them
    gets past the guard and leaves its own timestamp as the whole window, so
    what is stored is the timestamp of the last such call. *)
Theorem unknown_operations_pass (operation : string) (calls : list (string * Z)) :
  RATE_LIMITS !! operation = None ->
  forall w : Windows,
  timestampsOf operation (admitted calls w) = timestampsOf operation calls
  /\ (inherited operation = false -> windowsAfter calls w !! operation = w !! operation)
  /\ (inherited operation = true ->
      windowsAfter calls w !! operation
      = match last (timestampsOf operation calls) with
        | Some t => Some [t]
        | None => w !! operation
        end).
Proof.
  intros Hnone w.
  split; [|split; [apply unlimited_untouched, Hnone|apply inherited_last, Hnone]].
  revert w. induction calls as [|[op now] calls IH]; intros w; [reflexivity|].
  simpl. destruct (String.eqb_spec op operation) as [->|Hne].
  - pose proof (checkRateLimit_passes operation now w Hnone) as Hpass.
    destruct (checkRateLimit operation now w) as [r w']. simpl in Hpass. subst r.
    rewrite !timestampsOf_cons. f_equal. apply IH.
  - rewrite timestampsOf_cons.
    destruct (checkRateLimit op now w) as [[e|u] w'].
    + destruct (String.eqb_spec op operation); [contradiction|]. apply IH.
    + rewrite timestampsOf_cons. destruct (String.eqb_spec op operation); [contradiction|].
      apply IH.
Qed.

Lemma unknown_operations_pass_witness :
  (timestampsOf "stats" (admitted (List.map (pair "stats") [1; 1; 1]) ∅) = [1; 1; 1]
   /\ windowsAfter (List.map (pair "stats") [1; 1; 1]) ∅ !! "stats" = (∅ : Windows) !! "stats")
  /\ (timestampsOf "constructor" (admitted (List.map (pair "constructor") [1; 2; 5]) ∅)
      = [1; 2; 5]
      /\ windowsAfter (List.map (pair "constructor") [1; 2; 5]) ∅ !! "constructor" = Some [5]).
Proof.
  split.
  - pose proof (unknown_operations_pass "stats" (List.map (pair "stats") [1; 1; 1])
                  eq_refl ∅) as (Hall & Hsame & _).
    split; [exact Hall|]. apply Hsame. reflexivity.
  - pose proof (unknown_operations_pass "constructor" (List.map (pair "constructor") [1; 2; 5])
                  eq_refl ∅) as (Hall & _ & Hlast).
    split; [exact Hall|]. apply Hlast. reflexivity.
Defined.

(** ** The HTTP client: classification, health and the shape of the trace *)

Section Attempts.

Context {rt : Runtime}.
Variables (cfg : Config) (net : Network) (method path : string).

(** [request] is [attemptOnce], repeated while it says [Again]. *)
Lemma request_fuel_unfold (fuel attempt : nat) (retries : Z) (lastHealthy : option string) :
  request_fuel (S fuel) cfg net attempt method path retries lastHealthy
  = match Client.attemptOnce (fetch net attempt) (toISOString net attempt) retries lastHealthy with
    | Client.Done r lh => Some (r, lh, [EvFetch method (baseUrl cfg +:+ path)])
    | Client.Again wait lh =>
        match request_fuel fuel cfg net (S attempt) method path (retries - 1) lh with
        | Some (r, lh', evs) =>
            Some (r, lh',
                  EvFetch method (baseUrl cfg +:+ path)
                  :: (if wait then [EvSleep 1000] else []) ++ evs)
        | None => None
        end
    end.
Proof.
  cbn [request_fuel]. unfold Client.attemptOnce.
  destruct (fetch net attempt) as [resp| |message]; try reflexivity.
  - destruct (ok resp).
    + destruct (body resp) as [text| |message]; try reflexivity.
      * destruct (decoded text); reflexivity.
      * destruct (0 <? retries); reflexivity.
    + repeat match goal with
      | |- context [if ?b then _ else _] => destruct b; try reflexivity
      end.
  - destruct (0 <? retries); reflexivity.
Qed.

(** [Again] is said only while retries are left. *)
Lemma attemptOnce_again (res : FetchResult) (iso : string) (retries : Z)
  (lh lh' : option string) (wait : bool) :
  Client.attemptOnce res iso retries lh = Client.Again wait lh' ->
  0 < retries
  /\ (wait = true -> lh' = lh /\ exists resp, res = Responded resp /\ ok resp = false
                                             /\ 500 <= status resp)
  /\ (wait = false -> res = Aborted /\ lh' = lh
                      \/ exists resp, res = Responded resp /\ ok resp = true
                                      /\ body resp = BodyAborted /\ lh' = Some iso).
Proof.
  unfold Client.attemptOnce.
  destruct res as [resp| |message]; try discriminate.
  - destruct (ok resp) eqn:Hok.
    + destruct (body resp) as [text| |message] eqn:Hbody; try discriminate.
      * destruct (decoded text); discriminate.
      * destruct (Z.ltb_spec 0 retries); [|discriminate].
        intros [= <- <-]. split; [assumption|]. split; [discriminate|].
        intros _. right. exists resp. repeat split; assumption.
    + destruct ((status resp =? 401) || (status resp =? 403)); [discriminate|].
      destruct (status resp =? 404); [discriminate|].
      destruct (status resp =? 429); [discriminate|].
      destruct (Z.geb_spec (status resp) 500); simpl; [|discriminate].
      destruct (Z.ltb_spec 0 retries); [|discriminate].
      intros [= <- <-]. split; [assumption|]. split; [|discriminate].
      intros _. split; [reflexivity|]. exists resp. repeat split; assumption || lia.
  - destruct (Z.ltb_spec 0 retries); [|discriminate].
    intros [= <- <-]. split; [assumption|]. split; [discriminate|].
    intros _. left. split; reflexivity.
Qed.

(** What a settled attempt can be. *)
Lemma attemptOnce_done (res : FetchResult) (iso : string) (retries : Z)
  (lh lh' : option string) (r : throws (option json)) :
  Client.attemptOnce res iso retries lh = Client.Done r lh' ->
  (lh' = lh \/ exists resp, res = Responded resp /\ ok resp = true /\ lh' = Some iso)
  /\ (forall v, r = inr v ->
        exists resp, res = Responded resp /\ ok resp = true /\ lh' = Some iso)
  /\ (forall e, r = inl e ->
        exists m c o, e = EngramError m c o
          /\ (o = true -> c = 0)
          /\ (o = false -> exists resp, res = Responded resp /\ ok resp = false
                                       /\ c = status resp)).
Proof.
  unfold Client.attemptOnce.
  destruct res as [resp| |message].
  - destruct (ok resp) eqn:Hok.
    + assert (Hset : exists resp', Responded resp = Responded resp' /\ ok resp' = true
                                  /\ Some iso = Some iso) by (exists resp; auto).
      destruct (body resp) as [text| |message].
      * destruct (decoded text); intros [= <- <-]; (split; [right; exact Hset|]);
          (split; [intros v' [=]; try exact Hset|]); intros e' [=]; subst;
          do 3 eexists; split; [reflexivity|]; split; [reflexivity|discriminate].
      * destruct (0 <? retries); [discriminate|]. intros [= <- <-].
        split; [right; exact Hset|]. split; [intros v' [=]|].
        intros e' [= <-]. do 3 eexists. split; [reflexivity|]. split; [reflexivity|discriminate].
      * intros [= <- <-]. split; [right; exact Hset|]. split; [intros v' [=]|].
        intros e' [= <-]. do 3 eexists. split; [reflexivity|]. split; [reflexivity|discriminate].
    + assert (Hresp : forall c, c = status resp ->
                exists resp', Responded resp = Responded resp' /\ ok resp' = false
                              /\ c = status resp') by (intros c ->; exists resp; auto).
      destruct ((status resp =? 401) || (status resp =? 403));
        [|destruct (Z.eqb_spec (status resp) 404);
          [|destruct (Z.eqb_spec (status resp) 429);
            [|destruct ((status resp >=? 500) && (0 <? retries)); [discriminate|]]]];
        intros [= <- <-]; (split; [left; reflexivity|]); (split; [intros v' [=]|]);
        intros e' [= <-]; do 3 eexists; (split; [reflexivity|]);
        (split; [discriminate|]); intros _; apply Hresp; congruence.
  - destruct (0 <? retries); [discriminate|]. intros [= <- <-].
    split; [left; reflexivity|]. split; [intros v' [=]|].
    intros e' [= <-]. do 3 eexists. split; [reflexivity|]. split; [reflexivity|discriminate].
  - intros [= <- <-]. split; [left; reflexivity|]. split; [intros v' [=]|].
    intros e' [= <-]. do 3 eexists. split; [reflexivity|]. split; [reflexivity|discriminate].
Qed.

End Attempts.

Ltac splits := repeat match goal with |- _ /\ _ => split end.

Lemma sleeps_fetch (method url : string) (evs : list event) :
  Client.sleeps (EvFetch method url :: evs) = Client.sleeps evs.
Proof. reflexivity. Qed.

Lemma sleeps_sleep (ms : Z) (evs : list event) :
  Client.sleeps (EvSleep ms :: evs) = 1 + Client.sleeps evs.
Proof. unfold Client.sleeps. simpl. lia. Qed.

Section RequestRuns.

Context {rt : Runtime}.
Variables (cfg : Config) (net : Network) (method path : string).

(** X17. Every failure of a request is an [EngramError], never a bare
    exception. One that is flagged offline carries status 0; one that is not
    carries the status of a response the transport did give, and that
    response was not a 2xx. *)
Theorem request_failures_classified (fuel : nat) :
  forall (attempt : nat) (retries : Z) (lh lh' : option string) (e : exn)
         (evs : list event),
  request_fuel fuel cfg net attempt method path retries lh = Some (inl e, lh', evs) ->
  exists m c o,
    e = EngramError m c o
    /\ (o = true -> c = 0)
    /\ (o = false -> exists k resp, fetch net k = Responded resp /\ ok resp = false
                                    /\ c = status resp).
Proof.
  induction fuel as [|fuel IH]; intros attempt retries lh lh' e evs; [discriminate|].
  rewrite request_fuel_unfold.
  destruct (Client.attemptOnce _ _ _ _) as [r lh1|wait lh1] eqn:Hstep.
  - intros [= -> <- <-].
    destruct (attemptOnce_done _ _ _ _ _ _ Hstep) as (_ & _ & Herr).
    destruct (Herr e eq_refl) as (m & c & o & -> & Hoff & Hon).
    exists m, c, o. split; [reflexivity|]. split; [exact Hoff|].
    intros Ho. destruct (Hon Ho) as (resp & Hres & Hok & Hc).
    exists attempt, resp. repeat split; assumption.
  - destruct (request_fuel fuel _ _ _ _ _ _ _) as [[[r lh2] evs2]|] eqn:Hrec; [|discriminate].
    intros [= -> <- <-]. exact (IH _ _ _ _ _ _ Hrec).
Qed.

(** X18. The last healthy time only ever moves to the time of a 2xx response.
    After a request it is what it was before, or the clock reading of a 2xx
    response of this request; if the request returned a value it is the
    reading of a 2xx response; if no response of the transport is a 2xx it is
    unchanged; and once set it is never unset. *)
Theorem lastHealthy_follows_success (fuel : nat) :
  forall (attempt : nat) (retries : Z) (lh lh' : option string)
         (r : throws (option json)) (evs : list event),
  request_fuel fuel cfg net attempt method path retries lh = Some (r, lh', evs) ->
  (lh' = lh
   \/ exists k resp, fetch net k = Responded resp /\ ok resp = true
                     /\ lh' = Some (toISOString net k))
  /\ (forall v, r = inr v ->
        exists k resp, fetch net k = Responded resp /\ ok resp = true
                       /\ lh' = Some (toISOString net k))
  /\ ((forall k resp, fetch net k = Responded resp -> ok resp = false) -> lh' = lh)
  /\ (is_Some lh -> is_Some lh').
Proof.
  induction fuel as [|fuel IH]; intros attempt retries lh lh' r evs; [discriminate|].
  rewrite request_fuel_unfold.
  assert (Hfinish : forall lh0 : option string,
            (lh' = lh0
             \/ exists k resp, fetch net k = Responded resp /\ ok resp = true
                               /\ lh' = Some (toISOString net k)) ->
            (lh0 = lh
             \/ exists k resp, fetch net k = Responded resp /\ ok resp = true
                               /\ lh0 = Some (toISOString net k)) ->
            (lh' = lh
             \/ exists k resp, fetch net k = Responded resp /\ ok resp = true
                               /\ lh' = Some (toISOString net k))
            /\ ((forall k resp, fetch net k = Responded resp -> ok resp = false) -> lh' = lh)
            /\ (is_Some lh -> is_Some lh')).
  { intros lh0 H1 H0.
    assert (Hor : lh' = lh
             \/ exists k resp, fetch net k = Responded resp /\ ok resp = true
                               /\ lh' = Some (toISOString net k)).
    { destruct H1 as [->|H1]; [exact H0|right; exact H1]. }
    split; [exact Hor|]. split.
    - intros Hnever. destruct Hor as [->|(k & resp & Hk & Hok & _)]; [reflexivity|].
      rewrite (Hnever k resp Hk) in Hok. discriminate.
    - intros Hset. destruct Hor as [->|(k & resp & _ & _ & ->)]; [exact Hset|eauto]. }
  destruct (Client.attemptOnce _ _ _ _) as [r1 lh1|wait lh1] eqn:Hstep.
  - intros [= <- <- <-].
    destruct (attemptOnce_done _ _ _ _ _ _ Hstep) as (Hlh & Hval & _).
    assert (H0 : lh1 = lh
             \/ exists k resp, fetch net k = Responded resp /\ ok resp = true
                               /\ lh1 = Some (toISOString net k)).
    { destruct Hlh as [->|(resp & Hres & Hok & ->)]; [left; reflexivity|].
      right. exists attempt, resp. auto. }
    destruct (Hfinish lh1 (or_introl eq_refl) H0) as (Ha & Hc & Hd).
    split; [exact Ha|]. split; [|split; assumption].
    intros v Hv. destruct (Hval v Hv) as (resp & Hres & Hok & ->).
    exists attempt, resp. auto.
  - destruct (request_fuel fuel _ _ _ _ _ _ _) as [[[r2 lh2] evs2]|] eqn:Hrec; [|discriminate].
    intros [= <- <- <-].
    destruct (IH _ _ _ _ _ _ Hrec) as (Hlh & Hval & _ & _).
    assert (H0 : lh1 = lh
             \/ exists k resp, fetch net k = Responded resp /\ ok resp = true
                               /\ lh1 = Some (toISOString net k)).
    { destruct (attemptOnce_again _ _ _ _ _ _ Hstep) as (_ & Hwait & Hnow).
      destruct wait.
      - left. apply Hwait. reflexivity.
      - destruct (Hnow eq_refl) as [[_ ->]|(resp & Hres & Hok & _ & ->)];
          [left; reflexivity|].
        right. exists attempt, resp. auto. }
    destruct (Hfinish lh1 Hlh H0) as (Ha & Hc & Hd).
    split; [exact Ha|]. split; [exact Hval|split; assumption].
Qed.

(** X19. The shape of a request's network activity: every send goes to the
    same URL with the same method, every wait lasts 1000 ms, a wait comes only
    between two sends, and there are at most as many waits as retries, so a
    request never waits longer than [1000 * maxRetries] ms in all. *)
Theorem request_trace_shape (fuel : nat) :
  forall (attempt : nat) (retries : Z) (lh lh' : option string)
         (r : throws (option json)) (evs : list event),
  request_fuel fuel cfg net attempt method path retries lh = Some (r, lh', evs) ->
  Forall (fun e => e = EvFetch method (baseUrl cfg +:+ path) \/ e = EvSleep 1000) evs
  /\ head evs = Some (EvFetch method (baseUrl cfg +:+ path))
  /\ last evs = Some (EvFetch method (baseUrl cfg +:+ path))
  /\ Client.sleeps evs < attempts evs
  /\ Client.sleeps evs <= Z.max 0 retries
  /\ Client.waited evs = 1000 * Client.sleeps evs
  /\ Client.waited evs <= 1000 * Z.max 0 retries.
Proof.
  induction fuel as [|fuel IH]; intros attempt retries lh lh' r evs; [discriminate|].
  rewrite request_fuel_unfold.
  destruct (Client.attemptOnce _ _ _ _) as [r1 lh1|wait lh1] eqn:Hstep.
  - intros [= <- <- <-].
    splits; try reflexivity; try (repeat constructor; left; reflexivity);
      unfold Client.sleeps; simpl; lia.
  - destruct (request_fuel fuel _ _ _ _ _ _ _) as [[[r2 lh2] evs2]|] eqn:Hrec; [|discriminate].
    intros [= <- <- <-].
    destruct (attemptOnce_again _ _ _ _ _ _ Hstep) as (Hpos & _ & _).
    destruct (IH _ _ _ _ _ _ Hrec) as (Hall & Hhd & Hlast & Hlt & Hle & Hw & _).
    assert (Hne : evs2 <> []) by (intros ->; discriminate).
    destruct wait; simpl app.
    + splits.
      * constructor; [left; reflexivity|]. constructor; [right; reflexivity|exact Hall].
      * reflexivity.
      * destruct evs2 as [|e2 evs2]; [contradiction|]. exact Hlast.
      * rewrite sleeps_fetch, sleeps_sleep, attempts_fetch, attempts_sleep. lia.
      * rewrite sleeps_fetch, sleeps_sleep. lia.
      * rewrite sleeps_fetch, sleeps_sleep. simpl. lia.
      * simpl. lia.
    + splits.
      * constructor; [left; reflexivity|exact Hall].
      * reflexivity.
      * destruct evs2 as [|e2 evs2]; [contradiction|]. exact Hlast.
      * rewrite sleeps_fetch, attempts_fetch. lia.
      * rewrite sleeps_fetch. lia.
      * rewrite sleeps_fetch. simpl. exact Hw.
      * simpl. lia.
Qed.

End RequestRuns.

Lemma request_failures_classified_witness :
  exists m c o,
    EngramError "Resource not found" 404 false = EngramError m c o
    /\ (o = true -> c = 0)
    /\ (o = false ->
        exists k resp, fetch (Demo.scripted [Demo.respond 503 "busy"; Demo.respond 404 "gone"]) k
                       = Responded resp
                       /\ ok resp = false /\ c = status resp).
Proof.
  apply (request_failures_classified (rt := Demo.runtime) Demo.cfg
           (Demo.scripted [Demo.respond 503 "busy"; Demo.respond 404 "gone"])
           "GET" "/v1/health" 3 0 2 None None _
           [EvFetch "GET" "http://localhost:3001/v1/health"; EvSleep 1000;
            EvFetch "GET" "http://localhost:3001/v1/health"]).
  vm_compute. reflexivity.
Defined.

Lemma lastHealthy_follows_success_witness :
  exists k resp,
    fetch (Demo.scripted [Aborted; Demo.respond 200 "{}"]) k = Responded resp
    /\ ok resp = true
    /\ Some "2026-01-01T00:00:01.000Z"
       = Some (toISOString (Demo.scripted [Aborted; Demo.respond 200 "{}"]) k).
Proof.
  assert (Hrun : request_fuel (rt := Demo.runtime) 3 Demo.cfg
                   (Demo.scripted [Aborted; Demo.respond 200 "{}"]) 0 "GET" "/v1/health" 2
                   (Some "2025-12-31T23:59:59.000Z")
                 = Some (inr (Some "{}"), Some "2026-01-01T00:00:01.000Z",
                         [EvFetch "GET" "http://localhost:3001/v1/health";
                          EvFetch "GET" "http://localhost:3001/v1/health"]))
    by (vm_compute; reflexivity).
  pose proof (lastHealthy_follows_success (rt := Demo.runtime) Demo.cfg
                (Demo.scripted [Aborted; Demo.respond 200 "{}"]) "GET" "/v1/health" 3 0 2
                _ _ _ _ Hrun) as (_ & Hval & _).
  exact (Hval _ eq_refl).
Defined.

Lemma request_trace_shape_witness :
  Client.waited [EvFetch "GET" "http://localhost:3001/v1/health"; EvSleep 1000;
                 EvFetch "GET" "http://localhost:3001/v1/health"; EvSleep 1000;
                 EvFetch "GET" "http://localhost:3001/v1/health"]
  <= 1000 * Z.max 0 2.
Proof.
  apply (request_trace_shape (rt := Demo.runtime) Demo.cfg
           (Demo.scripted [Demo.respond 503 "busy"; Demo.respond 500 "busy";
                           Demo.respond 502 "busy"])
           "GET" "/v1/health" 3 0 2 None None
           (inl (EngramError "Engram API error: 502  — busy" 502 false))).
  vm_compute. reflexivity.
Defined.

(** *** Cutting text at a number of code units *)

Lemma append_empty_r (a : string) : a +:+ "" = a.
Proof.
  induction a as [|c a IH]; [reflexivity|].
  change (String c (a +:+ "") = String c a). rewrite IH. reflexivity.
Qed.

Lemma append_assoc (a b c : string) : (a +:+ b) +:+ c = a +:+ (b +:+ c).
Proof.
  induction a as [|x a IH]; [reflexivity|].
  change (String x ((a +:+ b) +:+ c) = String x (a +:+ (b +:+ c))). rewrite IH. reflexivity.
Qed.

Lemma text_lit (s : string) : Js.text (lit s) = s.
Proof.
  unfold Js.text, lit. rewrite List.map_map.
  rewrite (List.map_ext _ id) by (intros a; apply Ascii.ascii_N_embedding).
  rewrite List.map_id. apply String.string_of_list_ascii_of_string.
Qed.

Lemma lit_bytes (s : string) : Forall (fun b => (b < 256)%N) (lit s).
Proof.
  unfold lit. apply Forall_forall. intros b Hb. apply list_elem_of_In, in_map_iff in Hb as (a & <- & _).
  apply Ascii.N_ascii_bounded.
Qed.

Lemma lit_text (bytes : list N) : Forall (fun b => (b < 256)%N) bytes -> lit (Js.text bytes) = bytes.
Proof.
  intros H. unfold Js.text, lit. rewrite String.list_ascii_of_string_of_list_ascii, List.map_map.
  induction H as [|b l Hb _ IH]; simpl; [reflexivity|].
  rewrite Ascii.N_ascii_embedding by exact Hb. rewrite IH. reflexivity.
Qed.

Lemma sliceBytes_short (bytes : list N) :
  forall n : nat, (length16 bytes <= n)%nat -> sliceBytes n bytes = bytes.
Proof.
  induction bytes as [|b rest IH]; intros n Hlen; [reflexivity|].
  simpl in *. destruct (isContinuation b).
  - rewrite IH by lia. reflexivity.
  - destruct (Nat.leb_spec (unitsOf b) n); [|lia]. rewrite IH by lia. reflexivity.
Qed.

Lemma isContinuation_low6 (x : N) : isContinuation (128 + x mod 64) = true.
Proof.
  unfold isContinuation. pose proof (N.mod_lt x 64 ltac:(discriminate)) as H.
  revert H. generalize (x mod 64)%N. intros y H.
  apply andb_true_intro. split; [apply N.leb_le|apply N.ltb_lt]; lia.
Qed.

Lemma highSurrogate_shape (b0 b1 b2 : N) :
  length16 (highSurrogate b0 b1 b2) = 1%nat
  /\ Forall (fun b => (b < 256)%N) (highSurrogate b0 b1 b2).
Proof.
  unfold highSurrogate. cbv zeta.
  set (high := (55296 + _)%N).
  split.
  - cbn [length16]. rewrite !isContinuation_low6. reflexivity.
  - pose proof (N.mod_lt ((high / 64)%N) 64 ltac:(discriminate)) as H1.
    pose proof (N.mod_lt high 64 ltac:(discriminate)) as H2.
    revert H1 H2. generalize ((high / 64) mod 64)%N (high mod 64)%N. intros y1 y2 H1 H2.
    repeat constructor; lia.
Qed.

Lemma sliceBytes_at_most (bytes : list N) :
  forall n : nat, (length16 (sliceBytes n bytes) <= n)%nat.
Proof.
  induction bytes as [|b rest IH]; intros n; [simpl; lia|].
  simpl. destruct (isContinuation b) eqn:Hc.
  - simpl. rewrite Hc. apply IH.
  - destruct (Nat.leb_spec (unitsOf b) n).
    + simpl. rewrite Hc. specialize (IH (n - unitsOf b)%nat). lia.
    + destruct n as [|[|n]]; [simpl; lia| |simpl; lia].
      destruct rest as [|b1 [|b2 rest']]; [simpl; lia|simpl; lia|].
      rewrite (proj1 (highSurrogate_shape b b1 b2)). lia.
Qed.

Lemma sliceBytes_bytes (bytes : list N) :
  Forall (fun b => (b < 256)%N) bytes ->
  forall n : nat, Forall (fun b => (b < 256)%N) (sliceBytes n bytes).
Proof.
  induction 1 as [|b rest Hb Hrest IH]; intros n; [constructor|].
  simpl. destruct (isContinuation b); [constructor; [exact Hb|apply IH]|].
  destruct (unitsOf b <=? n)%nat; [constructor; [exact Hb|apply IH]|].
  destruct n as [|[|n]]; [constructor| |constructor].
  destruct rest as [|b1 [|b2 rest']]; [constructor|constructor|].
  apply highSurrogate_shape.
Qed.

Lemma slice_short (n : nat) (s : string) :
  (length16 (lit s) <= n)%nat -> slice n s = s.
Proof. intros H. unfold slice. rewrite sliceBytes_short by exact H. apply text_lit. Qed.

Lemma slice_at_most (n : nat) (s : string) : (length16 (lit (slice n s)) <= n)%nat.
Proof.
  unfold slice. rewrite lit_text by apply sliceBytes_bytes, lit_bytes.
  apply sliceBytes_at_most.
Qed.

(** A cut that falls inside a surrogate pair keeps the first half of the
    pair: of 199 letters followed by U+1D11E the first 200 code units are the
    letters and the high surrogate U+D834. *)
Lemma slice_inside_pair :
  lit (slice 200 Samples.astral) = (List.repeat 97 199 ++ [237; 160; 180])%N
  /\ length16 (lit (slice 200 Samples.astral)) = 200%nat.
Proof. split; vm_compute; reflexivity. Qed.

Section Statuses.

Context {rt : Runtime}.
Variables (cfg : Config) (net : Network) (method path : string).

(** X20. A response that is neither a 2xx nor a 5xx settles the request at
    once, whatever retries are left: one send, no wait, the last healthy time
    untouched, and an error that is not flagged offline and carries the
    status. Its message is fixed for 401 and 403 (invalid key) and for 404
    (not found), names the backend's rate limit for 429 with the
    [retry-after] header when there is one, and otherwise quotes the status,
    the status text and, when the body is not empty, the first 200 UTF-16
    code units of the body: never more, and the whole body when it has no
    more than that. *)
Theorem client_errors_settle_at_once (fuel attempt : nat) (retries : Z)
  (lh : option string) (resp : Response) :
  fetch net attempt = Responded resp ->
  ok resp = false -> status resp < 500 ->
  exists m,
    request_fuel (S fuel) cfg net attempt method path retries lh
    = Some (inl (EngramError m (status resp) false), lh,
            [EvFetch method (baseUrl cfg +:+ path)])
    /\ (status resp = 401 \/ status resp = 403 -> m = "API key invalid or expired")
    /\ (status resp = 404 -> m = "Resource not found")
    /\ (status resp = 429 ->
        m = rateLimitedByBackend (retryAfterHeader resp)
        /\ (forall hint, retryAfterHeader resp = Some hint -> hint <> "" ->
              m = "Rate limited by Engram backend. Retry after " +:+ hint +:+ "s")
        /\ (retryAfterHeader resp = None -> m = "Rate limited by Engram backend"))
    /\ (status resp <> 401 -> status resp <> 403 -> status resp <> 404 ->
        status resp <> 429 ->
        let errBody := match body resp with BodyText t => t | _ => "" end in
        let heading :=
          "Engram API error: " +:+ pretty (status resp) +:+ " " +:+ statusText resp in
        m = apiErrorMessage resp errBody
        /\ (errBody = "" -> m = heading)
        /\ (errBody <> "" ->
            exists quoted,
              m = heading +:+ " — " +:+ quoted
              /\ quoted = slice 200 errBody
              /\ (length16 (lit quoted) <= 200)%nat
              /\ ((length16 (lit errBody) <= 200)%nat -> quoted = errBody))).
Proof.
  assert (Hgeneric : forall errBody,
            let heading :=
              "Engram API error: " +:+ pretty (status resp) +:+ " " +:+ statusText resp in
            (errBody = "" -> apiErrorMessage resp errBody = heading)
            /\ (errBody <> "" ->
                exists quoted,
                  apiErrorMessage resp errBody = heading +:+ " — " +:+ quoted
                  /\ quoted = slice 200 errBody
                  /\ (length16 (lit quoted) <= 200)%nat
                  /\ ((length16 (lit errBody) <= 200)%nat -> quoted = errBody))).
  { intros errBody heading. unfold apiErrorMessage, truthy. fold heading. split.
    - intros ->. simpl. rewrite append_empty_r. reflexivity.
    - intros Hne. destruct (String.eqb_spec errBody ""); [contradiction|]. simpl.
      exists (slice 200 errBody). split; [|split; [reflexivity|split]].
      + unfold heading. rewrite !append_assoc. reflexivity.
      + apply slice_at_most.
      + apply slice_short. }
  intros Hfetch Hok Hlow. rewrite request_fuel_unfold, Hfetch.
  unfold Client.attemptOnce. rewrite Hok.
  destruct (Z.eqb_spec (status resp) 401) as [H401|H401];
    [|destruct (Z.eqb_spec (status resp) 403) as [H403|H403]]; simpl.
  - eexists. split; [reflexivity|]. splits; intros; try lia; reflexivity.
  - eexists. split; [reflexivity|]. splits; intros; try lia; reflexivity.
  - destruct (Z.eqb_spec (status resp) 404) as [H404|H404].
    + eexists. split; [rewrite H404; reflexivity|]. splits; intros; try lia; reflexivity.
    + destruct (Z.eqb_spec (status resp) 429) as [H429|H429].
      * eexists. split; [rewrite H429; reflexivity|]. splits; intros; try lia.
        splits; [reflexivity| |].
        -- intros hint Hhint Hne. unfold rateLimitedByBackend. rewrite Hhint.
           unfold truthy. destruct (String.eqb_spec hint ""); [contradiction|reflexivity].
        -- intros Hhint. unfold rateLimitedByBackend. rewrite Hhint. reflexivity.
      * destruct (Z.geb_spec (status resp) 500); [lia|]. simpl.
        eexists. split; [reflexivity|]. splits; intros; try lia.
        split; [reflexivity|apply Hgeneric].
Qed.

(** X21. A backend that keeps answering with 5xx uses up the retries: the
    request sends once more than it has retries, waits one second before each
    resend, and fails with an error that is not flagged offline and carries
    the status of the last response and the message built from it (status,
    status text and the first 200 code units of its body). The last healthy
    time is unchanged. *)
Theorem server_failure_exhausts_retries (resps : nat -> Response) :
  (forall k, fetch net k = Responded (resps k) /\ 500 <= status (resps k)) ->
  forall (fuel attempt : nat) (retries : Z) (lh : option string),
  (Z.to_nat retries < fuel)%nat ->
  let final := resps (attempt + Z.to_nat retries)%nat in
  exists evs,
    request_fuel fuel cfg net attempt method path retries lh
    = Some (inl (EngramError
                   (apiErrorMessage final match body final with BodyText t => t | _ => "" end)
                   (status final) false),
            lh, evs)
    /\ attempts evs = Z.max 0 retries + 1
    /\ Client.sleeps evs = Z.max 0 retries.
Proof.
  intros Hall fuel. induction fuel as [|fuel IH]; intros attempt retries lh Hfuel final; [lia|].
  destruct (Hall attempt) as [Hfetch Hstatus].
  destruct (Z.ltb_spec 0 retries) as [Hpos|Hnone].
  - rewrite (request_fuel_5xx cfg net method path fuel attempt retries lh _ Hfetch Hstatus Hpos).
    destruct (IH (S attempt) (retries - 1) lh ltac:(lia)) as (evs & Heq & Hn & Hs).
    cbv zeta in Heq.
    replace (S attempt + Z.to_nat (retries - 1))%nat with (attempt + Z.to_nat retries)%nat
      in Heq by lia.
    fold final in Heq. rewrite Heq. eexists. split; [reflexivity|].
    autorewrite with attempts. rewrite sleeps_fetch, sleeps_sleep. lia.
  - rewrite request_fuel_unfold, Hfetch. unfold Client.attemptOnce.
    subst final. replace (attempt + Z.to_nat retries)%nat with attempt by lia.
    unfold ok. destruct (Z.leb_spec (status (resps attempt)) 299); [lia|].
    rewrite andb_false_r.
    destruct (Z.eqb_spec (status (resps attempt)) 401); [lia|].
    destruct (Z.eqb_spec (status (resps attempt)) 403); [lia|].
    destruct (Z.eqb_spec (status (resps attempt)) 404); [lia|].
    destruct (Z.eqb_spec (status (resps attempt)) 429); [lia|].
    destruct (Z.ltb_spec 0 retries); [lia|]. rewrite andb_false_r. simpl.
    eexists. split; [reflexivity|]. autorewrite with attempts.
    unfold Client.sleeps. simpl. lia.
Qed.

(** X22. A 2xx response whose body is not valid JSON is reported as if the
    backend could not be reached: the request fails at once with the error
    flagged offline that quotes the parser's message, although the very same
    response has just been recorded as the last healthy time. An empty body,
    in contrast, is the value [undefined] and no error. *)
Theorem malformed_body_reported_offline (fuel attempt : nat) (retries : Z)
  (lh : option string) (resp : Response) (text syntaxError : string) :
  fetch net attempt = Responded resp ->
  ok resp = true -> body resp = BodyText text ->
  (text <> "" -> JSON_parse text = inl syntaxError ->
   request_fuel (S fuel) cfg net attempt method path retries lh
   = Some (inl (EngramError ("Cannot reach Engram backend: " +:+ syntaxError) 0 true),
           Some (toISOString net attempt), [EvFetch method (baseUrl cfg +:+ path)]))
  /\ (text = "" ->
      request_fuel (S fuel) cfg net attempt method path retries lh
      = Some (inr None, Some (toISOString net attempt),
              [EvFetch method (baseUrl cfg +:+ path)])).
Proof.
  intros Hfetch Hok Hbody. split.
  - intros Htext Hparse. rewrite request_fuel_unfold, Hfetch.
    unfold Client.attemptOnce. rewrite Hok, Hbody. unfold decoded, truthy.
    destruct (String.eqb_spec text ""); [contradiction|]. simpl. rewrite Hparse. reflexivity.
  - intros ->. rewrite request_fuel_unfold, Hfetch.
    unfold Client.attemptOnce. rewrite Hok, Hbody. reflexivity.
Qed.

End Statuses.

Lemma client_errors_settle_at_once_witness :
  (exists m,
     request_fuel (rt := Demo.runtime) 1 Demo.cfg (Demo.scripted [Samples.limited]) 0
       "POST" "/v1/memories" 2 None
     = Some (inl (EngramError m 429 false), None,
             [EvFetch "POST" "http://localhost:3001/v1/memories"])
     /\ m = "Rate limited by Engram backend. Retry after 30s")
  /\ (exists m,
        request_fuel (rt := Demo.runtime) 1 Demo.cfg (Demo.scripted [Samples.rejected]) 0
          "POST" "/v1/memories" 2 None
        = Some (inl (EngramError m 400 false), None,
                [EvFetch "POST" "http://localhost:3001/v1/memories"])
        /\ m = "Engram API error: 400 Bad Request — " +:+ Samples.accents).
Proof.
  split.
  - destruct (client_errors_settle_at_once (rt := Demo.runtime) Demo.cfg
                (Demo.scripted [Samples.limited]) "POST" "/v1/memories" 0 0 2 None
                {| status := 429; statusText := "Too Many Requests";
                   retryAfterHeader := Some "30"; body := BodyText "" |}
                eq_refl eq_refl ltac:(simpl; lia)) as (m & Hrun & _ & _ & H429 & _).
    exists m. split; [exact Hrun|].
    destruct (H429 eq_refl) as (_ & Hhint & _). apply (Hhint "30"); [reflexivity|discriminate].
  - assert (Hlow : status Samples.badRequest < 500) by (simpl; lia).
    destruct (client_errors_settle_at_once (rt := Demo.runtime) Demo.cfg
                (Demo.scripted [Samples.rejected]) "POST" "/v1/memories" 0 0 2 None
                Samples.badRequest eq_refl eq_refl Hlow) as (m & Hrun & _ & _ & _ & Hother).
    exists m. split; [exact Hrun|].
    assert (H401 : status Samples.badRequest <> 401) by discriminate.
    assert (H403 : status Samples.badRequest <> 403) by discriminate.
    assert (H404 : status Samples.badRequest <> 404) by discriminate.
    assert (H429 : status Samples.badRequest <> 429) by discriminate.
    destruct (Hother H401 H403 H404 H429) as (_ & _ & Hquoted).
    assert (Hbody : Samples.accents <> "") by discriminate.
    destruct (Hquoted Hbody) as (quoted & -> & _ & _ & Hwhole).
    assert (Hshort : (length16 (lit Samples.accents) <= 200)%nat)
      by (apply Nat.leb_le; vm_compute; reflexivity).
    rewrite (Hwhole Hshort). reflexivity.
Defined.

Lemma server_failure_exhausts_retries_witness :
  exists evs,
    request_fuel (rt := Demo.runtime) 3 Demo.cfg Samples.down 0 "GET" "/v1/health" 2 None
    = Some (inl (EngramError "Engram API error: 503  — busy" 503 false), None, evs)
    /\ attempts evs = 3 /\ Client.sleeps evs = 2.
Proof.
  assert (Hdown : forall k : nat,
            fetch Samples.down k = Responded ((fun _ => Samples.busy) k)
            /\ 500 <= status ((fun _ => Samples.busy) k)).
  { intros k. split; [reflexivity|]. vm_compute. discriminate. }
  assert (Hfuel : (Z.to_nat 2 < 3)%nat) by (simpl; lia).
  pose proof (server_failure_exhausts_retries (rt := Demo.runtime) Demo.cfg Samples.down
                "GET" "/v1/health" (fun _ => Samples.busy) Hdown 3 0 2 None Hfuel) as H.
  cbv zeta in H. destruct H as (evs & Heq & Hn & Hs).
  exists evs. split; [|split; assumption].
  rewrite Heq. do 3 f_equal.
Defined.

Lemma malformed_body_reported_offline_witness :
  request_fuel (rt := Samples.strict) 1 Demo.cfg (Demo.scripted [Samples.html]) 0
    "GET" "/v1/health" 2 None
  = Some (inl (EngramError "Cannot reach Engram backend: Unexpected token" 0 true),
          Some "2026-01-01T00:00:00.000Z", [EvFetch "GET" "http://localhost:3001/v1/health"]).
Proof.
  apply (proj1 (malformed_body_reported_offline (rt := Samples.strict) Demo.cfg
                  (Demo.scripted [Samples.html]) "GET" "/v1/health" 0 0 2 None
                  {| status := 200; statusText := "OK"; retryAfterHeader := None;
                     body := BodyText "<html>" |}
                  "<html>" "Unexpected token" eq_refl eq_refl eq_refl)).
  - discriminate.
  - reflexivity.
Defined.

(** ** The path of [forget] *)

Lemma isIdChar_unreserved (c : N) : isIdChar c = true -> Client.uriUnreserved c = true.
Proof.
  unfold isIdChar, Client.uriUnreserved.
  rewrite !orb_true_iff, !andb_true_iff, !N.leb_le, !N.eqb_eq. tauto.
Qed.

Lemma encodeURIComponent_unreserved (s : jsstring) :
  Forall (fun c => Client.uriUnreserved c = true) s -> Client.encodeURIComponent s = inr s.
Proof.
  induction 1 as [|c s Hc _ IH]; simpl; [reflexivity|]. rewrite Hc, IH. reflexivity.
Qed.

Lemma hexDigit_unreserved (d : N) : (d < 16)%N -> Client.uriUnreserved (Client.hexDigit d) = true.
Proof.
  intros Hd. unfold Client.hexDigit, Client.uriUnreserved.
  destruct (N.ltb_spec d 10).
  - assert (H1 : (48 <=? 48 + d)%N = true) by (apply N.leb_le; lia).
    assert (H2 : (48 + d <=? 57)%N = true) by (apply N.leb_le; lia).
    rewrite H1, H2. simpl. rewrite !orb_true_r. reflexivity.
  - assert (H1 : (65 <=? 55 + d)%N = true) by (apply N.leb_le; lia).
    assert (H2 : (55 + d <=? 90)%N = true) by (apply N.leb_le; lia).
    rewrite H1, H2. simpl. rewrite !orb_true_r. reflexivity.
Qed.

Lemma percent_safe (octet : N) :
  (octet < 256)%N ->
  Forall (fun c => Client.uriUnreserved c = true \/ c = 37%N) (Client.percent octet).
Proof.
  intros Ho. unfold Client.percent.
  constructor; [right; reflexivity|].
  constructor; [left; apply hexDigit_unreserved, N.Div0.div_lt_upper_bound; lia|].
  constructor; [left; apply hexDigit_unreserved, N.mod_upper_bound; lia|constructor].
Qed.

Lemma utf8_octets (cp : N) : (cp < 1114112)%N -> Forall (fun o => (o < 256)%N) (Client.utf8 cp).
Proof.
  intros Hcp. unfold Client.utf8.
  assert (Hmod : forall x, (128 + x mod 64 < 256)%N).
  { intros x. pose proof (N.mod_upper_bound x 64 ltac:(lia)). lia. }
  destruct (N.ltb_spec cp 128); [repeat constructor; lia|].
  destruct (N.ltb_spec cp 2048).
  { assert (cp / 64 < 32)%N by (apply N.Div0.div_lt_upper_bound; lia).
    repeat constructor; [lia|apply Hmod]. }
  destruct (N.ltb_spec cp 65536).
  { assert (cp / 4096 < 16)%N by (apply N.Div0.div_lt_upper_bound; lia).
    repeat constructor; [lia|apply Hmod|apply Hmod]. }
  assert (cp / 262144 < 5)%N by (apply N.Div0.div_lt_upper_bound; lia).
  repeat constructor; [lia|apply Hmod|apply Hmod|apply Hmod].
Qed.

Lemma escaped_safe (cp : N) :
  (cp < 1114112)%N ->
  Forall (fun c => Client.uriUnreserved c = true \/ c = 37%N) (Client.escaped cp).
Proof.
  intros Hcp. unfold Client.escaped.
  induction (utf8_octets cp Hcp) as [|o os Ho _ IH]; [constructor|].
  change (flat_map Client.percent (o :: os))
    with (Client.percent o ++ flat_map Client.percent os).
  apply Forall_app. split; [apply percent_safe, Ho|exact IH].
Qed.

Lemma encodeURIComponent_safe_upto (n : nat) :
  forall s out,
  (length s <= n)%nat ->
  Forall (fun c => (c < 65536)%N) s ->
  Client.encodeURIComponent s = inr out ->
  Forall (fun c => Client.uriUnreserved c = true \/ c = 37%N) out.
Proof.
  induction n as [|n IH]; intros s out Hlen Hwf.
  - destruct s; [|simpl in Hlen; lia]. intros [= <-]. constructor.
  - destruct s as [|c rest]; [intros [= <-]; constructor|].
    simpl in Hlen. apply Forall_cons in Hwf as [Hc Hrest]. simpl.
    destruct (Client.uriUnreserved c) eqn:Hun.
    { destruct (Client.encodeURIComponent rest) as [e|out'] eqn:Hrec; simpl; [discriminate|].
      intros [= <-]. constructor; [left; exact Hun|].
      apply (IH rest out'); [lia|exact Hrest|exact Hrec]. }
    destruct ((c <? 55296) || (57343 <? c))%N.
    { destruct (Client.encodeURIComponent rest) as [e|out'] eqn:Hrec; simpl; [discriminate|].
      intros [= <-]. apply Forall_app. split; [apply escaped_safe; lia|].
      apply (IH rest out'); [lia|exact Hrest|exact Hrec]. }
    destruct (N.leb_spec c 56319); [|discriminate].
    destruct rest as [|d rest']; [discriminate|].
    apply Forall_cons in Hrest as [Hd Hrest'].
    destruct (N.leb_spec 56320 d); simpl; [|discriminate].
    destruct (N.leb_spec d 57343); simpl; [|discriminate].
    destruct (Client.encodeURIComponent rest') as [e|out'] eqn:Hrec; simpl; [discriminate|].
    intros [= <-]. apply Forall_app. split; [apply escaped_safe; lia|].
    apply (IH rest' out'); [simpl in Hlen; lia|exact Hrest'|exact Hrec].
Qed.

(** X23. [encodeURIComponent] never lets a separator through: whatever
    string of UTF-16 code units it encodes, the result holds only letters,
    digits, the marks [- _ . ! ~ * ' ( )] and the percent sign, so no slash,
    question mark or hash. A string of unreserved characters is returned as
    it is; an identifier that [validateId] accepted is such a string, so the
    path of [forget] is the prefix followed by the identifier, unchanged. *)
Theorem forget_path_is_plain :
  (forall s out,
     Forall (fun c => (c < 65536)%N) s ->
     Client.encodeURIComponent s = inr out ->
     Forall (fun c => Client.uriUnreserved c = true \/ c = 37%N) out
     /\ ~ In 47%N out /\ ~ In 63%N out /\ ~ In 35%N out)
  /\ (forall s, Forall (fun c => Client.uriUnreserved c = true) s ->
        Client.encodeURIComponent s = inr s)
  /\ (forall v id,
        validateId v = inr id ->
        Client.endpoint (Client.forget id) = inr ("DELETE", "/v1/memories/" +:+ Js.text id)).
Proof.
  splits.
  - intros s out Hwf Henc.
    pose proof (encodeURIComponent_safe_upto (length s) s out (le_n _) Hwf Henc) as Hsafe.
    split; [exact Hsafe|].
    rewrite Forall_forall in Hsafe.
    splits; intros Hin; apply list_elem_of_In, Hsafe in Hin;
      destruct Hin as [Hin|Hin]; vm_compute in Hin; discriminate.
  - apply encodeURIComponent_unreserved.
  - intros v id Hvalid. unfold Client.endpoint, Client.forgetPath.
    rewrite encodeURIComponent_unreserved; [reflexivity|].
    unfold validateId in Hvalid. destruct v; try discriminate.
    unfold ID_PATTERN_test in Hvalid.
    destruct (forallb isIdChar s) eqn:Hchars; simpl in Hvalid; [|discriminate].
    destruct ((1 <=? len s) && (len s <=? 128)); [|discriminate].
    injection Hvalid as <-.
    rewrite forallb_forall in Hchars. apply Forall_forall. intros c Hc.
    apply isIdChar_unreserved, Hchars, list_elem_of_In, Hc.
Qed.

Lemma forget_path_is_plain_witness :
  Client.endpoint (Client.forget (lit "abc-123_def"))
  = inr ("DELETE", "/v1/memories/" +:+ Js.text (lit "abc-123_def"))
  /\ ~ In 47%N (lit "a%2Fb").
Proof.
  destruct forget_path_is_plain as (Hsafe & _ & Hid). split.
  - apply (Hid (JString (lit "abc-123_def"))). vm_compute. reflexivity.
  - apply (Hsafe (lit "a/b") (lit "a%2Fb")).
    + vm_compute. repeat (constructor; [reflexivity|]). constructor.
    + vm_compute. reflexivity.
Defined.

(** ** The handlers: how failures are worded, and the successful call *)

Lemma mapE_inl {A B : Type} (f : A -> throws B) (l : list A) (e : exn) :
  mapE f l = inl e -> exists x, In x l /\ f x = inl e.
Proof.
  induction l as [|x l IH]; simpl; [discriminate|].
  destruct (f x) as [e'|y] eqn:Hx; simpl.
  - intros [= <-]. exists x. split; [left; reflexivity|exact Hx].
  - destruct (mapE f l) as [e'|ys]; simpl; [|discriminate].
    intros [= <-]. destruct (IH eq_refl) as (x' & Hin & Hx'). exists x'. split; [right|]; assumption.
Qed.

Ltac plain := eexists; split; [reflexivity|vm_compute; reflexivity].

Lemma validateContent_plain (v : jsval) (e : exn) :
  validateContent v = inl e -> Resources.plainError e.
Proof.
  unfold validateContent. destruct v; try (intros [= <-]; plain).
  destruct (_ =? _); [intros [= <-]; plain|].
  destruct (_ >? _); [intros [= <-]; plain|discriminate].
Qed.

Lemma validateQuery_plain (v : jsval) (e : exn) :
  validateQuery v = inl e -> Resources.plainError e.
Proof.
  unfold validateQuery. destruct v; try (intros [= <-]; plain).
  destruct (_ =? _); [intros [= <-]; plain|].
  destruct (_ >? _); [intros [= <-]; plain|discriminate].
Qed.

Lemma validateId_plain (v : jsval) (e : exn) :
  validateId v = inl e -> Resources.plainError e.
Proof.
  unfold validateId. destruct v; try (intros [= <-]; plain).
  destruct (ID_PATTERN_test s); [discriminate|intros [= <-]; plain].
Qed.

Lemma validateTag_plain (v : jsval) (e : exn) :
  validateTag v = inl e -> Resources.plainError e.
Proof.
  unfold validateTag. destruct v; try (intros [= <-]; plain).
  destruct (_ >? _); [intros [= <-]; plain|].
  destruct (_ =? _); [intros [= <-]; plain|discriminate].
Qed.

Lemma validateTags_plain (v : jsval) (e : exn) :
  validateTags v = inl e -> Resources.plainError e.
Proof.
  unfold validateTags. destruct v; try discriminate; try (intros [= <-]; plain).
  destruct (_ >? _); [intros [= <-]; plain|].
  destruct (mapE validateTag items) as [e'|vs] eqn:Hmap; simpl; [|discriminate].
  intros [= <-]. apply mapE_inl in Hmap as (x & _ & Hx). exact (validateTag_plain x e' Hx).
Qed.

Lemma validateLayer_plain {rt : Runtime} (v : jsval) (e : exn) :
  validateLayer v = inl e -> Resources.plainError e.
Proof.
  unfold validateLayer. destruct v; try discriminate; try (intros [= <-]; plain).
  destruct (negb _); [intros [= <-]; plain|discriminate].
Qed.

Lemma validateLayers_plain {rt : Runtime} (v : jsval) (e : exn) :
  validateLayers v = inl e -> Resources.plainError e.
Proof.
  unfold validateLayers. destruct v; try discriminate; try (intros [= <-]; plain).
  destruct (mapE _ items) as [e'|vs] eqn:Hmap; simpl; [|discriminate].
  intros [= <-]. apply mapE_inl in Hmap as (x & _ & Hx). simpl in Hx.
  destruct (validateLayer x) as [e''|[u|]] eqn:Hl; simpl in Hx.
  - injection Hx as <-. exact (validateLayer_plain x e'' Hl).
  - destruct (len u =? 0); [injection Hx as <-; plain|discriminate].
  - injection Hx as <-. plain.
Qed.

Lemma validation_plain {rt : Runtime} (t : tool) (args : Args) (e : exn) :
  validation t args = inl e -> Resources.plainError e.
Proof.
  destruct t; simpl; unfold bindE;
    repeat match goal with
    | |- context [validateContent ?x] =>
        let H := fresh in destruct (validateContent x) eqn:H;
        [intros [= <-]; exact (validateContent_plain _ _ H)|]
    | |- context [validateQuery ?x] =>
        let H := fresh in destruct (validateQuery x) eqn:H;
        [intros [= <-]; exact (validateQuery_plain _ _ H)|]
    | |- context [validateId ?x] =>
        let H := fresh in destruct (validateId x) eqn:H;
        [intros [= <-]; exact (validateId_plain _ _ H)|]
    | |- context [validateLayer ?x] =>
        let H := fresh in destruct (validateLayer x) eqn:H;
        [intros [= <-]; exact (validateLayer_plain _ _ H)|]
    | |- context [validateLayers ?x] =>
        let H := fresh in destruct (validateLayers x) eqn:H;
        [intros [= <-]; exact (validateLayers_plain _ _ H)|]
    | |- context [validateTags ?x] =>
        let H := fresh in destruct (validateTags x) eqn:H;
        [intros [= <-]; exact (validateTags_plain _ _ H)|]
    end; discriminate.
Qed.

Section Replies.

Context {rt : Runtime}.

(** X24. How a handler words the two failures that never reach the network.
    A call the limiter rejects is answered with the limiter's own message,
    which starts with [Rate limit exceeded for] and the operation key, and
    the state stays as it was. A call a validator rejects is answered with
    [Validation error: ] followed by the validator's message; no validator
    message starts with [Rate limit], so the two are never mixed up. Both
    replies are flagged as errors and nothing is sent. *)
Theorem handler_error_replies (t : tool) (args : Args) (env : Env) (st : State) :
  (forall e w,
     checkRateLimit (operationKey t) (now env) (windows st) = (inl e, w) ->
     exists m,
       e = Error m
       /\ String.prefix ("Rate limit exceeded for " +:+ operationKey t +:+ ". Max") m = true
       /\ handler t args env st = Some ({| text := m; isError := true |}, st, []))
  /\ (forall e w,
        checkRateLimit (operationKey t) (now env) (windows st) = (inr tt, w) ->
        validation t args = inl e ->
        exists m,
          e = Error m
          /\ handler t args env st
             = Some ({| text := "Validation error: " +:+ m; isError := true |},
                     {| windows := w; lastHealthy := lastHealthy st |}, [])).
Proof.
  split.
  - intros e w Hcheck. rewrite handler_staged. unfold staged. rewrite Hcheck.
    unfold checkRateLimit in Hcheck.
    destruct (RATE_LIMITS !! operationKey t) as [limit|];
      [|destruct (inherited (operationKey t)); discriminate].
    destruct (_ >=? _); [|discriminate].
    injection Hcheck as <- <-. eexists. split; [reflexivity|].
    rewrite state_eta. split; [destruct t; vm_compute; reflexivity|].
    unfold handleError.
    replace (String.prefix "Rate limit" _) with true by (destruct t; vm_compute; reflexivity).
    reflexivity.
  - intros e w Hcheck Hinvalid. rewrite handler_staged. unfold staged.
    rewrite Hcheck, Hinvalid.
    destruct (validation_plain t args e Hinvalid) as (m & -> & Hprefix).
    exists m. split; [reflexivity|]. unfold handleError. rewrite Hprefix. reflexivity.
Qed.

(** X25. The successful call. When the limiter admits the call, the
    arguments are valid, the first response is a 2xx whose body decodes and
    the reply can be built from it, the handler answers with that reply, not
    flagged as an error, after a single send to the route of the tool; the
    call has used one slot of its operation and the time of the response is
    the new last healthy time. *)
Theorem handler_success (t : tool) (args : Args) (env : Env) (st : State) (w : Windows)
  (resp : Response) (body_text data : string) (v : option json) :
  checkRateLimit (operationKey t) (now env) (windows st) = (inr tt, w) ->
  validation t args = inr tt ->
  fetch (net env) 0 = Responded resp ->
  ok resp = true -> body resp = BodyText body_text -> decoded body_text = inr v ->
  finish t args v = inr data ->
  handler t args env st
  = Some ({| text := data; isError := false |},
          {| windows := w; lastHealthy := Some (toISOString (net env) 0) |},
          [EvFetch (route t args).1 (baseUrl (config env) +:+ (route t args).2)])
  /\ exists limit,
       RATE_LIMITS !! operationKey t = Some limit
       /\ w !! operationKey t
          = Some (retained limit (now env) (default [] (windows st !! operationKey t))
                  ++ [now env]).
Proof.
  intros Hcheck Hvalid Hfetch Hok Hbody Hdec Hfinish. split.
  - rewrite handler_staged. unfold staged. rewrite Hcheck, Hvalid. unfold request.
    rewrite (request_fuel_ok _ _ _ _ _ _ _ _ resp body_text v Hfetch Hok Hbody Hdec).
    rewrite Hfinish. reflexivity.
  - destruct (operationKey_limited t) as [limit Hlim]. exists limit. split; [exact Hlim|].
    pose proof (checkRateLimit_step (operationKey t) limit (now env) (windows st) Hlim) as Hstep.
    cbv zeta in Hstep. rewrite Hcheck in Hstep. destruct Hstep as [_ ->].
    apply lookup_insert_eq.
Qed.

End Replies.

Lemma handler_error_replies_witness :
  exists m,
    Error "Rate limit exceeded for forget. Max 10 requests per 60s. Retry after 59s." = Error m
    /\ String.prefix ("Rate limit exceeded for " +:+ "forget" +:+ ". Max") m = true
    /\ handler (rt := Demo.runtime) Forget (Demo.forgetArgs "abc")
         {| config := Demo.cfg; now := 1500; net := Demo.scripted [] |} Samples.full
       = Some ({| text := m; isError := true |}, Samples.full, []).
Proof.
  apply (proj1 (handler_error_replies (rt := Demo.runtime) Forget (Demo.forgetArgs "abc")
                  {| config := Demo.cfg; now := 1500; net := Demo.scripted [] |} Samples.full)
           _ (windows Samples.full)).
  vm_compute. reflexivity.
Defined.

Lemma handler_success_witness :
  handler (rt := Demo.runtime) Forget (Demo.forgetArgs "abc")
    (Demo.env (Demo.scripted [Demo.respond 204 ""])) Demo.fresh
  = Some ({| text := forgetReply (lit "abc"); isError := false |},
          {| windows := Demo.recorded; lastHealthy := Some "2026-01-01T00:00:00.000Z" |},
          [EvFetch "DELETE" "http://localhost:3001/v1/memories/abc"]).
Proof.
  assert (Hcheck : checkRateLimit (operationKey Forget) (now (Demo.env (Demo.scripted [Demo.respond 204 ""])))
                     (windows Demo.fresh) = (inr tt, Demo.recorded))
    by (vm_compute; reflexivity).
  assert (Hvalid : validation (rt := Demo.runtime) Forget (Demo.forgetArgs "abc") = inr tt)
    by (vm_compute; reflexivity).
  exact (proj1 (handler_success (rt := Demo.runtime) Forget (Demo.forgetArgs "abc")
                  (Demo.env (Demo.scripted [Demo.respond 204 ""])) Demo.fresh Demo.recorded
                  {| status := 204; statusText := ""; retryAfterHeader := None;
                     body := BodyText "" |}
                  "" (forgetReply (lit "abc")) None Hcheck Hvalid eq_refl eq_refl eq_refl
                  eq_refl eq_refl)).
Defined.

(** ** The resources and the prompt *)

Section ResourcesAndPrompt.

Context {rt : Runtime}.

Lemma request_returns (cfg : Config) (n : Network) (verb path : string)
  (lh : option string) :
  exists r lh' evs, request cfg n verb path lh = Some (r, lh', evs).
Proof.
  unfold request.
  destruct (request_fuel_returns cfg n verb path (S (Z.to_nat (maxRetries cfg))) 0
              (maxRetries cfg) lh ltac:(lia)) as (r & lh' & evs & Heq & _).
  eauto.
Qed.

(** A request that ends offline: the first send fails at connection level,
    or every send times out. *)
Lemma request_offline (cfg : Config) (n : Network) (verb path : string)
  (lh : option string) :
  (exists message, fetch n 0 = Failed message) \/ (forall i, fetch n i = Aborted) ->
  exists m evs, request cfg n verb path lh = Some (inl (EngramError m 0 true), lh, evs).
Proof.
  unfold request. intros [[message Hfail]|Hall].
  - rewrite (request_fuel_failed _ _ _ _ _ _ _ _ message Hfail). eauto.
  - destruct (request_fuel_all_aborted cfg n verb path (S (Z.to_nat (maxRetries cfg))) Hall
                0 (maxRetries cfg) lh ltac:(lia)) as (evs & Heq & _).
    eauto.
Qed.

(** X26. The two resources always answer and are not rate limited: they
    return a content whatever the transport does and leave the limiter's
    windows as they were. When the backend cannot be reached, or every
    attempt times out, the statistics resource answers with the JSON object
    whose [error] is [Engram backend offline] and the context resource with
    [Engram backend offline — context unavailable]. *)
Theorem resources_degrade (env : Env) (st : State) :
  (exists c st' evs,
     Resources.memory_stats env st = Some (c, st', evs)
     /\ windows st' = windows st
     /\ Resources.uri c = "engram://stats"
     /\ attempts evs <= Z.max 0 (maxRetries (config env)) + 1)
  /\ (exists c st' evs,
        Resources.memory_context env st = Some (c, st', evs)
        /\ windows st' = windows st
        /\ Resources.uri c = "engram://context"
        /\ attempts evs <= Z.max 0 (maxRetries (config env)) + 1)
  /\ ((exists message, fetch (net env) 0 = Failed message)
      \/ (forall i, fetch (net env) i = Aborted) ->
      (exists st' evs,
         Resources.memory_stats env st
         = Some ({| Resources.uri := "engram://stats";
                    Resources.mimeType := "application/json";
                    Resources.content := Resources.errorObject "Engram backend offline" |},
                 st', evs))
      /\ (exists st' evs,
            Resources.memory_context env st
            = Some ({| Resources.uri := "engram://context";
                       Resources.mimeType := "text/plain";
                       Resources.content := "Engram backend offline — context unavailable" |},
                    st', evs))).
Proof.
  splits.
  - unfold Resources.memory_stats, Client.call. simpl.
    destruct (request_fuel_returns (config env) (net env) "GET" "/v1/memories/stats"
                (S (Z.to_nat (maxRetries (config env)))) 0 (maxRetries (config env))
                (lastHealthy st) ltac:(lia)) as (r & lh & evs & Heq & Hn).
    unfold request. rewrite Heq. do 3 eexists. splits; [reflexivity|reflexivity|reflexivity|lia].
  - unfold Resources.memory_context, Client.call. simpl.
    destruct (request_fuel_returns (config env) (net env) "POST" "/v1/context"
                (S (Z.to_nat (maxRetries (config env)))) 0 (maxRetries (config env))
                (lastHealthy st) ltac:(lia)) as (r & lh & evs & Heq & Hn).
    unfold request. rewrite Heq. do 3 eexists. splits; [reflexivity|reflexivity|reflexivity|lia].
  - intros Hoff. split.
    + unfold Resources.memory_stats, Client.call. simpl.
      destruct (request_offline (config env) (net env) "GET" "/v1/memories/stats"
                  (lastHealthy st) Hoff) as (m & evs & ->).
      simpl. eauto.
    + unfold Resources.memory_context, Client.call. simpl.
      destruct (request_offline (config env) (net env) "POST" "/v1/context"
                  (lastHealthy st) Hoff) as (m & evs & ->).
      simpl. eauto.
Qed.

(** X27. The prompt never fails and never tells failures apart. It always
    returns its one message, whose text starts with the heading, without
    touching the limiter's windows. Whenever the request for the context
    fails, for whatever reason (backend unreachable, timeout, rejected API
    key, server error), the context in the text is the same note that the
    memory could not be loaded because Engram may be offline. *)
Theorem prompt_never_fails (topic : option string) (env : Env) (st : State) :
  (exists text st' evs,
     Resources.memory_aware_chat topic env st = Some (text, st', evs)
     /\ windows st' = windows st
     /\ String.prefix "## Memory Context" text = true)
  /\ (forall e lh evs,
        request (config env) (net env) "POST" "/v1/context" (lastHealthy st)
        = Some (inl e, lh, evs) ->
        Resources.memory_aware_chat topic env st
        = Some (Resources.promptText
                  "Note: Memory context could not be loaded (Engram may be offline)." topic,
                {| windows := windows st; lastHealthy := lh |}, evs)).
Proof.
  split.
  - unfold Resources.memory_aware_chat, Client.call. simpl.
    destruct (request_returns (config env) (net env) "POST" "/v1/context" (lastHealthy st))
      as (r & lh & evs & ->).
    do 3 eexists. splits; reflexivity.
  - intros e lh evs Hreq. unfold Resources.memory_aware_chat, Client.call. simpl.
    rewrite Hreq. reflexivity.
Qed.

End ResourcesAndPrompt.

Lemma resources_degrade_witness :
  exists st' evs,
    Resources.memory_stats (rt := Demo.runtime) (Demo.env Demo.aborting) Samples.full
    = Some ({| Resources.uri := "engram://stats";
               Resources.mimeType := "application/json";
               Resources.content := Resources.errorObject "Engram backend offline" |},
            st', evs).
Proof.
  apply (proj2 (proj2 (resources_degrade (rt := Demo.runtime) (Demo.env Demo.aborting)
                         Samples.full))).
  right. intros i. reflexivity.
Defined.

Lemma prompt_never_fails_witness :
  Resources.memory_aware_chat (rt := Demo.runtime) (Some "plans")
    (Demo.env (Demo.scripted [Demo.respond 401 "denied"])) Demo.fresh
  = Some (Resources.promptText
            "Note: Memory context could not be loaded (Engram may be offline)." (Some "plans"),
          {| windows := ∅; lastHealthy := None |},
          [EvFetch "POST" "http://localhost:3001/v1/context"]).
Proof.
  apply (proj2 (prompt_never_fails (rt := Demo.runtime) (Some "plans")
                  (Demo.env (Demo.scripted [Demo.respond 401 "denied"])) Demo.fresh)
           (EngramError "API key invalid or expired" 401 false)).
  vm_compute. reflexivity.
Defined.

(** ** The logger *)

Lemma redact_redacted : forall v, Logger.redacted (Logger.redact v) = true.
Proof.
  fix IH 1. intros [| | | |items|fields]; simpl; try reflexivity.
  - induction items as [|x xs IHxs]; simpl; [reflexivity|].
    rewrite (IH x), IHxs. reflexivity.
  - induction fields as [|[key value] rest IHrest]; simpl; [reflexivity|].
    rewrite IHrest, andb_true_r.
    destruct (Logger.sensitive key); [reflexivity|apply IH].
Qed.

Lemma redact_harmless : forall v, Logger.harmless v = true -> Logger.redact v = v.
Proof.
  fix IH 1. intros [| | | |items|fields]; simpl; try reflexivity.
  - intros H. f_equal. induction items as [|x xs IHxs]; simpl; [reflexivity|].
    simpl in H. apply andb_prop in H as [Hx Hxs].
    rewrite (IH x Hx), (IHxs Hxs). reflexivity.
  - intros H. f_equal. induction fields as [|[key value] rest IHrest]; simpl; [reflexivity|].
    simpl in H. apply andb_prop in H as [Hhere Hrest]. apply andb_prop in Hhere as [Hkey Hval].
    rewrite (IHrest Hrest). destruct (Logger.sensitive key); [discriminate|].
    rewrite (IH value Hval). reflexivity.
Qed.

Lemma redact_idempotent : forall v, Logger.redact (Logger.redact v) = Logger.redact v.
Proof.
  fix IH 1. intros [| | | |items|fields]; simpl; try reflexivity.
  - f_equal. induction items as [|x xs IHxs]; simpl; [reflexivity|].
    rewrite (IH x), IHxs. reflexivity.
  - f_equal. induction fields as [|[key value] rest IHrest]; simpl; [reflexivity|].
    rewrite IHrest. destruct (Logger.sensitive key); [reflexivity|].
    rewrite (IH value). reflexivity.
Qed.

(** X28. Whatever the logger writes is redacted. A call below the current
    level writes nothing; any other call writes an entry in which no
    property with a sensitive key (one that contains apikey, api_key, secret,
    password or token, in any letter case) holds anything but [[REDACTED]],
    at any depth of the data, while the timestamp, the level and the message
    are written as given. *)
Theorem log_redacts (currentLevel : Z) (ts : string) (l : Logger.level) (msg : string)
  (data : option (list (string * Logger.jvalue))) :
  (Logger.LEVELS l < currentLevel -> Logger.log currentLevel ts l msg data = None)
  /\ (currentLevel <= Logger.LEVELS l ->
      exists rest,
        Logger.log currentLevel ts l msg data
        = Some (Logger.VObject
                  ([("ts", Logger.VString ts); ("level", Logger.VString (Logger.levelName l));
                    ("msg", Logger.VString msg)] ++ rest))
        /\ (data = None -> rest = [])
        /\ (forall fields, data = Some fields ->
              rest = [("data", Logger.redact (Logger.VObject fields))]))
  /\ (forall written, Logger.log currentLevel ts l msg data = Some written ->
        Logger.redacted written = true).
Proof.
  unfold Logger.log. splits.
  - intros Hlow. destruct (Z.ltb_spec (Logger.LEVELS l) currentLevel); [reflexivity|lia].
  - intros Hhigh. destruct (Z.ltb_spec (Logger.LEVELS l) currentLevel); [lia|].
    destruct data as [fields|]; eexists; (split; [reflexivity|]); split;
      try discriminate; try reflexivity.
    intros fields' [= <-]. reflexivity.
  - intros written. destruct (_ <? _); [discriminate|].
    intros Heq.
    assert (written = Logger.redact (Logger.entry ts l msg data)) as -> by congruence.
    apply redact_redacted.
Qed.

Lemma log_redacts_witness :
  Logger.log 2 "2026-01-01T00:00:00.000Z" Logger.info "Starting" None = None
  /\ Logger.redacted
       (Logger.VObject
          [("ts", Logger.VString "2026-01-01T00:00:00.000Z");
           ("level", Logger.VString "error"); ("msg", Logger.VString "failed");
           ("data", Logger.VObject
                      [("path", Logger.VString "/v1/health");
                       ("config", Logger.VObject [("apiKey", Logger.VString "[REDACTED]")])])])
     = true.
Proof.
  destruct (log_redacts 2 "2026-01-01T00:00:00.000Z" Logger.info "Starting" None) as (Hlow & _).
  destruct (log_redacts 2 "2026-01-01T00:00:00.000Z" Logger.error "failed"
              (Some [("path", Logger.VString "/v1/health");
                     ("config", Logger.VObject [("apiKey", Logger.VString "k-123")])]))
    as (_ & _ & Hred).
  split.
  - apply Hlow. vm_compute. reflexivity.
  - apply Hred. vm_compute. reflexivity.
Defined.

(** X29. Redaction changes nothing else. Data in which no property has a
    sensitive key is written exactly as it was given, and redacting what has
    been redacted changes nothing. *)
Theorem redaction_is_minimal (v : Logger.jvalue) :
  (Logger.harmless v = true -> Logger.redact v = v)
  /\ Logger.redact (Logger.redact v) = Logger.redact v.
Proof.
  split.
  - apply redact_harmless.
  - apply redact_idempotent.
Qed.

(** The pattern knows [apikey] and [api_key] but not the hyphenated name of
    the header that carries the key. *)
Lemma header_name_not_sensitive :
  Logger.sensitive "X-AM-API-Key" = false /\ Logger.sensitive "apiKey" = true
  /\ Logger.sensitive "maxTokens" = true.
Proof. repeat split; reflexivity. Qed.

Lemma redaction_is_minimal_witness :
  Logger.redact (Logger.VObject [("status", Logger.VNumber "503"); ("retriesLeft", Logger.VNumber "1")])
  = Logger.VObject [("status", Logger.VNumber "503"); ("retriesLeft", Logger.VNumber "1")].
Proof.
  apply (proj1 (redaction_is_minimal _)). vm_compute. reflexivity.
Defined.

(** ** The configuration *)

Lemma stripSlash_slash (s : string) : Settings.stripSlash (s +:+ "/") = s.
Proof.
  induction s as [|a s IH]; [reflexivity|].
  change ((String a s) +:+ "/") with (String a (s +:+ "/")).
  cbn [Settings.stripSlash]. rewrite IH.
  destruct s; reflexivity.
Qed.

Lemma orElse_delete_ne (env : Settings.Environment) (removed name : string) :
  removed <> name -> delete removed env !! name = env !! name.
Proof. intros Hne. apply lookup_delete_ne, Hne. Qed.

Section Loading.

Context {pf : Platform}.


End Loading.

